(** * Earthquake dashboard (app_f.py): data pipeline and selection state

    A shallow embedding of the data transformations of [app_f.py]: the
    pandas binning of magnitudes and region counts, the per-year summary
    of the bar chart, the year and region filters, the session-state
    handling of the "Show all years" button, the tectonic overlay with its
    [try]/[except], and the normalisation of region names.

    pandas, numpy, requests and streamlit calls are modelled by their
    documented behaviour on the values the script passes to them. *)

From Stdlib Require Import ZArith NArith List Bool Lia.
From Stdlib Require Import Floats.SpecFloat.
From stdpp Require Import base option list sorting gmap strings pretty.

Import ListNotations.
Local Open Scope Z_scope.

(** ** IEEE 754 binary64 values

    A pandas [float64] cell is a binary64 value; [spec_float] is the
    Standard Library's model of it.  [S754_nan] is pandas' missing value. *)

Module F64.

Definition t := spec_float.

Definition inf : t := S754_infinity false.
Definition nan : t := S754_nan.

(** [lit m] is the positive binary64 number [m * 2^-50]; every decimal
    literal of the script lies in [[4, 8)], where the 53-bit mantissa
    goes with exponent [-50]. *)
Definition lit (m : positive) : t := S754_finite false m (-50).

Definition leb (x y : t) : bool := SFleb x y.
Definition ltb (x y : t) : bool := SFltb x y.

Definition isna (x : t) : bool :=
  match x with S754_nan => true | _ => false end.

Definition is_finite (x : t) : bool :=
  match x with S754_zero _ | S754_finite _ _ _ => true | _ => false end.

End F64.

(** ** [pandas.cut] with explicit bin edges

    [pd.cut(x, bins, labels, right)] looks every value up with
    [bins.searchsorted(x, side)], where [side] is ["left"] for
    right-closed bins and ["right"] for left-closed ones, and gives the
    missing value when the value is missing, when the index is [0] (below
    the first edge) and when it is [len(bins)] (not below the last edge).
    Otherwise the bucket is [ids - 1]. *)

Class CutKey (A : Type) := {
  key_leb : A -> A -> bool;
  key_ltb : A -> A -> bool;
  key_isna : A -> bool
}.

Section Cut.
Context {A : Type} `{CutKey A}.

(** Insertion index in a sorted array: the number of leading edges
    [b] with [b <= x] (side ["right"]) or [b < x] (side ["left"]). *)
Fixpoint searchsorted_right (bins : list A) (x : A) : nat :=
  match bins with
  | [] => O
  | b :: bs => if key_leb b x then S (searchsorted_right bs x) else O
  end.

Fixpoint searchsorted_left (bins : list A) (x : A) : nat :=
  match bins with
  | [] => O
  | b :: bs => if key_ltb b x then S (searchsorted_left bs x) else O
  end.

Definition searchsorted (right_closed : bool) (bins : list A) (x : A) : nat :=
  if right_closed then searchsorted_left bins x else searchsorted_right bins x.

(** The bucket index of [x], [None] for pandas' NaN category. *)
Definition cut_index (bins : list A) (right_closed : bool) (x : A) : option nat :=
  let ids := searchsorted right_closed bins x in
  if key_isna x || Nat.eqb ids (length bins) || Nat.eqb ids 0
  then None else Some (ids - 1)%nat.

Definition cut {L : Type} (bins : list A) (labels : list L)
    (right_closed : bool) (x : A) : option L :=
  match cut_index bins right_closed x with
  | Some i => labels !! i
  | None => None
  end.

End Cut.

(** The bucket [j] read off the edges: [[low, high)] for left-closed bins
    and [(low, high]] for right-closed ones. *)
Definition in_bucket {A : Type} `{CutKey A} (bins : list A) (right_closed : bool)
    (j : nat) (x : A) : bool :=
  match bins !! j, bins !! S j with
  | Some low, Some high =>
      if right_closed then key_ltb low x && key_leb x high
      else key_leb low x && key_ltb x high
  | _, _ => false
  end.

#[export] Instance F64_CutKey : CutKey F64.t :=
  {| key_leb := F64.leb; key_ltb := F64.ltb; key_isna := F64.isna |}.

(** ** Magnitude categories of the epicentre map (lines 113-119) *)

Definition mag_bins_dot : list F64.t :=
  [ F64.lit 5629499534213120  (* 5.0  *)
  ; F64.lit 5798384520239514  (* 5.15 *)
  ; F64.lit 6023564501608038  (* 5.35 *)
  ; F64.lit 6248744482976563  (* 5.55 *)
  ; F64.lit 6473924464345088  (* 5.75 *)
  ; F64.lit 6755399441055744  (* 6.0  *)
  ; F64.lit 6924284427082138  (* 6.15 *)
  ; F64.lit 7149464408450662  (* 6.35 *)
  ; F64.lit 7374644389819187  (* 6.55 *)
  ; F64.lit 7599824371187712  (* 6.75 *)
  ; F64.lit 7881299347898368  (* 7.0  *)
  ; F64.lit 8444249301319680  (* 7.5  *)
  ; F64.inf ].

Definition mag_labels_dot : list string :=
  [ "5.0–5.1"; "5.2–5.3"; "5.4–5.5"; "5.6–5.7"; "5.8–5.9"; "6.0–6.1"
  ; "6.2–6.3"; "6.4–6.5"; "6.6-6.7"; "6.8-6.9"; "7.0-7.5"; "7.5+" ]%string.

(** The literal [5.0], the smallest magnitude of the dataset. *)
Definition mag_5_0 : F64.t := F64.lit 5629499534213120.

Definition magnitude_bucket (m : F64.t) : option nat :=
  cut_index mag_bins_dot false m.

Definition magnitude_category (m : F64.t) : option string :=
  cut mag_bins_dot mag_labels_dot false m.

(** ** Count bins of the choropleth (lines 175-177)

    The counts are [int64] group sizes and the edges are the floats
    [-1, 1, 3, 6, 10, 20, inf].  numpy converts a count to [float64]
    before comparing; the conversion is monotone and exact on the
    integers up to [2^53], which contain all edges, so the comparisons
    are those of the integers extended with [+inf]. *)

Inductive edge := Fin (z : Z) | PInf.

Definition edge_leb (a b : edge) : bool :=
  match a, b with
  | Fin x, Fin y => x <=? y
  | Fin _, PInf => true
  | PInf, Fin _ => false
  | PInf, PInf => true
  end.

Definition edge_ltb (a b : edge) : bool :=
  match a, b with
  | Fin x, Fin y => x <? y
  | Fin _, PInf => true
  | PInf, _ => false
  end.

#[export] Instance edge_CutKey : CutKey edge :=
  {| key_leb := edge_leb; key_ltb := edge_ltb; key_isna := fun _ => false |}.

Definition count_bins_chor : list edge :=
  [Fin (-1); Fin 1; Fin 3; Fin 6; Fin 10; Fin 20; PInf].

Definition count_labels_chor : list string :=
  ["1"; "2–3"; "4–6"; "7–10"; "11–20"; "21+"]%string.

Definition count_bucket (c : Z) : option nat :=
  cut_index count_bins_chor true (Fin c).

Definition count_bin (c : Z) : option string :=
  cut count_bins_chor count_labels_chor true (Fin c).

(** The ranges the labels name: 1, 2-3, 4-6, 7-10, 11-20, 21+ (with 0
    counted under the first). *)
Definition count_range (c : Z) : nat :=
  if c <=? 1 then 0%nat else if c <=? 3 then 1%nat else if c <=? 6 then 2%nat
  else if c <=? 10 then 3%nat else if c <=? 20 then 4%nat else 5%nat.

(** ** The earthquake table

    A Python [str] is a sequence of Unicode code points; comparing two of
    them compares code points from the left.  A missing [region] is
    [None]; a missing float cell is NaN. *)

Definition pystr := list N.

(** The code points of an ASCII literal. *)
Fixpoint py (s : string) : pystr :=
  match s with
  | EmptyString => []
  | String a r => Ascii.N_of_ascii a :: py r
  end.

Fixpoint pystr_compare (a b : pystr) : comparison :=
  match a, b with
  | [], [] => Eq
  | [], _ :: _ => Lt
  | _ :: _, [] => Gt
  | x :: a', y :: b' =>
      match N.compare x y with
      | Eq => pystr_compare a' b'
      | c => c
      end
  end.

Record Row := mkRow {
  year : Z;
  magnitude : F64.t;
  latitude : F64.t;
  longitude : F64.t;
  depth : F64.t;
  stations_used : Z;
  region : option pystr
}.

Definition DataFrame := list Row.

(** ** pandas building blocks *)

Section Frames.
Context {K : Type} (cmp : K -> K -> comparison).

(** The group keys of [groupby(..., sort=True)]: the distinct keys in
    ascending order. *)
Fixpoint insert_key (k : K) (ks : list K) : list K :=
  match ks with
  | [] => [k]
  | k' :: r =>
      match cmp k k' with
      | Lt => k :: ks
      | Eq => ks
      | Gt => k' :: insert_key k r
      end
  end.

Definition group_keys (ks : list K) : list K := foldr insert_key [] ks.

End Frames.

Section Sorting.
Context {A : Type} (le : A -> A -> bool).

(** A stable sort: an element goes in front of the first one it is
    [le] to, so equal elements keep their order. *)
Fixpoint insert_sorted (x : A) (l : list A) : list A :=
  match l with
  | [] => [x]
  | y :: r => if le x y then x :: l else y :: insert_sorted x r
  end.

Definition stable_sort (l : list A) : list A := foldr insert_sorted [] l.

End Sorting.

(** [drop_duplicates(key)]: the first row of every key is kept. *)
Fixpoint drop_duplicates {A K : Type} `{EqDecision K}
    (key : A -> K) (seen : list K) (l : list A) : list A :=
  match l with
  | [] => []
  | x :: r =>
      if bool_decide (key x ∈ seen) then drop_duplicates key seen r
      else x :: drop_duplicates key (key x :: seen) r
  end.

(** [left.merge(right, on="year", how="left")]: every left row, in
    order, with each right row of the same year, or once with missing
    values when there is none. *)
Definition merge_left {L R : Type} (lkey : L -> Z) (rkey : R -> Z)
    (l : list L) (r : list R) : list (L * option R) :=
  flat_map (fun x =>
    match List.filter (fun y => Z.eqb (rkey y) (lkey x)) r with
    | [] => [(x, None)]
    | ms => map (fun y => (x, Some y)) ms
    end) l.

(** [Series.nlargest(n)]: the [n] largest values in descending order,
    ties in row order; missing values come last and only fill up. *)
Definition nlargest (n : nat) (s : list F64.t) : list F64.t :=
  take n (stable_sort (fun a b => F64.leb b a) (List.filter (fun x => negb (F64.isna x)) s)
          ++ List.filter F64.isna s).

(** ** The per-year summary of the bar chart (lines 31-52) *)

Definition rows_of_year (y : Z) (df : DataFrame) : DataFrame :=
  List.filter (fun r => Z.eqb (year r) y) df.

Definition years (df : DataFrame) : list Z := group_keys Z.compare (map year df).

(** Lines 31-37. *)
Record RegionCount := mkRC { rc_year : Z; rc_region : pystr; rc_n : nat }.

Definition year_region_compare (a b : Z * pystr) : comparison :=
  match Z.compare a.1 b.1 with
  | Eq => pystr_compare a.2 b.2
  | c => c
  end.

Definition with_region (df : DataFrame) : list (Z * pystr) :=
  omap (fun r => match region r with Some g => Some (year r, g) | None => None end) df.

Definition region_sizes (df : DataFrame) : list RegionCount :=
  let keyed := with_region df in
  map (fun k => mkRC k.1 k.2
         (length (List.filter (fun k' => bool_decide (k' = k)) keyed)))
      (group_keys year_region_compare keyed).

(** [sort_values(["year", "n"], ascending=[True, False])]. *)
Definition year_asc_n_desc (a b : RegionCount) : bool :=
  (rc_year a <? rc_year b) || ((rc_year a =? rc_year b) && (rc_n b <=? rc_n a)%nat).

Definition top_region (df : DataFrame) : list (Z * pystr) :=
  map (fun c => (rc_year c, rc_region c))
      (drop_duplicates rc_year [] (stable_sort year_asc_n_desc (region_sizes df))).

(** Lines 38-44: the three largest magnitudes of every year. *)
Record TopMags := mkTM { tm_year : Z; tm_m1 : F64.t; tm_m2 : F64.t; tm_m3 : F64.t }.

Definition or_nan (o : option F64.t) : F64.t := default F64.nan o.

(** [s.nlargest(3).to_list() + [None, None, None]], then [L[:3]]. *)
Definition top3_list (s : list F64.t) : list (option F64.t) :=
  take 3 (map Some (nlargest 3 s) ++ [None; None; None]).

(** [apply(pd.Series)] makes the three entries columns; [None] is stored
    as NaN. *)
Definition top_mags_of (y : Z) (df : DataFrame) : TopMags :=
  let L := top3_list (map magnitude (rows_of_year y df)) in
  mkTM y (or_nan (mjoin (L !! 0%nat))) (or_nan (mjoin (L !! 1%nat))) (or_nan (mjoin (L !! 2%nat))).

(** On a table without rows the three [apply] calls give an empty
    Series, [reset_index] gives the two columns [year] and [magnitude],
    and naming four columns on line 44 raises [ValueError]: [None]. *)
Definition top_mags (df : DataFrame) : option (list TopMags) :=
  match df with
  | [] => None
  | _ => Some (map (fun y => top_mags_of y df) (years df))
  end.

(** Lines 46-51. *)
Record YearSummary := mkYS {
  ys_year : Z;
  amount : nat;
  ys_top_region : option pystr;
  m1 : F64.t;
  m2 : F64.t;
  m3 : F64.t
}.

Definition year_sizes (df : DataFrame) : list (Z * nat) :=
  map (fun y => (y, length (rows_of_year y df))) (years df).

Definition summary_row (x : (Z * nat) * option (Z * pystr) * option TopMags) : YearSummary :=
  let '(ya, tr, tm) := x in
  mkYS ya.1 ya.2 (snd <$> tr)
       (or_nan (tm_m1 <$> tm)) (or_nan (tm_m2 <$> tm)) (or_nan (tm_m3 <$> tm)).

Definition per_year_df (df : DataFrame) : option (list YearSummary) :=
  tm ← top_mags df;
  let sizes := stable_sort (fun a b : Z * nat => a.1 <=? b.1) (year_sizes df) in
  let with_tr := merge_left fst fst sizes (top_region df) in
  let with_tm := merge_left (fun x => x.1.1) tm_year with_tr tm in
  Some (map summary_row with_tm).

(** The scenario table: three rows (2015, 6.2, "Greece") and one row
    (2016, 5.1, "Italy"), given by the three columns the summary reads. *)
Definition mag_6_2 : F64.t := F64.lit 6980579422424269.
Definition mag_5_1 : F64.t := F64.lit 5742089524897382.

Definition summary_columns (r : Row) : Z * F64.t * option pystr :=
  (year r, magnitude r, region r).

Definition scenario : list (Z * F64.t * option pystr) :=
  [ (2015, mag_6_2, Some (py "Greece"))
  ; (2015, mag_6_2, Some (py "Greece"))
  ; (2015, mag_6_2, Some (py "Greece"))
  ; (2016, mag_5_1, Some (py "Italy")) ].

Definition scenario_summary : list YearSummary :=
  [ mkYS 2015 3 (Some (py "Greece")) mag_6_2 mag_6_2 mag_6_2
  ; mkYS 2016 1 (Some (py "Italy")) mag_5_1 F64.nan F64.nan ].

Definition years_barchart (s : list YearSummary) : list Z := map ys_year s.
Definition amount_barchart (s : list YearSummary) : list nat := map amount s.

(** ** Selection state (lines 86-101)

    [st.session_state] is a dictionary that survives reruns.  The bar
    chart is a front-end component whose value (the clicked points) is
    kept by the browser under the component's [key]; a key that was never
    shown has no value yet and the component returns the empty list. *)

Record Session := mkSession {
  session_state : gmap string nat;
  components : gmap string (list Z)
}.

Definition new_session : Session := mkSession ∅ ∅.

Definition barchart_version (s : Session) : nat :=
  default 0%nat (session_state s !! "barchart_version"%string).

(** [f"year_bar_selection_{st.session_state.barchart_version}"] *)
Definition selection_key (version : nat) : string :=
  ("year_bar_selection_" +:+ pretty version)%string.

(** Lines 86-93: one pass over the head of the script.  [button] is the
    value of [st.button("Show all years")] in this run; [st.rerun()]
    starts the script again, where the button reads [False]. *)
Definition init_version (s : Session) : Session :=
  match session_state s !! "barchart_version"%string with
  | Some _ => s
  | None => mkSession (<["barchart_version"%string := 0%nat]> (session_state s)) (components s)
  end.

Definition run_head (button : bool) (s : Session) : Session :=
  let s1 := init_version s in
  if button
  then init_version
         (mkSession (<["barchart_version"%string := S (barchart_version s1)]> (session_state s1))
                    (components s1))
  else s1.

(** Lines 94-98: the [x] values of the points the component reports. *)
Definition selected (s : Session) : list Z :=
  default [] (components s !! selection_key (barchart_version s)).

(** Line 100. *)
Definition selected_year (s : Session) : option Z := head (selected s).

(** Line 101. *)
Definition df_filtered (df : DataFrame) (sel : option Z) : DataFrame :=
  match sel with
  | None => df
  | Some y => List.filter (fun r => Z.eqb (year r) y) df
  end.

(** What the user does between two runs of the script. *)
Inductive Event :=
  | ClickBar (y : Z)
  | ShowAllYears
  | OtherWidget.

(** A click stores the point under the key of the chart on screen; every
    event makes the script run again. *)
Definition interact (s : Session) (e : Event) : Session :=
  match e with
  | ClickBar y =>
      run_head false
        (mkSession (session_state s)
                   (<[selection_key (barchart_version s) := [y]]> (components s)))
  | ShowAllYears => run_head true s
  | OtherWidget => run_head false s
  end.

Definition session_after (evs : list Event) : Session :=
  foldl interact (run_head false new_session) evs.

(** ** The epicentre map and the tectonic overlay (lines 135-170) *)

#[local] Unset Elimination Schemes.
Inductive json :=
  | JNull
  | JBool (b : bool)
  | JInt (z : Z)
  | JFloat (f : F64.t)
  | JStr (s : string)
  | JArr (items : list json)
  | JObj (members : list (string * json)).
#[local] Set Elimination Schemes.

Inductive exn :=
  | Timeout
  | ConnectionError
  | HTTPError (status : Z)
  | JSONDecodeError
  | KeyError
  | IndexError
  | TypeError.

(** What the network gives for the GET of line 19: no answer in ten
    seconds, no connection, or a status with a body that parses as JSON
    or does not. *)
Inductive Reply :=
  | TimedOut
  | Unreachable
  | Response (status : Z) (body : option json).

(** Lines 17-21.  [raise_for_status] raises on the statuses 400 to 599.
    [st.cache_data] keeps a returned value for a day and no exception, so
    a call that fails is a call that went to the network. *)
Definition load_tectonics (net : Reply) : exn + json :=
  match net with
  | TimedOut => inl Timeout
  | Unreachable => inl ConnectionError
  | Response status body =>
      if (400 <=? status) && (status <? 600) then inl (HTTPError status)
      else match body with
           | None => inl JSONDecodeError
           | Some j => inr j
           end
  end.

Inductive Trace :=
  | Markers (category : string) (rows : list Row)
  | Lines (lon lat : list json).

(** The part of the page the overlay code writes to: the traces of
    [dot_map], which [add_trace] extends in place, and the warnings. *)
Record Page := mkPage {
  dot_traces : list Trace;
  warnings : list exn
}.

(** Python statements that change the page and may raise. *)
Definition Py (A : Type) : Type := Page -> Page * (exn + A).

Definition py_ret {A} (a : A) : Py A := fun p => (p, inr a).
Definition py_raise {A} (e : exn) : Py A := fun p => (p, inl e).
Definition py_bind {A B} (m : Py A) (k : A -> Py B) : Py B :=
  fun p => match m p with
           | (p', inr a) => k a p'
           | (p', inl e) => (p', inl e)
           end.
Definition py_lift {A} (r : exn + A) : Py A := fun p => (p, r).

(** [try: body except Exception as e: handler(e)] *)
Definition try_except (body : Py unit) (handler : exn -> Py unit) : Py unit :=
  fun p => match body p with
           | (p', inr tt) => (p', inr tt)
           | (p', inl e) => handler e p'
           end.

Notation "'let*' x := m 'in' k" := (py_bind m (fun x => k))
  (at level 10, x name, m at level 100, k at level 200, only parsing).

Definition add_trace (t : Trace) : Py unit :=
  fun p => (mkPage (dot_traces p ++ [t]) (warnings p), inr tt).

Definition st_warning (e : exn) : Py unit :=
  fun p => (mkPage (dot_traces p) (warnings p ++ [e]), inr tt).

Fixpoint py_for {A} (l : list A) (body : A -> Py unit) : Py unit :=
  match l with
  | [] => py_ret tt
  | x :: r => let* _ := body x in py_for r body
  end.

Fixpoint py_map {A B} (f : A -> exn + B) (l : list A) : exn + list B :=
  match l with
  | [] => inr []
  | x :: r =>
      match f x with
      | inl e => inl e
      | inr y => match py_map f r with
                 | inl e => inl e
                 | inr ys => inr (y :: ys)
                 end
      end
  end.

(** [j[k]] with a string key. *)
Definition getitem (j : json) (k : string) : exn + json :=
  match j with
  | JObj members =>
      match List.find (fun kv => String.eqb kv.1 k) members with
      | Some kv => inr kv.2
      | None => inl KeyError
      end
  | _ => inl TypeError
  end.

(** A JSON string is held as its UTF-8 bytes; Python iterates and
    indexes its characters.  A character is a byte that is no
    continuation byte ([10xxxxxx]) and the continuation bytes after it. *)
Definition is_continuation (a : Ascii.ascii) : bool :=
  match a with
  | Ascii.Ascii _ _ _ _ _ _ b6 b7 => b7 && negb b6
  end.

Definition starts_in_character (s : string) : bool :=
  match s with
  | String b _ => is_continuation b
  | EmptyString => false
  end.

Fixpoint characters (s : string) : list string :=
  match s with
  | EmptyString => []
  | String a r =>
      match characters r with
      | t :: l =>
          if starts_in_character r then String a t :: l
          else String a EmptyString :: t :: l
      | [] => [String a EmptyString]
      end
  end.

Definition chars (s : string) : list json := map JStr (characters s).

(** [for x in j] *)
Definition iterate (j : json) : exn + list json :=
  match j with
  | JArr items => inr items
  | JObj members => inr (map (fun kv => JStr kv.1) members)
  | JStr s => inr (chars s)
  | _ => inl TypeError
  end.

(** [j[i]] with a small non-negative index. *)
Definition getindex (j : json) (i : nat) : exn + json :=
  match j with
  | JArr items => match items !! i with Some x => inr x | None => inl IndexError end
  | JStr s => match chars s !! i with Some x => inr x | None => inl IndexError end
  | JObj _ => inl KeyError
  | _ => inl TypeError
  end.

Definition is_LineString (j : json) : bool :=
  match j with JStr s => String.eqb s "LineString" | _ => false end.

(** Lines 155-166, the body of the loop. *)
Definition overlay_feature (feature : json) : Py unit :=
  let* geometry := py_lift (getitem feature "geometry") in
  let* coords := py_lift (getitem geometry "coordinates") in
  let* geometry' := py_lift (getitem feature "geometry") in
  let* type := py_lift (getitem geometry' "type") in
  if is_LineString type then
    let* points := py_lift (iterate coords) in
    let* lons := py_lift (py_map (fun coord => getindex coord 0) points) in
    let* lats := py_lift (py_map (fun coord => getindex coord 1) points) in
    add_trace (Lines lons lats)
  else py_ret tt.

(** Lines 150-168. *)
Definition overlay (show_tectonics : bool) (net : Reply) : Py unit :=
  if show_tectonics then
    try_except
      (let* tectonic_data := py_lift (load_tectonics net) in
       let* features := py_lift (getitem tectonic_data "features") in
       let* items := py_lift (iterate features) in
       py_for items overlay_feature)
      st_warning
  else py_ret tt.

(** Lines 135-145: [px.scatter_map] groups the rows by magnitude
    category and draws one marker trace for every category that has rows,
    in the order of [mag_labels_dot]; the grouping leaves out the rows
    without a category.  Where the column holds one value only, plotly
    does not group: one trace holds all rows.  For one category that is
    the trace of the grouping; for the missing value it is a trace named
    [nan].  A table without rows gives no trace. *)
Definition no_category (r : Row) : bool :=
  bool_decide (magnitude_category (magnitude r) = None).

Definition scatter_map (dff : DataFrame) : list Trace :=
  match dff with
  | [] => []
  | _ :: _ =>
      if forallb no_category dff then [Markers "nan" dff]
      else
        omap (fun label =>
                match List.filter
                        (fun r => bool_decide (magnitude_category (magnitude r) = Some label))
                        dff with
                | [] => None
                | rows => Some (Markers label rows)
                end)
             mag_labels_dot
  end.

(** Lines 135-170: the chart handed to [st.plotly_chart] and the
    warnings shown, or the exception that ends the run. *)
Definition dot_map_section (show_tectonics : bool) (net : Reply) (dff : DataFrame)
    : exn + Page :=
  match overlay show_tectonics net (mkPage (scatter_map dff) []) with
  | (p, inr tt) => inr p
  | (_, inl e) => inl e
  end.

(** ** Region names (lines 172-174)

    [str.title] and [str.strip] read the Unicode character database.
    Which characters are white space is settled; which are cased, and
    what their title-case and lower-case forms are, depends on the
    version of the database and on who does the work: a column of Python
    strings is title-cased by CPython's [str.title], a column held by
    Arrow by Arrow's [utf8_title], which maps character by character.
    Title-casing therefore takes the case tables as an argument;
    [cpython] are the tables and the lowering of CPython 3.11, whose
    database is Unicode 14.0. *)

Module Unicode.
Local Open Scope N_scope.

Definition is_ascii (c : N) : bool := c <? 128.

Definition is_ascii_upper (c : N) : bool := (65 <=? c) && (c <=? 90).
Definition is_ascii_lower (c : N) : bool := (97 <=? c) && (c <=? 122).

(** [Py_UNICODE_ISSPACE] *)
Definition is_space (c : N) : bool :=
  ((0x09 <=? c) && (c <=? 0x0D)) || ((0x1C <=? c) && (c <=? 0x20))
  || (c =? 0x85) || (c =? 0xA0) || (c =? 0x1680)
  || ((0x2000 <=? c) && (c <=? 0x200A))
  || (c =? 0x2028) || (c =? 0x2029) || (c =? 0x202F) || (c =? 0x205F)
  || (c =? 0x3000).

(** The tables are kept as CPython's generator sees them: the code points
    of a property as ranges [(first, last)], the one-character mappings
    as runs [(first, last, step, image)] that send [first], [first +
    step], ... up to [last] to [image], [image + step], ..., and the
    mappings to more than one character one by one. *)
Definition in_ranges (l : list (N * N)) (c : N) : bool :=
  existsb (fun r => (r.1 <=? c) && (c <=? r.2)) l.

Definition run_image (c : N) (r : N * N * N * N) : option N :=
  let '(first, last, step, image) := r in
  if (first <=? c) && (c <=? last)
  then if (c - first) mod step =? 0 then Some (image + (c - first)) else None
  else None.

Fixpoint lookup_runs (l : list (N * N * N * N)) (c : N) : option N :=
  match l with
  | [] => None
  | r :: l' =>
      match run_image c r with
      | Some x => Some x
      | None => lookup_runs l' c
      end
  end.

Definition full_mapping (runs : list (N * N * N * N)) (special : list (N * list N))
    (c : N) : list N :=
  match List.find (fun p => p.1 =? c) special with
  | Some p => p.2
  | None =>
      match lookup_runs runs c with
      | Some x => [x]
      | None => [c]
      end
  end.

Definition cased_ranges : list (N * N) :=
  [ (0x41, 0x5A); (0x61, 0x7A); (0xAA, 0xAA); (0xB5, 0xB5); (0xBA, 0xBA); (0xC0, 0xD6)
  ; (0xD8, 0xF6); (0xF8, 0x1BA); (0x1BC, 0x1BF); (0x1C4, 0x293); (0x295, 0x2B8); (0x2C0, 0x2C1)
  ; (0x2E0, 0x2E4); (0x345, 0x345); (0x370, 0x373); (0x376, 0x377); (0x37A, 0x37D)
  ; (0x37F, 0x37F); (0x386, 0x386); (0x388, 0x38A); (0x38C, 0x38C); (0x38E, 0x3A1)
  ; (0x3A3, 0x3F5); (0x3F7, 0x481); (0x48A, 0x52F); (0x531, 0x556); (0x560, 0x588)
  ; (0x10A0, 0x10C5); (0x10C7, 0x10C7); (0x10CD, 0x10CD); (0x10D0, 0x10FA); (0x10FD, 0x10FF)
  ; (0x13A0, 0x13F5); (0x13F8, 0x13FD); (0x1C80, 0x1C88); (0x1C90, 0x1CBA); (0x1CBD, 0x1CBF)
  ; (0x1D00, 0x1DBF); (0x1E00, 0x1F15); (0x1F18, 0x1F1D); (0x1F20, 0x1F45); (0x1F48, 0x1F4D)
  ; (0x1F50, 0x1F57); (0x1F59, 0x1F59); (0x1F5B, 0x1F5B); (0x1F5D, 0x1F5D); (0x1F5F, 0x1F7D)
  ; (0x1F80, 0x1FB4); (0x1FB6, 0x1FBC); (0x1FBE, 0x1FBE); (0x1FC2, 0x1FC4); (0x1FC6, 0x1FCC)
  ; (0x1FD0, 0x1FD3); (0x1FD6, 0x1FDB); (0x1FE0, 0x1FEC); (0x1FF2, 0x1FF4); (0x1FF6, 0x1FFC)
  ; (0x2071, 0x2071); (0x207F, 0x207F); (0x2090, 0x209C); (0x2102, 0x2102); (0x2107, 0x2107)
  ; (0x210A, 0x2113); (0x2115, 0x2115); (0x2119, 0x211D); (0x2124, 0x2124); (0x2126, 0x2126)
  ; (0x2128, 0x2128); (0x212A, 0x212D); (0x212F, 0x2134); (0x2139, 0x2139); (0x213C, 0x213F)
  ; (0x2145, 0x2149); (0x214E, 0x214E); (0x2160, 0x217F); (0x2183, 0x2184); (0x24B6, 0x24E9)
  ; (0x2C00, 0x2CE4); (0x2CEB, 0x2CEE); (0x2CF2, 0x2CF3); (0x2D00, 0x2D25); (0x2D27, 0x2D27)
  ; (0x2D2D, 0x2D2D); (0xA640, 0xA66D); (0xA680, 0xA69D); (0xA722, 0xA787); (0xA78B, 0xA78E)
  ; (0xA790, 0xA7CA); (0xA7D0, 0xA7D1); (0xA7D3, 0xA7D3); (0xA7D5, 0xA7D9); (0xA7F5, 0xA7F6)
  ; (0xA7F8, 0xA7FA); (0xAB30, 0xAB5A); (0xAB5C, 0xAB68); (0xAB70, 0xABBF); (0xFB00, 0xFB06)
  ; (0xFB13, 0xFB17); (0xFF21, 0xFF3A); (0xFF41, 0xFF5A); (0x10400, 0x1044F); (0x104B0, 0x104D3)
  ; (0x104D8, 0x104FB); (0x10570, 0x1057A); (0x1057C, 0x1058A); (0x1058C, 0x10592)
  ; (0x10594, 0x10595); (0x10597, 0x105A1); (0x105A3, 0x105B1); (0x105B3, 0x105B9)
  ; (0x105BB, 0x105BC); (0x10780, 0x10780); (0x10783, 0x10785); (0x10787, 0x107B0)
  ; (0x107B2, 0x107BA); (0x10C80, 0x10CB2); (0x10CC0, 0x10CF2); (0x118A0, 0x118DF)
  ; (0x16E40, 0x16E7F); (0x1D400, 0x1D454); (0x1D456, 0x1D49C); (0x1D49E, 0x1D49F)
  ; (0x1D4A2, 0x1D4A2); (0x1D4A5, 0x1D4A6); (0x1D4A9, 0x1D4AC); (0x1D4AE, 0x1D4B9)
  ; (0x1D4BB, 0x1D4BB); (0x1D4BD, 0x1D4C3); (0x1D4C5, 0x1D505); (0x1D507, 0x1D50A)
  ; (0x1D50D, 0x1D514); (0x1D516, 0x1D51C); (0x1D51E, 0x1D539); (0x1D53B, 0x1D53E)
  ; (0x1D540, 0x1D544); (0x1D546, 0x1D546); (0x1D54A, 0x1D550); (0x1D552, 0x1D6A5)
  ; (0x1D6A8, 0x1D6C0); (0x1D6C2, 0x1D6DA); (0x1D6DC, 0x1D6FA); (0x1D6FC, 0x1D714)
  ; (0x1D716, 0x1D734); (0x1D736, 0x1D74E); (0x1D750, 0x1D76E); (0x1D770, 0x1D788)
  ; (0x1D78A, 0x1D7A8); (0x1D7AA, 0x1D7C2); (0x1D7C4, 0x1D7CB); (0x1DF00, 0x1DF09)
  ; (0x1DF0B, 0x1DF1E); (0x1E900, 0x1E943); (0x1F130, 0x1F149); (0x1F150, 0x1F169)
  ; (0x1F170, 0x1F189) ].

Definition case_ignorable_ranges : list (N * N) :=
  [ (0x27, 0x27); (0x2E, 0x2E); (0x3A, 0x3A); (0x5E, 0x5E); (0x60, 0x60); (0xA8, 0xA8)
  ; (0xAD, 0xAD); (0xAF, 0xAF); (0xB4, 0xB4); (0xB7, 0xB8); (0x2B0, 0x36F); (0x374, 0x375)
  ; (0x37A, 0x37A); (0x384, 0x385); (0x387, 0x387); (0x483, 0x489); (0x559, 0x559)
  ; (0x55F, 0x55F); (0x591, 0x5BD); (0x5BF, 0x5BF); (0x5C1, 0x5C2); (0x5C4, 0x5C5)
  ; (0x5C7, 0x5C7); (0x5F4, 0x5F4); (0x600, 0x605); (0x610, 0x61A); (0x61C, 0x61C)
  ; (0x640, 0x640); (0x64B, 0x65F); (0x670, 0x670); (0x6D6, 0x6DD); (0x6DF, 0x6E8)
  ; (0x6EA, 0x6ED); (0x70F, 0x70F); (0x711, 0x711); (0x730, 0x74A); (0x7A6, 0x7B0)
  ; (0x7EB, 0x7F5); (0x7FA, 0x7FA); (0x7FD, 0x7FD); (0x816, 0x82D); (0x859, 0x85B)
  ; (0x888, 0x888); (0x890, 0x891); (0x898, 0x89F); (0x8C9, 0x902); (0x93A, 0x93A)
  ; (0x93C, 0x93C); (0x941, 0x948); (0x94D, 0x94D); (0x951, 0x957); (0x962, 0x963)
  ; (0x971, 0x971); (0x981, 0x981); (0x9BC, 0x9BC); (0x9C1, 0x9C4); (0x9CD, 0x9CD)
  ; (0x9E2, 0x9E3); (0x9FE, 0x9FE); (0xA01, 0xA02); (0xA3C, 0xA3C); (0xA41, 0xA42)
  ; (0xA47, 0xA48); (0xA4B, 0xA4D); (0xA51, 0xA51); (0xA70, 0xA71); (0xA75, 0xA75)
  ; (0xA81, 0xA82); (0xABC, 0xABC); (0xAC1, 0xAC5); (0xAC7, 0xAC8); (0xACD, 0xACD)
  ; (0xAE2, 0xAE3); (0xAFA, 0xAFF); (0xB01, 0xB01); (0xB3C, 0xB3C); (0xB3F, 0xB3F)
  ; (0xB41, 0xB44); (0xB4D, 0xB4D); (0xB55, 0xB56); (0xB62, 0xB63); (0xB82, 0xB82)
  ; (0xBC0, 0xBC0); (0xBCD, 0xBCD); (0xC00, 0xC00); (0xC04, 0xC04); (0xC3C, 0xC3C)
  ; (0xC3E, 0xC40); (0xC46, 0xC48); (0xC4A, 0xC4D); (0xC55, 0xC56); (0xC62, 0xC63)
  ; (0xC81, 0xC81); (0xCBC, 0xCBC); (0xCBF, 0xCBF); (0xCC6, 0xCC6); (0xCCC, 0xCCD)
  ; (0xCE2, 0xCE3); (0xD00, 0xD01); (0xD3B, 0xD3C); (0xD41, 0xD44); (0xD4D, 0xD4D)
  ; (0xD62, 0xD63); (0xD81, 0xD81); (0xDCA, 0xDCA); (0xDD2, 0xDD4); (0xDD6, 0xDD6)
  ; (0xE31, 0xE31); (0xE34, 0xE3A); (0xE46, 0xE4E); (0xEB1, 0xEB1); (0xEB4, 0xEBC)
  ; (0xEC6, 0xEC6); (0xEC8, 0xECD); (0xF18, 0xF19); (0xF35, 0xF35); (0xF37, 0xF37)
  ; (0xF39, 0xF39); (0xF71, 0xF7E); (0xF80, 0xF84); (0xF86, 0xF87); (0xF8D, 0xF97)
  ; (0xF99, 0xFBC); (0xFC6, 0xFC6); (0x102D, 0x1030); (0x1032, 0x1037); (0x1039, 0x103A)
  ; (0x103D, 0x103E); (0x1058, 0x1059); (0x105E, 0x1060); (0x1071, 0x1074); (0x1082, 0x1082)
  ; (0x1085, 0x1086); (0x108D, 0x108D); (0x109D, 0x109D); (0x10FC, 0x10FC); (0x135D, 0x135F)
  ; (0x1712, 0x1714); (0x1732, 0x1733); (0x1752, 0x1753); (0x1772, 0x1773); (0x17B4, 0x17B5)
  ; (0x17B7, 0x17BD); (0x17C6, 0x17C6); (0x17C9, 0x17D3); (0x17D7, 0x17D7); (0x17DD, 0x17DD)
  ; (0x180B, 0x180F); (0x1843, 0x1843); (0x1885, 0x1886); (0x18A9, 0x18A9); (0x1920, 0x1922)
  ; (0x1927, 0x1928); (0x1932, 0x1932); (0x1939, 0x193B); (0x1A17, 0x1A18); (0x1A1B, 0x1A1B)
  ; (0x1A56, 0x1A56); (0x1A58, 0x1A5E); (0x1A60, 0x1A60); (0x1A62, 0x1A62); (0x1A65, 0x1A6C)
  ; (0x1A73, 0x1A7C); (0x1A7F, 0x1A7F); (0x1AA7, 0x1AA7); (0x1AB0, 0x1ACE); (0x1B00, 0x1B03)
  ; (0x1B34, 0x1B34); (0x1B36, 0x1B3A); (0x1B3C, 0x1B3C); (0x1B42, 0x1B42); (0x1B6B, 0x1B73)
  ; (0x1B80, 0x1B81); (0x1BA2, 0x1BA5); (0x1BA8, 0x1BA9); (0x1BAB, 0x1BAD); (0x1BE6, 0x1BE6)
  ; (0x1BE8, 0x1BE9); (0x1BED, 0x1BED); (0x1BEF, 0x1BF1); (0x1C2C, 0x1C33); (0x1C36, 0x1C37)
  ; (0x1C78, 0x1C7D); (0x1CD0, 0x1CD2); (0x1CD4, 0x1CE0); (0x1CE2, 0x1CE8); (0x1CED, 0x1CED)
  ; (0x1CF4, 0x1CF4); (0x1CF8, 0x1CF9); (0x1D2C, 0x1D6A); (0x1D78, 0x1D78); (0x1D9B, 0x1DFF)
  ; (0x1FBD, 0x1FBD); (0x1FBF, 0x1FC1); (0x1FCD, 0x1FCF); (0x1FDD, 0x1FDF); (0x1FED, 0x1FEF)
  ; (0x1FFD, 0x1FFE); (0x200B, 0x200F); (0x2018, 0x2019); (0x2024, 0x2024); (0x2027, 0x2027)
  ; (0x202A, 0x202E); (0x2060, 0x2064); (0x2066, 0x206F); (0x2071, 0x2071); (0x207F, 0x207F)
  ; (0x2090, 0x209C); (0x20D0, 0x20F0); (0x2C7C, 0x2C7D); (0x2CEF, 0x2CF1); (0x2D6F, 0x2D6F)
  ; (0x2D7F, 0x2D7F); (0x2DE0, 0x2DFF); (0x2E2F, 0x2E2F); (0x3005, 0x3005); (0x302A, 0x302D)
  ; (0x3031, 0x3035); (0x303B, 0x303B); (0x3099, 0x309E); (0x30FC, 0x30FE); (0xA015, 0xA015)
  ; (0xA4F8, 0xA4FD); (0xA60C, 0xA60C); (0xA66F, 0xA672); (0xA674, 0xA67D); (0xA67F, 0xA67F)
  ; (0xA69C, 0xA69F); (0xA6F0, 0xA6F1); (0xA700, 0xA721); (0xA770, 0xA770); (0xA788, 0xA78A)
  ; (0xA7F2, 0xA7F4); (0xA7F8, 0xA7F9); (0xA802, 0xA802); (0xA806, 0xA806); (0xA80B, 0xA80B)
  ; (0xA825, 0xA826); (0xA82C, 0xA82C); (0xA8C4, 0xA8C5); (0xA8E0, 0xA8F1); (0xA8FF, 0xA8FF)
  ; (0xA926, 0xA92D); (0xA947, 0xA951); (0xA980, 0xA982); (0xA9B3, 0xA9B3); (0xA9B6, 0xA9B9)
  ; (0xA9BC, 0xA9BD); (0xA9CF, 0xA9CF); (0xA9E5, 0xA9E6); (0xAA29, 0xAA2E); (0xAA31, 0xAA32)
  ; (0xAA35, 0xAA36); (0xAA43, 0xAA43); (0xAA4C, 0xAA4C); (0xAA70, 0xAA70); (0xAA7C, 0xAA7C)
  ; (0xAAB0, 0xAAB0); (0xAAB2, 0xAAB4); (0xAAB7, 0xAAB8); (0xAABE, 0xAABF); (0xAAC1, 0xAAC1)
  ; (0xAADD, 0xAADD); (0xAAEC, 0xAAED); (0xAAF3, 0xAAF4); (0xAAF6, 0xAAF6); (0xAB5B, 0xAB5F)
  ; (0xAB69, 0xAB6B); (0xABE5, 0xABE5); (0xABE8, 0xABE8); (0xABED, 0xABED); (0xFB1E, 0xFB1E)
  ; (0xFBB2, 0xFBC2); (0xFE00, 0xFE0F); (0xFE13, 0xFE13); (0xFE20, 0xFE2F); (0xFE52, 0xFE52)
  ; (0xFE55, 0xFE55); (0xFEFF, 0xFEFF); (0xFF07, 0xFF07); (0xFF0E, 0xFF0E); (0xFF1A, 0xFF1A)
  ; (0xFF3E, 0xFF3E); (0xFF40, 0xFF40); (0xFF70, 0xFF70); (0xFF9E, 0xFF9F); (0xFFE3, 0xFFE3)
  ; (0xFFF9, 0xFFFB); (0x101FD, 0x101FD); (0x102E0, 0x102E0); (0x10376, 0x1037A)
  ; (0x10780, 0x10785); (0x10787, 0x107B0); (0x107B2, 0x107BA); (0x10A01, 0x10A03)
  ; (0x10A05, 0x10A06); (0x10A0C, 0x10A0F); (0x10A38, 0x10A3A); (0x10A3F, 0x10A3F)
  ; (0x10AE5, 0x10AE6); (0x10D24, 0x10D27); (0x10EAB, 0x10EAC); (0x10F46, 0x10F50)
  ; (0x10F82, 0x10F85); (0x11001, 0x11001); (0x11038, 0x11046); (0x11070, 0x11070)
  ; (0x11073, 0x11074); (0x1107F, 0x11081); (0x110B3, 0x110B6); (0x110B9, 0x110BA)
  ; (0x110BD, 0x110BD); (0x110C2, 0x110C2); (0x110CD, 0x110CD); (0x11100, 0x11102)
  ; (0x11127, 0x1112B); (0x1112D, 0x11134); (0x11173, 0x11173); (0x11180, 0x11181)
  ; (0x111B6, 0x111BE); (0x111C9, 0x111CC); (0x111CF, 0x111CF); (0x1122F, 0x11231)
  ; (0x11234, 0x11234); (0x11236, 0x11237); (0x1123E, 0x1123E); (0x112DF, 0x112DF)
  ; (0x112E3, 0x112EA); (0x11300, 0x11301); (0x1133B, 0x1133C); (0x11340, 0x11340)
  ; (0x11366, 0x1136C); (0x11370, 0x11374); (0x11438, 0x1143F); (0x11442, 0x11444)
  ; (0x11446, 0x11446); (0x1145E, 0x1145E); (0x114B3, 0x114B8); (0x114BA, 0x114BA)
  ; (0x114BF, 0x114C0); (0x114C2, 0x114C3); (0x115B2, 0x115B5); (0x115BC, 0x115BD)
  ; (0x115BF, 0x115C0); (0x115DC, 0x115DD); (0x11633, 0x1163A); (0x1163D, 0x1163D)
  ; (0x1163F, 0x11640); (0x116AB, 0x116AB); (0x116AD, 0x116AD); (0x116B0, 0x116B5)
  ; (0x116B7, 0x116B7); (0x1171D, 0x1171F); (0x11722, 0x11725); (0x11727, 0x1172B)
  ; (0x1182F, 0x11837); (0x11839, 0x1183A); (0x1193B, 0x1193C); (0x1193E, 0x1193E)
  ; (0x11943, 0x11943); (0x119D4, 0x119D7); (0x119DA, 0x119DB); (0x119E0, 0x119E0)
  ; (0x11A01, 0x11A0A); (0x11A33, 0x11A38); (0x11A3B, 0x11A3E); (0x11A47, 0x11A47)
  ; (0x11A51, 0x11A56); (0x11A59, 0x11A5B); (0x11A8A, 0x11A96); (0x11A98, 0x11A99)
  ; (0x11C30, 0x11C36); (0x11C38, 0x11C3D); (0x11C3F, 0x11C3F); (0x11C92, 0x11CA7)
  ; (0x11CAA, 0x11CB0); (0x11CB2, 0x11CB3); (0x11CB5, 0x11CB6); (0x11D31, 0x11D36)
  ; (0x11D3A, 0x11D3A); (0x11D3C, 0x11D3D); (0x11D3F, 0x11D45); (0x11D47, 0x11D47)
  ; (0x11D90, 0x11D91); (0x11D95, 0x11D95); (0x11D97, 0x11D97); (0x11EF3, 0x11EF4)
  ; (0x13430, 0x13438); (0x16AF0, 0x16AF4); (0x16B30, 0x16B36); (0x16B40, 0x16B43)
  ; (0x16F4F, 0x16F4F); (0x16F8F, 0x16F9F); (0x16FE0, 0x16FE1); (0x16FE3, 0x16FE4)
  ; (0x1AFF0, 0x1AFF3); (0x1AFF5, 0x1AFFB); (0x1AFFD, 0x1AFFE); (0x1BC9D, 0x1BC9E)
  ; (0x1BCA0, 0x1BCA3); (0x1CF00, 0x1CF2D); (0x1CF30, 0x1CF46); (0x1D167, 0x1D169)
  ; (0x1D173, 0x1D182); (0x1D185, 0x1D18B); (0x1D1AA, 0x1D1AD); (0x1D242, 0x1D244)
  ; (0x1DA00, 0x1DA36); (0x1DA3B, 0x1DA6C); (0x1DA75, 0x1DA75); (0x1DA84, 0x1DA84)
  ; (0x1DA9B, 0x1DA9F); (0x1DAA1, 0x1DAAF); (0x1E000, 0x1E006); (0x1E008, 0x1E018)
  ; (0x1E01B, 0x1E021); (0x1E023, 0x1E024); (0x1E026, 0x1E02A); (0x1E130, 0x1E13D)
  ; (0x1E2AE, 0x1E2AE); (0x1E2EC, 0x1E2EF); (0x1E8D0, 0x1E8D6); (0x1E944, 0x1E94B)
  ; (0x1F3FB, 0x1F3FF); (0xE0001, 0xE0001); (0xE0020, 0xE007F); (0xE0100, 0xE01EF) ].

Definition title_runs : list (N * N * N * N) :=
  [ (0x61, 0x7A, 1, 0x41); (0xB5, 0xB5, 1, 0x39C); (0xE0, 0xF6, 1, 0xC0); (0xF8, 0xFE, 1, 0xD8)
  ; (0xFF, 0xFF, 1, 0x178); (0x101, 0x12F, 2, 0x100); (0x131, 0x131, 1, 0x49)
  ; (0x133, 0x137, 2, 0x132); (0x13A, 0x148, 2, 0x139); (0x14B, 0x177, 2, 0x14A)
  ; (0x17A, 0x17E, 2, 0x179); (0x17F, 0x17F, 1, 0x53); (0x180, 0x180, 1, 0x243)
  ; (0x183, 0x185, 2, 0x182); (0x188, 0x188, 1, 0x187); (0x18C, 0x18C, 1, 0x18B)
  ; (0x192, 0x192, 1, 0x191); (0x195, 0x195, 1, 0x1F6); (0x199, 0x199, 1, 0x198)
  ; (0x19A, 0x19A, 1, 0x23D); (0x19E, 0x19E, 1, 0x220); (0x1A1, 0x1A5, 2, 0x1A0)
  ; (0x1A8, 0x1A8, 1, 0x1A7); (0x1AD, 0x1AD, 1, 0x1AC); (0x1B0, 0x1B0, 1, 0x1AF)
  ; (0x1B4, 0x1B6, 2, 0x1B3); (0x1B9, 0x1B9, 1, 0x1B8); (0x1BD, 0x1BD, 1, 0x1BC)
  ; (0x1BF, 0x1BF, 1, 0x1F7); (0x1C4, 0x1C4, 1, 0x1C5); (0x1C6, 0x1C6, 1, 0x1C5)
  ; (0x1C7, 0x1C7, 1, 0x1C8); (0x1C9, 0x1C9, 1, 0x1C8); (0x1CA, 0x1CA, 1, 0x1CB)
  ; (0x1CC, 0x1DC, 2, 0x1CB); (0x1DD, 0x1DD, 1, 0x18E); (0x1DF, 0x1EF, 2, 0x1DE)
  ; (0x1F1, 0x1F1, 1, 0x1F2); (0x1F3, 0x1F5, 2, 0x1F2); (0x1F9, 0x21F, 2, 0x1F8)
  ; (0x223, 0x233, 2, 0x222); (0x23C, 0x23C, 1, 0x23B); (0x23F, 0x240, 1, 0x2C7E)
  ; (0x242, 0x242, 1, 0x241); (0x247, 0x24F, 2, 0x246); (0x250, 0x250, 1, 0x2C6F)
  ; (0x251, 0x251, 1, 0x2C6D); (0x252, 0x252, 1, 0x2C70); (0x253, 0x253, 1, 0x181)
  ; (0x254, 0x254, 1, 0x186); (0x256, 0x257, 1, 0x189); (0x259, 0x259, 1, 0x18F)
  ; (0x25B, 0x25B, 1, 0x190); (0x25C, 0x25C, 1, 0xA7AB); (0x260, 0x260, 1, 0x193)
  ; (0x261, 0x261, 1, 0xA7AC); (0x263, 0x263, 1, 0x194); (0x265, 0x265, 1, 0xA78D)
  ; (0x266, 0x266, 1, 0xA7AA); (0x268, 0x268, 1, 0x197); (0x269, 0x269, 1, 0x196)
  ; (0x26A, 0x26A, 1, 0xA7AE); (0x26B, 0x26B, 1, 0x2C62); (0x26C, 0x26C, 1, 0xA7AD)
  ; (0x26F, 0x26F, 1, 0x19C); (0x271, 0x271, 1, 0x2C6E); (0x272, 0x272, 1, 0x19D)
  ; (0x275, 0x275, 1, 0x19F); (0x27D, 0x27D, 1, 0x2C64); (0x280, 0x280, 1, 0x1A6)
  ; (0x282, 0x282, 1, 0xA7C5); (0x283, 0x283, 1, 0x1A9); (0x287, 0x287, 1, 0xA7B1)
  ; (0x288, 0x288, 1, 0x1AE); (0x289, 0x289, 1, 0x244); (0x28A, 0x28B, 1, 0x1B1)
  ; (0x28C, 0x28C, 1, 0x245); (0x292, 0x292, 1, 0x1B7); (0x29D, 0x29D, 1, 0xA7B2)
  ; (0x29E, 0x29E, 1, 0xA7B0); (0x345, 0x345, 1, 0x399); (0x371, 0x373, 2, 0x370)
  ; (0x377, 0x377, 1, 0x376); (0x37B, 0x37D, 1, 0x3FD); (0x3AC, 0x3AC, 1, 0x386)
  ; (0x3AD, 0x3AF, 1, 0x388); (0x3B1, 0x3C1, 1, 0x391); (0x3C2, 0x3C2, 1, 0x3A3)
  ; (0x3C3, 0x3CB, 1, 0x3A3); (0x3CC, 0x3CC, 1, 0x38C); (0x3CD, 0x3CE, 1, 0x38E)
  ; (0x3D0, 0x3D0, 1, 0x392); (0x3D1, 0x3D1, 1, 0x398); (0x3D5, 0x3D5, 1, 0x3A6)
  ; (0x3D6, 0x3D6, 1, 0x3A0); (0x3D7, 0x3D7, 1, 0x3CF); (0x3D9, 0x3EF, 2, 0x3D8)
  ; (0x3F0, 0x3F0, 1, 0x39A); (0x3F1, 0x3F1, 1, 0x3A1); (0x3F2, 0x3F2, 1, 0x3F9)
  ; (0x3F3, 0x3F3, 1, 0x37F); (0x3F5, 0x3F5, 1, 0x395); (0x3F8, 0x3F8, 1, 0x3F7)
  ; (0x3FB, 0x3FB, 1, 0x3FA); (0x430, 0x44F, 1, 0x410); (0x450, 0x45F, 1, 0x400)
  ; (0x461, 0x481, 2, 0x460); (0x48B, 0x4BF, 2, 0x48A); (0x4C2, 0x4CE, 2, 0x4C1)
  ; (0x4CF, 0x4CF, 1, 0x4C0); (0x4D1, 0x52F, 2, 0x4D0); (0x561, 0x586, 1, 0x531)
  ; (0x13F8, 0x13FD, 1, 0x13F0); (0x1C80, 0x1C80, 1, 0x412); (0x1C81, 0x1C81, 1, 0x414)
  ; (0x1C82, 0x1C82, 1, 0x41E); (0x1C83, 0x1C84, 1, 0x421); (0x1C85, 0x1C85, 1, 0x422)
  ; (0x1C86, 0x1C86, 1, 0x42A); (0x1C87, 0x1C87, 1, 0x462); (0x1C88, 0x1C88, 1, 0xA64A)
  ; (0x1D79, 0x1D79, 1, 0xA77D); (0x1D7D, 0x1D7D, 1, 0x2C63); (0x1D8E, 0x1D8E, 1, 0xA7C6)
  ; (0x1E01, 0x1E95, 2, 0x1E00); (0x1E9B, 0x1E9B, 1, 0x1E60); (0x1EA1, 0x1EFF, 2, 0x1EA0)
  ; (0x1F00, 0x1F07, 1, 0x1F08); (0x1F10, 0x1F15, 1, 0x1F18); (0x1F20, 0x1F27, 1, 0x1F28)
  ; (0x1F30, 0x1F37, 1, 0x1F38); (0x1F40, 0x1F45, 1, 0x1F48); (0x1F51, 0x1F57, 2, 0x1F59)
  ; (0x1F60, 0x1F67, 1, 0x1F68); (0x1F70, 0x1F71, 1, 0x1FBA); (0x1F72, 0x1F75, 1, 0x1FC8)
  ; (0x1F76, 0x1F77, 1, 0x1FDA); (0x1F78, 0x1F79, 1, 0x1FF8); (0x1F7A, 0x1F7B, 1, 0x1FEA)
  ; (0x1F7C, 0x1F7D, 1, 0x1FFA); (0x1F80, 0x1F87, 1, 0x1F88); (0x1F90, 0x1F97, 1, 0x1F98)
  ; (0x1FA0, 0x1FA7, 1, 0x1FA8); (0x1FB0, 0x1FB1, 1, 0x1FB8); (0x1FB3, 0x1FB3, 1, 0x1FBC)
  ; (0x1FBE, 0x1FBE, 1, 0x399); (0x1FC3, 0x1FC3, 1, 0x1FCC); (0x1FD0, 0x1FD1, 1, 0x1FD8)
  ; (0x1FE0, 0x1FE1, 1, 0x1FE8); (0x1FE5, 0x1FE5, 1, 0x1FEC); (0x1FF3, 0x1FF3, 1, 0x1FFC)
  ; (0x214E, 0x214E, 1, 0x2132); (0x2170, 0x217F, 1, 0x2160); (0x2184, 0x2184, 1, 0x2183)
  ; (0x24D0, 0x24E9, 1, 0x24B6); (0x2C30, 0x2C5F, 1, 0x2C00); (0x2C61, 0x2C61, 1, 0x2C60)
  ; (0x2C65, 0x2C65, 1, 0x23A); (0x2C66, 0x2C66, 1, 0x23E); (0x2C68, 0x2C6C, 2, 0x2C67)
  ; (0x2C73, 0x2C73, 1, 0x2C72); (0x2C76, 0x2C76, 1, 0x2C75); (0x2C81, 0x2CE3, 2, 0x2C80)
  ; (0x2CEC, 0x2CEE, 2, 0x2CEB); (0x2CF3, 0x2CF3, 1, 0x2CF2); (0x2D00, 0x2D25, 1, 0x10A0)
  ; (0x2D27, 0x2D27, 1, 0x10C7); (0x2D2D, 0x2D2D, 1, 0x10CD); (0xA641, 0xA66D, 2, 0xA640)
  ; (0xA681, 0xA69B, 2, 0xA680); (0xA723, 0xA72F, 2, 0xA722); (0xA733, 0xA76F, 2, 0xA732)
  ; (0xA77A, 0xA77C, 2, 0xA779); (0xA77F, 0xA787, 2, 0xA77E); (0xA78C, 0xA78C, 1, 0xA78B)
  ; (0xA791, 0xA793, 2, 0xA790); (0xA794, 0xA794, 1, 0xA7C4); (0xA797, 0xA7A9, 2, 0xA796)
  ; (0xA7B5, 0xA7C3, 2, 0xA7B4); (0xA7C8, 0xA7CA, 2, 0xA7C7); (0xA7D1, 0xA7D1, 1, 0xA7D0)
  ; (0xA7D7, 0xA7D9, 2, 0xA7D6); (0xA7F6, 0xA7F6, 1, 0xA7F5); (0xAB53, 0xAB53, 1, 0xA7B3)
  ; (0xAB70, 0xABBF, 1, 0x13A0); (0xFF41, 0xFF5A, 1, 0xFF21); (0x10428, 0x1044F, 1, 0x10400)
  ; (0x104D8, 0x104FB, 1, 0x104B0); (0x10597, 0x105A1, 1, 0x10570)
  ; (0x105A3, 0x105B1, 1, 0x1057C); (0x105B3, 0x105B9, 1, 0x1058C)
  ; (0x105BB, 0x105BC, 1, 0x10594); (0x10CC0, 0x10CF2, 1, 0x10C80)
  ; (0x118C0, 0x118DF, 1, 0x118A0); (0x16E60, 0x16E7F, 1, 0x16E40)
  ; (0x1E922, 0x1E943, 1, 0x1E900) ].

Definition title_special : list (N * list N) :=
  [ (0xDF, [0x53; 0x73]); (0x149, [0x2BC; 0x4E]); (0x1F0, [0x4A; 0x30C])
  ; (0x390, [0x399; 0x308; 0x301]); (0x3B0, [0x3A5; 0x308; 0x301]); (0x587, [0x535; 0x582])
  ; (0x1E96, [0x48; 0x331]); (0x1E97, [0x54; 0x308]); (0x1E98, [0x57; 0x30A])
  ; (0x1E99, [0x59; 0x30A]); (0x1E9A, [0x41; 0x2BE]); (0x1F50, [0x3A5; 0x313])
  ; (0x1F52, [0x3A5; 0x313; 0x300]); (0x1F54, [0x3A5; 0x313; 0x301])
  ; (0x1F56, [0x3A5; 0x313; 0x342]); (0x1FB2, [0x1FBA; 0x345]); (0x1FB4, [0x386; 0x345])
  ; (0x1FB6, [0x391; 0x342]); (0x1FB7, [0x391; 0x342; 0x345]); (0x1FC2, [0x1FCA; 0x345])
  ; (0x1FC4, [0x389; 0x345]); (0x1FC6, [0x397; 0x342]); (0x1FC7, [0x397; 0x342; 0x345])
  ; (0x1FD2, [0x399; 0x308; 0x300]); (0x1FD3, [0x399; 0x308; 0x301]); (0x1FD6, [0x399; 0x342])
  ; (0x1FD7, [0x399; 0x308; 0x342]); (0x1FE2, [0x3A5; 0x308; 0x300])
  ; (0x1FE3, [0x3A5; 0x308; 0x301]); (0x1FE4, [0x3A1; 0x313]); (0x1FE6, [0x3A5; 0x342])
  ; (0x1FE7, [0x3A5; 0x308; 0x342]); (0x1FF2, [0x1FFA; 0x345]); (0x1FF4, [0x38F; 0x345])
  ; (0x1FF6, [0x3A9; 0x342]); (0x1FF7, [0x3A9; 0x342; 0x345]); (0xFB00, [0x46; 0x66])
  ; (0xFB01, [0x46; 0x69]); (0xFB02, [0x46; 0x6C]); (0xFB03, [0x46; 0x66; 0x69])
  ; (0xFB04, [0x46; 0x66; 0x6C]); (0xFB05, [0x53; 0x74]); (0xFB06, [0x53; 0x74])
  ; (0xFB13, [0x544; 0x576]); (0xFB14, [0x544; 0x565]); (0xFB15, [0x544; 0x56B])
  ; (0xFB16, [0x54E; 0x576]); (0xFB17, [0x544; 0x56D]) ].

Definition lower_runs : list (N * N * N * N) :=
  [ (0x41, 0x5A, 1, 0x61); (0xC0, 0xD6, 1, 0xE0); (0xD8, 0xDE, 1, 0xF8)
  ; (0x100, 0x12E, 2, 0x101); (0x132, 0x136, 2, 0x133); (0x139, 0x147, 2, 0x13A)
  ; (0x14A, 0x176, 2, 0x14B); (0x178, 0x178, 1, 0xFF); (0x179, 0x17D, 2, 0x17A)
  ; (0x181, 0x181, 1, 0x253); (0x182, 0x184, 2, 0x183); (0x186, 0x186, 1, 0x254)
  ; (0x187, 0x187, 1, 0x188); (0x189, 0x18A, 1, 0x256); (0x18B, 0x18B, 1, 0x18C)
  ; (0x18E, 0x18E, 1, 0x1DD); (0x18F, 0x18F, 1, 0x259); (0x190, 0x190, 1, 0x25B)
  ; (0x191, 0x191, 1, 0x192); (0x193, 0x193, 1, 0x260); (0x194, 0x194, 1, 0x263)
  ; (0x196, 0x196, 1, 0x269); (0x197, 0x197, 1, 0x268); (0x198, 0x198, 1, 0x199)
  ; (0x19C, 0x19C, 1, 0x26F); (0x19D, 0x19D, 1, 0x272); (0x19F, 0x19F, 1, 0x275)
  ; (0x1A0, 0x1A4, 2, 0x1A1); (0x1A6, 0x1A6, 1, 0x280); (0x1A7, 0x1A7, 1, 0x1A8)
  ; (0x1A9, 0x1A9, 1, 0x283); (0x1AC, 0x1AC, 1, 0x1AD); (0x1AE, 0x1AE, 1, 0x288)
  ; (0x1AF, 0x1AF, 1, 0x1B0); (0x1B1, 0x1B2, 1, 0x28A); (0x1B3, 0x1B5, 2, 0x1B4)
  ; (0x1B7, 0x1B7, 1, 0x292); (0x1B8, 0x1B8, 1, 0x1B9); (0x1BC, 0x1BC, 1, 0x1BD)
  ; (0x1C4, 0x1C4, 1, 0x1C6); (0x1C5, 0x1C5, 1, 0x1C6); (0x1C7, 0x1C7, 1, 0x1C9)
  ; (0x1C8, 0x1C8, 1, 0x1C9); (0x1CA, 0x1CA, 1, 0x1CC); (0x1CB, 0x1DB, 2, 0x1CC)
  ; (0x1DE, 0x1EE, 2, 0x1DF); (0x1F1, 0x1F1, 1, 0x1F3); (0x1F2, 0x1F4, 2, 0x1F3)
  ; (0x1F6, 0x1F6, 1, 0x195); (0x1F7, 0x1F7, 1, 0x1BF); (0x1F8, 0x21E, 2, 0x1F9)
  ; (0x220, 0x220, 1, 0x19E); (0x222, 0x232, 2, 0x223); (0x23A, 0x23A, 1, 0x2C65)
  ; (0x23B, 0x23B, 1, 0x23C); (0x23D, 0x23D, 1, 0x19A); (0x23E, 0x23E, 1, 0x2C66)
  ; (0x241, 0x241, 1, 0x242); (0x243, 0x243, 1, 0x180); (0x244, 0x244, 1, 0x289)
  ; (0x245, 0x245, 1, 0x28C); (0x246, 0x24E, 2, 0x247); (0x370, 0x372, 2, 0x371)
  ; (0x376, 0x376, 1, 0x377); (0x37F, 0x37F, 1, 0x3F3); (0x386, 0x386, 1, 0x3AC)
  ; (0x388, 0x38A, 1, 0x3AD); (0x38C, 0x38C, 1, 0x3CC); (0x38E, 0x38F, 1, 0x3CD)
  ; (0x391, 0x3A1, 1, 0x3B1); (0x3A3, 0x3AB, 1, 0x3C3); (0x3CF, 0x3CF, 1, 0x3D7)
  ; (0x3D8, 0x3EE, 2, 0x3D9); (0x3F4, 0x3F4, 1, 0x3B8); (0x3F7, 0x3F7, 1, 0x3F8)
  ; (0x3F9, 0x3F9, 1, 0x3F2); (0x3FA, 0x3FA, 1, 0x3FB); (0x3FD, 0x3FF, 1, 0x37B)
  ; (0x400, 0x40F, 1, 0x450); (0x410, 0x42F, 1, 0x430); (0x460, 0x480, 2, 0x461)
  ; (0x48A, 0x4BE, 2, 0x48B); (0x4C0, 0x4C0, 1, 0x4CF); (0x4C1, 0x4CD, 2, 0x4C2)
  ; (0x4D0, 0x52E, 2, 0x4D1); (0x531, 0x556, 1, 0x561); (0x10A0, 0x10C5, 1, 0x2D00)
  ; (0x10C7, 0x10C7, 1, 0x2D27); (0x10CD, 0x10CD, 1, 0x2D2D); (0x13A0, 0x13EF, 1, 0xAB70)
  ; (0x13F0, 0x13F5, 1, 0x13F8); (0x1C90, 0x1CBA, 1, 0x10D0); (0x1CBD, 0x1CBF, 1, 0x10FD)
  ; (0x1E00, 0x1E94, 2, 0x1E01); (0x1E9E, 0x1E9E, 1, 0xDF); (0x1EA0, 0x1EFE, 2, 0x1EA1)
  ; (0x1F08, 0x1F0F, 1, 0x1F00); (0x1F18, 0x1F1D, 1, 0x1F10); (0x1F28, 0x1F2F, 1, 0x1F20)
  ; (0x1F38, 0x1F3F, 1, 0x1F30); (0x1F48, 0x1F4D, 1, 0x1F40); (0x1F59, 0x1F5F, 2, 0x1F51)
  ; (0x1F68, 0x1F6F, 1, 0x1F60); (0x1F88, 0x1F8F, 1, 0x1F80); (0x1F98, 0x1F9F, 1, 0x1F90)
  ; (0x1FA8, 0x1FAF, 1, 0x1FA0); (0x1FB8, 0x1FB9, 1, 0x1FB0); (0x1FBA, 0x1FBB, 1, 0x1F70)
  ; (0x1FBC, 0x1FBC, 1, 0x1FB3); (0x1FC8, 0x1FCB, 1, 0x1F72); (0x1FCC, 0x1FCC, 1, 0x1FC3)
  ; (0x1FD8, 0x1FD9, 1, 0x1FD0); (0x1FDA, 0x1FDB, 1, 0x1F76); (0x1FE8, 0x1FE9, 1, 0x1FE0)
  ; (0x1FEA, 0x1FEB, 1, 0x1F7A); (0x1FEC, 0x1FEC, 1, 0x1FE5); (0x1FF8, 0x1FF9, 1, 0x1F78)
  ; (0x1FFA, 0x1FFB, 1, 0x1F7C); (0x1FFC, 0x1FFC, 1, 0x1FF3); (0x2126, 0x2126, 1, 0x3C9)
  ; (0x212A, 0x212A, 1, 0x6B); (0x212B, 0x212B, 1, 0xE5); (0x2132, 0x2132, 1, 0x214E)
  ; (0x2160, 0x216F, 1, 0x2170); (0x2183, 0x2183, 1, 0x2184); (0x24B6, 0x24CF, 1, 0x24D0)
  ; (0x2C00, 0x2C2F, 1, 0x2C30); (0x2C60, 0x2C60, 1, 0x2C61); (0x2C62, 0x2C62, 1, 0x26B)
  ; (0x2C63, 0x2C63, 1, 0x1D7D); (0x2C64, 0x2C64, 1, 0x27D); (0x2C67, 0x2C6B, 2, 0x2C68)
  ; (0x2C6D, 0x2C6D, 1, 0x251); (0x2C6E, 0x2C6E, 1, 0x271); (0x2C6F, 0x2C6F, 1, 0x250)
  ; (0x2C70, 0x2C70, 1, 0x252); (0x2C72, 0x2C72, 1, 0x2C73); (0x2C75, 0x2C75, 1, 0x2C76)
  ; (0x2C7E, 0x2C7F, 1, 0x23F); (0x2C80, 0x2CE2, 2, 0x2C81); (0x2CEB, 0x2CED, 2, 0x2CEC)
  ; (0x2CF2, 0x2CF2, 1, 0x2CF3); (0xA640, 0xA66C, 2, 0xA641); (0xA680, 0xA69A, 2, 0xA681)
  ; (0xA722, 0xA72E, 2, 0xA723); (0xA732, 0xA76E, 2, 0xA733); (0xA779, 0xA77B, 2, 0xA77A)
  ; (0xA77D, 0xA77D, 1, 0x1D79); (0xA77E, 0xA786, 2, 0xA77F); (0xA78B, 0xA78B, 1, 0xA78C)
  ; (0xA78D, 0xA78D, 1, 0x265); (0xA790, 0xA792, 2, 0xA791); (0xA796, 0xA7A8, 2, 0xA797)
  ; (0xA7AA, 0xA7AA, 1, 0x266); (0xA7AB, 0xA7AB, 1, 0x25C); (0xA7AC, 0xA7AC, 1, 0x261)
  ; (0xA7AD, 0xA7AD, 1, 0x26C); (0xA7AE, 0xA7AE, 1, 0x26A); (0xA7B0, 0xA7B0, 1, 0x29E)
  ; (0xA7B1, 0xA7B1, 1, 0x287); (0xA7B2, 0xA7B2, 1, 0x29D); (0xA7B3, 0xA7B3, 1, 0xAB53)
  ; (0xA7B4, 0xA7C2, 2, 0xA7B5); (0xA7C4, 0xA7C4, 1, 0xA794); (0xA7C5, 0xA7C5, 1, 0x282)
  ; (0xA7C6, 0xA7C6, 1, 0x1D8E); (0xA7C7, 0xA7C9, 2, 0xA7C8); (0xA7D0, 0xA7D0, 1, 0xA7D1)
  ; (0xA7D6, 0xA7D8, 2, 0xA7D7); (0xA7F5, 0xA7F5, 1, 0xA7F6); (0xFF21, 0xFF3A, 1, 0xFF41)
  ; (0x10400, 0x10427, 1, 0x10428); (0x104B0, 0x104D3, 1, 0x104D8)
  ; (0x10570, 0x1057A, 1, 0x10597); (0x1057C, 0x1058A, 1, 0x105A3)
  ; (0x1058C, 0x10592, 1, 0x105B3); (0x10594, 0x10595, 1, 0x105BB)
  ; (0x10C80, 0x10CB2, 1, 0x10CC0); (0x118A0, 0x118BF, 1, 0x118C0)
  ; (0x16E40, 0x16E5F, 1, 0x16E60); (0x1E900, 0x1E921, 1, 0x1E922) ].

Definition lower_special : list (N * list N) :=
  [ (0x130, [0x69; 0x307]) ].

(** [_PyUnicode_IsCased] *)
Definition is_cased (c : N) : bool := in_ranges cased_ranges c.

(** [_PyUnicode_IsCaseIgnorable] *)
Definition is_case_ignorable (c : N) : bool := in_ranges case_ignorable_ranges c.

(** [_PyUnicode_ToTitleFull] *)
Definition to_title_full (c : N) : list N := full_mapping title_runs title_special c.

(** [_PyUnicode_ToLowerFull] *)
Definition to_lower_full (c : N) : list N := full_mapping lower_runs lower_special c.

Fixpoint skip_case_ignorable (s : list N) : list N :=
  match s with
  | [] => []
  | c :: r => if is_case_ignorable c then skip_case_ignorable r else s
  end.

(** [handle_capital_sigma]: a capital sigma is lowered to the final sigma
    after a cased character and before none, characters that are
    case-ignorable left aside.  [before] are the characters before it,
    the nearest first, [after] those after it. *)
Definition final_sigma (before after : list N) : bool :=
  match skip_case_ignorable before with
  | c :: _ => is_cased c
  | [] => false
  end
  && match skip_case_ignorable after with
     | c :: _ => negb (is_cased c)
     | [] => true
     end.

Definition handle_capital_sigma (before after : list N) : N :=
  if final_sigma before after then 0x3C2 else 0x3C3.

(** [lower_ucs4] *)
Definition lower_ucs4 (before : list N) (c : N) (after : list N) : list N :=
  if c =? 0x3A3 then [handle_capital_sigma before after] else to_lower_full c.

End Unicode.

(** What title-casing reads of a character: whether it is cased, its
    title-case form, and its lower-case form between the characters
    before it (the nearest first) and after it. *)
Record CaseTables := mkCaseTables {
  db_is_cased : N -> bool;
  db_to_title : N -> list N;
  db_to_lower : pystr -> N -> pystr -> list N
}.

Definition cpython : CaseTables :=
  mkCaseTables Unicode.is_cased Unicode.to_title_full Unicode.lower_ucs4.

(** The body of the loop of [do_title]: what is written for the character
    [c]. *)
Definition title_step (db : CaseTables) (before : pystr) (previous_is_cased : bool)
    (c : N) (after : pystr) : pystr :=
  if previous_is_cased then db_to_lower db before c after else db_to_title db c.

(** [str.title]: a character after a cased one is lowered, any other is
    title-cased. *)
Fixpoint do_title (db : CaseTables) (before : pystr) (previous_is_cased : bool)
    (s : pystr) : pystr :=
  match s with
  | [] => []
  | c :: r =>
      title_step db before previous_is_cased c r
      ++ do_title db (c :: before) (db_is_cased db c) r
  end.

Definition title (db : CaseTables) (s : pystr) : pystr := do_title db [] false s.

Fixpoint lstrip (s : pystr) : pystr :=
  match s with
  | [] => []
  | c :: r => if Unicode.is_space c then lstrip r else s
  end.

Definition rstrip (s : pystr) : pystr := reverse (lstrip (reverse s)).

(** [str.strip()] *)
Definition strip (s : pystr) : pystr := rstrip (lstrip s).

(** Line 173: [.str.title().str.strip()] *)
Definition normalize (db : CaseTables) (r : pystr) : pystr := strip (title db r).

(** "TÜRKİYE", with U+00DC and U+0130. *)
Definition TURKIYE : pystr := [84; 0xDC; 82; 75; 0x130; 89; 69]%N.

Definition is_ascii_str (s : pystr) : Prop :=
  Forall (fun c => Unicode.is_ascii c = true) s.

(** What [str.title] makes of an ASCII character after a cased one
    ([true]) and elsewhere ([false]). *)
Definition ascii_case (previous_is_cased : bool) (c : N) : N :=
  if previous_is_cased
  then (if Unicode.is_ascii_upper c then c + 32 else c)%N
  else (if Unicode.is_ascii_lower c then c - 32 else c)%N.

Definition pystr_leb (a b : pystr) : bool :=
  match pystr_compare a b with Gt => false | _ => true end.

(** Lines 172-177: counts per normalised region with their bins. *)
Record RegionBin := mkRB { rb_region : pystr; rb_count : nat; rb_count_bin : option string }.

Definition df_regions (db : CaseTables) (dff : DataFrame) : list pystr :=
  map (normalize db) (omap region dff).

(** [by_region] where the region column holds text. *)
Definition by_region (db : CaseTables) (dff : DataFrame) : list RegionBin :=
  let names := df_regions db dff in
  map (fun g =>
         let n := length (List.filter (fun g' => bool_decide (g' = g)) names) in
         mkRB g n (count_bin (Z.of_nat n)))
      (group_keys pystr_compare names).

(** [read_csv] makes a column without any entry a column of floats, and
    the selection of a year keeps the type of the column.  [.str] raises
    AttributeError on such a column, which ends the run at line 173. *)
Definition region_is_text (df : DataFrame) : bool :=
  existsb (fun r => bool_decide (is_Some (region r))) df.

Definition choropleth_section (db : CaseTables) (df dff : DataFrame)
    : option (list RegionBin) :=
  if region_is_text df then Some (by_region db dff) else None.

(** ** The three strongest earthquakes (lines 209-215) *)

Definition has_position (r : Row) : bool :=
  negb (F64.isna (latitude r)) && negb (F64.isna (longitude r))
  && negb (F64.isna (magnitude r)).

(** [sort_values("magnitude_category")]: the order of the categories,
    rows without a category last. *)
Definition category_leb (a b : Row) : bool :=
  match magnitude_bucket (magnitude a), magnitude_bucket (magnitude b) with
  | Some i, Some j => (i <=? j)%nat
  | Some _, None => true
  | None, Some _ => false
  | None, None => true
  end.

Definition top3 (dff : DataFrame) : DataFrame :=
  stable_sort category_leb
    (take 3 (stable_sort (fun a b => F64.leb (magnitude b) (magnitude a))
                         (List.filter has_position dff))).

(** ** The region selector and the pie chart (lines 236-291) *)

Definition regions (dff : DataFrame) : list pystr :=
  py "All" :: stable_sort pystr_leb (drop_duplicates id [] (omap region dff)).

(** Lines 245-248. *)
Definition df_pie_filtered (dff : DataFrame) (region_selected : pystr) : DataFrame :=
  if bool_decide (region_selected = py "All") then dff
  else List.filter (fun r => bool_decide (region r = Some region_selected)) dff.

Definition mag_bins_pie : list F64.t :=
  [ F64.lit 5629499534213120  (* 5.0  *)
  ; F64.lit 5798384520239514  (* 5.15 *)
  ; F64.lit 6023564501608038  (* 5.35 *)
  ; F64.lit 6248744482976563  (* 5.55 *)
  ; F64.lit 6473924464345088  (* 5.75 *)
  ; F64.lit 6755399441055744  (* 6.0  *)
  ; F64.lit 6924284427082138  (* 6.15 *)
  ; F64.lit 7149464408450662  (* 6.35 *)
  ; F64.lit 7374644389819187  (* 6.55 *)
  ; F64.inf ].

Definition mag_labels_pie : list string :=
  [ "5.0–5.1"; "5.2–5.3"; "5.4–5.5"; "5.6–5.7"; "5.8–5.9"; "6.0–6.1"
  ; "6.2–6.3"; "6.4–6.5"; "6.6+" ]%string.

Definition mag_cluster (m : F64.t) : option string :=
  cut mag_bins_pie mag_labels_pie false m.

(** [groupby("mag_cluster").size()] on a categorical column: one row per
    category in category order; [observed] is the groupby default of the
    installed pandas and says whether categories without rows are left
    out. *)
Definition df_pie (observed : bool) (rows : DataFrame) : list (string * nat) :=
  List.filter (fun x => negb observed || negb (Nat.eqb x.2 0))
    (map (fun label =>
            (label,
             length (List.filter
                       (fun r => bool_decide (mag_cluster (magnitude r) = Some label)) rows)))
         mag_labels_pie).

Inductive PieView :=
  | NoData (message : string)
  | PieChart (slices : list (string * nat)).

(** Lines 266-291. *)
Definition pie_section (observed : bool) (dff : DataFrame) (region_selected : pystr)
    : PieView :=
  match df_pie_filtered dff region_selected with
  | [] => NoData "No data for the selected year(s) and region."
  | rows => PieChart (df_pie observed rows)
  end.

(** ** One run of the script

    What a run shows, given the case tables the text columns are
    title-cased with, the table of the CSV file, the session after the
    head of the script, the check box, the network and the entry of the
    region selector.  [None] is a run ended by an exception: the
    ValueError of line 44 on a table without rows, the AttributeError of
    line 173 on a table without any region. *)

Record Dashboard := mkDashboard {
  main_barchart : list YearSummary;
  shown_year : option Z;
  dot_map : Page;
  choropleth_map : list RegionBin;
  mini_map : DataFrame;
  region_options : list pystr;
  pie : PieView
}.

Definition app (db : CaseTables) (observed : bool) (df : DataFrame) (s : Session)
    (show_tectonics : bool) (net : Reply) (region_selected : pystr)
    : option Dashboard :=
  per_year ← per_year_df df;
  let sel := selected_year s in
  let dff := df_filtered df sel in
  match dot_map_section show_tectonics net dff with
  | inl _ => None
  | inr page =>
      counts ← choropleth_section db df dff;
      Some (mkDashboard per_year sel page counts (top3 dff)
              (regions dff) (pie_section observed dff region_selected))
  end.

(** A payload with one boundary line and one feature without geometry. *)
Definition boundary_line : json :=
  JObj [ ("type", JStr "Feature")
       ; ("geometry",
          JObj [ ("type", JStr "LineString")
               ; ("coordinates", JArr [JArr [JInt 1; JInt 2]; JArr [JInt 3; JInt 4]]) ]) ]%string.

Definition payload_with_gap : json :=
  JObj [("features", JArr [boundary_line; JObj [("type", JStr "Feature")]])]%string.

(** A statement keeps the traces drawn so far and the warnings. *)
Definition appends {A : Type} (m : Py A) : Prop :=
  forall p, exists extra,
    dot_traces (m p).1 = dot_traces p ++ extra /\ warnings (m p).1 = warnings p.

(** What holds of a session between two runs: the version is set, and
    the browser holds values only for charts shown so far. *)
Definition session_ok (s : Session) : Prop :=
  is_Some (session_state s !! "barchart_version"%string) /\
  forall k sel, components s !! k = Some sel ->
                exists v, (v <= barchart_version s)%nat /\ k = selection_key v.

(** ** Descriptions the further properties are stated with *)

(** The rows of year [y] and region [g]. *)
Definition region_count (df : DataFrame) (y : Z) (g : pystr) : nat :=
  length (List.filter (fun r => Z.eqb (year r) y && bool_decide (region r = Some g)) df).

(** The magnitudes of year [y] that are not missing, largest first. *)
Definition year_mags (df : DataFrame) (y : Z) : list F64.t :=
  stable_sort (fun a b => F64.leb b a)
    (List.filter (fun x => negb (F64.isna x)) (map magnitude (rows_of_year y df))).

(** The year of the last click since the last "Show all years", and the
    number of times that button was pressed. *)
Definition last_click (evs : list Event) : option Z :=
  foldl (fun acc e =>
           match e with
           | ClickBar y => Some y
           | ShowAllYears => None
           | OtherWidget => acc
           end) None evs.

Definition resets (evs : list Event) : nat :=
  length (List.filter (fun e => match e with ShowAllYears => true | _ => false end) evs).

(** A GeoJSON feature with a geometry of type [ty] over the points
    [pts], and a feature collection. *)
Definition feature_of (f : string * list (json * json)) : json :=
  JObj [ ("type", JStr "Feature")
       ; ("geometry",
          JObj [ ("type", JStr f.1)
               ; ("coordinates", JArr (map (fun p => JArr [p.1; p.2]) f.2)) ]) ]%string.

Definition feature_collection (features : list json) : json :=
  JObj [("type", JStr "FeatureCollection"); ("features", JArr features)]%string.

(** The lines of the features of type LineString. *)
Definition line_traces (fs : list (string * list (json * json))) : list Trace :=
  omap (fun f => if String.eqb f.1 "LineString"
                 then Some (Lines (map fst f.2) (map snd f.2)) else None) fs.

(** ASCII letters in lower case. *)
Definition ascii_lower (s : pystr) : pystr := map (ascii_case true) s.

(** The cased ASCII characters are the letters. *)
Definition ascii_cased (c : N) : bool :=
  Unicode.is_ascii_upper c || Unicode.is_ascii_lower c.

(** Case tables that treat ASCII as every version of the character
    database does. *)
Definition ascii_rules (db : CaseTables) : Prop :=
  forall c, Unicode.is_ascii c = true ->
    db_is_cased db c = ascii_cased c /\
    db_to_title db c = [ascii_case false c] /\
    forall before after, db_to_lower db before c after = [ascii_case true c].

(** [str.title] writes [xs] again as it is, after a cased character
    ([b = true]) or elsewhere and whatever stands around it, and goes on
    behind it as after a cased character if [b'] and as elsewhere if
    not. *)
Definition reproduced (db : CaseTables) (b : bool) (xs : pystr) (b' : bool) : Prop :=
  forall before rest,
    do_title db before b (xs ++ rest) = xs ++ do_title db (reverse xs ++ before) b' rest.

Definition edges_not_space (xs : pystr) : bool :=
  match head xs, last xs with
  | Some x, Some y => negb (Unicode.is_space x) && negb (Unicode.is_space y)
  | _, _ => false
  end.

(** A character that a second [str.title] cannot tell from what the
    first made of it: what is written for it is written again as it is
    and is cased or not as the character was.  White space is kept and is
    uncased; what is written for another character neither starts nor
    ends with white space. *)
Definition title_stable (db : CaseTables) (c : N) : Prop :=
  forall before b after,
    reproduced db b (title_step db before b c after) (db_is_cased db c) /\
    if Unicode.is_space c
    then title_step db before b c after = [c] /\ db_is_cased db c = false
    else edges_not_space (title_step db before b c after) = true.

(** The code points that are not [title_stable] with CPython's tables:
    what is written for them ends in an uncased character, a combining
    mark or a modifier letter. *)
Definition cpython_unstable : list N :=
  [ 0x130; 0x1F0; 0x390; 0x3B0; 0x1E96; 0x1E97; 0x1E98; 0x1E99; 0x1E9A; 0x1F50; 0x1F52
  ; 0x1F54; 0x1F56; 0x1FB6; 0x1FB7; 0x1FC6; 0x1FC7; 0x1FD2; 0x1FD3; 0x1FD6; 0x1FD7
  ; 0x1FE2; 0x1FE3; 0x1FE4; 0x1FE6; 0x1FE7; 0x1FF6; 0x1FF7 ]%N.

(** " öSTERREICH-ungarn ", with U+00F6. *)
Definition OESTERREICH : pystr :=
  [32; 0xF6; 83; 84; 69; 82; 82; 69; 73; 67; 72; 45; 117; 110; 103; 97; 114; 110; 32]%N.

(** "straße ΟΔΟΣ", with U+00DF and a capital sigma at the end. *)
Definition STRASSE_ODOS : pystr :=
  [115; 116; 114; 97; 0xDF; 101; 32; 0x39F; 0x394; 0x39F; 0x3A3]%N.

(** *** Checking the stability of a code point on CPython's tables

    What is written for a character other than the capital sigma does not
    depend on what stands around it. *)
Definition plain_step (b : bool) (c : N) : pystr :=
  if b then Unicode.to_lower_full c else Unicode.to_title_full c.

(** Whether [xs] is written again character by character, and what it
    leaves behind. *)
Fixpoint rewrite_check (b : bool) (xs : pystr) : option bool :=
  match xs with
  | [] => Some b
  | x :: r =>
      if (negb b || negb (x =? 0x3A3)%N) && bool_decide (plain_step b x = [x])
      then rewrite_check (Unicode.is_cased x) r
      else None
  end.

Definition stable_check_in (b : bool) (c : N) : bool :=
  let xs := plain_step b c in
  let cased := Unicode.is_cased c in
  bool_decide (rewrite_check b xs = Some cased)
  && if Unicode.is_space c
     then bool_decide (xs = [c]) && negb cased
     else edges_not_space xs.

Definition stable_check (c : N) : bool :=
  negb (c =? 0x3A3)%N && forallb (fun b => stable_check_in b c) [false; true].

(** The code points some table mentions. *)
Definition range_points (r : N * N) : list N :=
  map (fun k => (r.1 + N.of_nat k)%N) (seq 0 (N.to_nat (r.2 + 1 - r.1))).

Definition table_ranges : list (N * N) :=
  Unicode.cased_ranges
  ++ map (fun r => (r.1.1.1, r.1.1.2)) Unicode.title_runs
  ++ map (fun p => (p.1, p.1)) Unicode.title_special
  ++ map (fun r => (r.1.1.1, r.1.1.2)) Unicode.lower_runs
  ++ map (fun p => (p.1, p.1)) Unicode.lower_special.

(** A trace of the overlay. *)
Definition is_line (t : Trace) : bool :=
  match t with
  | Lines _ _ => true
  | Markers _ _ => false
  end.

(** Sorted by [le], and where [le] does not tell two rows apart, in the
    order [R] the rows had before. *)
Definition sorted_keeping {A : Type} (le : A -> A -> bool) (R : A -> A -> Prop)
    (a b : A) : Prop :=
  le a b = true /\ (le b a = true -> R a b).

(** The summary row of the year [y], read off the table. *)
Definition year_summary (df : DataFrame) (y : Z) : YearSummary :=
  mkYS y (length (rows_of_year y df))
       (snd <$> List.find (fun p : Z * pystr => Z.eqb p.1 y) (top_region df))
       (tm_m1 (top_mags_of y df)) (tm_m2 (top_mags_of y df)) (tm_m3 (top_mags_of y df)).

(** The columns of a summary row that do not depend on the magnitudes. *)
Definition bar_columns (ys : YearSummary) : Z * nat * option pystr :=
  (ys_year ys, amount ys, ys_top_region ys).

(** A statement that adds nothing but lines to the map. *)
Definition adds_lines {A : Type} (m : Py A) : Prop :=
  forall p, exists extra,
    dot_traces (m p).1 = dot_traces p ++ extra /\ forallb is_line extra = true.

(** The rows shown as markers. *)
Definition marker_rows (traces : list Trace) : list Row :=
  flat_map (fun t => match t with
                     | Markers _ rows => rows
                     | Lines _ _ => []
                     end) traces.

(** * Properties *)

(** ** The order of binary64 values *)

Module F64Facts.

Ltac compare_cases :=
  repeat match goal with
  | |- context [Pos.compare_cont Eq ?a ?b] =>
      change (Pos.compare_cont Eq a b) with (Pos.compare a b)
  | H : context [Pos.compare_cont Eq ?a ?b] |- _ =>
      change (Pos.compare_cont Eq a b) with (Pos.compare a b) in H
  end;
  repeat match goal with
  | H : context [Z.compare ?a ?b] |- _ =>
      destruct (Z.compare_spec a b); simpl in H; try discriminate H
  | H : context [Pos.compare ?a ?b] |- _ =>
      destruct (Pos.compare_spec a b); simpl in H; try discriminate H
  end;
  repeat match goal with
  | |- context [Z.compare ?a ?b] =>
      destruct (Z.compare_spec a b); simpl; try lia
  | |- context [Pos.compare ?a ?b] =>
      destruct (Pos.compare_spec a b); simpl; try lia
  end.

Lemma leb_trans (a b c : F64.t) :
  F64.leb a b = true -> F64.leb b c = true -> F64.leb a c = true.
Proof.
  unfold F64.leb, SFleb, SFcompare.
  destruct a as [sa|sa| |sa ma ea], b as [sb|sb| |sb mb eb], c as [sc|sc| |sc mc ec];
    try destruct sa; try destruct sb; try destruct sc;
    simpl; intros Hab Hbc; try discriminate; try reflexivity;
    compare_cases; subst; try reflexivity; try lia.
Qed.

Lemma ltb_negb_leb (a b : F64.t) :
  F64.isna a = false -> F64.isna b = false ->
  F64.ltb a b = negb (F64.leb b a).
Proof.
  unfold F64.ltb, F64.leb, SFltb, SFleb, SFcompare, F64.isna.
  destruct a as [sa|sa| |sa ma ea], b as [sb|sb| |sb mb eb];
    try destruct sa; try destruct sb;
    simpl; intros Ha Hb; try discriminate; try reflexivity;
    compare_cases; subst; try reflexivity; try lia.
Qed.

Lemma leb_not_nan (a b : F64.t) :
  F64.leb a b = true -> F64.isna a = false /\ F64.isna b = false.
Proof.
  unfold F64.leb, SFleb, SFcompare, F64.isna.
  destruct a as [sa|sa| |sa ma ea], b as [sb|sb| |sb mb eb];
    simpl; intros Hab; try discriminate; auto.
Qed.

End F64Facts.

(** ** [pandas.cut] on sorted edges *)

Section CutFacts.
Context {A : Type} `{CutKey A}.

Lemma searchsorted_right_le_length (bins : list A) (x : A) :
  (searchsorted_right bins x <= length bins)%nat.
Proof.
  induction bins as [|b bs IH]; simpl; [lia|].
  destruct (key_leb b x); simpl; lia.
Qed.

(** Every edge in front of the insertion index is at most [x]. *)
Lemma searchsorted_right_before (bins : list A) (x : A) (k : nat) (b : A) :
  (k < searchsorted_right bins x)%nat -> bins !! k = Some b -> key_leb b x = true.
Proof.
  revert k. induction bins as [|b0 bs IH]; simpl; intros k Hk Hb; [lia|].
  destruct (key_leb b0 x) eqn:E; [|lia].
  destruct k as [|k]; simpl in Hb.
  - congruence.
  - apply (IH k); [lia|exact Hb].
Qed.

(** The edge at the insertion index is not. *)
Lemma searchsorted_right_at (bins : list A) (x : A) (b : A) :
  bins !! searchsorted_right bins x = Some b -> key_leb b x = false.
Proof.
  induction bins as [|b0 bs IH]; simpl; intros Hb; [discriminate|].
  destruct (key_leb b0 x) eqn:E; simpl in Hb.
  - auto.
  - congruence.
Qed.

Lemma searchsorted_right_upper (bins : list A) (x : A) (n : nat) (b : A) :
  bins !! n = Some b -> key_leb b x = false -> (searchsorted_right bins x <= n)%nat.
Proof.
  revert n. induction bins as [|b0 bs IH]; simpl; intros n Hb Hx; [lia|].
  destruct (key_leb b0 x) eqn:E; [|lia].
  destruct n as [|n]; simpl in Hb.
  - congruence.
  - specialize (IH n Hb Hx). lia.
Qed.

Lemma searchsorted_right_lower (bins : list A) (x : A) (n : nat) :
  (n <= length bins)%nat ->
  (forall k b, (k < n)%nat -> bins !! k = Some b -> key_leb b x = true) ->
  (n <= searchsorted_right bins x)%nat.
Proof.
  revert n. induction bins as [|b0 bs IH]; simpl; intros n Hn Hall; [lia|].
  destruct n as [|n]; [lia|].
  rewrite (Hall O b0); [|lia|reflexivity].
  assert (n <= searchsorted_right bs x)%nat; [|lia].
  apply IH; [lia|].
  intros k b Hk Hb. apply (Hall (S k) b); [lia|exact Hb].
Qed.

Hypothesis leb_trans :
  forall a b c : A, key_leb a b = true -> key_leb b c = true -> key_leb a c = true.

(** The insertion index grows with the value. *)
Lemma searchsorted_right_mono (bins : list A) (x y : A) :
  key_leb x y = true ->
  (searchsorted_right bins x <= searchsorted_right bins y)%nat.
Proof.
  intros Hxy. induction bins as [|b bs IH]; simpl; [lia|].
  destruct (key_leb b x) eqn:E; [|lia].
  rewrite (leb_trans b x y E Hxy). lia.
Qed.

Lemma cut_index_left_closed_mono (bins : list A) (x y : A) (i j : nat) :
  key_leb x y = true ->
  cut_index bins false x = Some i -> cut_index bins false y = Some j ->
  (i <= j)%nat.
Proof.
  intros Hxy. unfold cut_index, searchsorted.
  pose proof (searchsorted_right_mono bins x y Hxy).
  destruct (_ || _); [discriminate|]. destruct (_ || _); [discriminate|].
  intros [= <-] [= <-]. lia.
Qed.

Hypothesis ltb_negb_leb :
  forall a b : A, key_isna a = false -> key_isna b = false ->
                  key_ltb a b = negb (key_leb b a).

Variable bins : list A.
Hypothesis bins_sorted :
  forall i j a b, (i <= j)%nat -> bins !! i = Some a -> bins !! j = Some b ->
                  key_leb a b = true.
Hypothesis bins_not_na : forall i a, bins !! i = Some a -> key_isna a = false.

(** On sorted edges without missing values, [cut] with [right=False]
    gives the bucket [i] exactly to the values of [[bins[i], bins[i+1])]. *)
Lemma cut_index_left_closed (x : A) (i : nat) :
  cut_index bins false x = Some i <->
  key_isna x = false /\ in_bucket bins false i x = true.
Proof.
  unfold cut_index, in_bucket, searchsorted.
  pose proof (searchsorted_right_le_length bins x) as Hle.
  split.
  - destruct (key_isna x) eqn:Hna; simpl; [discriminate|].
    destruct (Nat.eqb_spec (searchsorted_right bins x) (length bins)) as [|Hlen];
      simpl; [discriminate|].
    destruct (Nat.eqb_spec (searchsorted_right bins x) 0) as [|H0]; [discriminate|].
    intros [= <-]. split; [reflexivity|].
    replace (S (searchsorted_right bins x - 1)) with (searchsorted_right bins x) by lia.
    destruct (lookup_lt_is_Some_2 bins (searchsorted_right bins x - 1)) as [low Hlow]; [lia|].
    destruct (lookup_lt_is_Some_2 bins (searchsorted_right bins x)) as [high Hhigh]; [lia|].
    rewrite Hlow, Hhigh.
    rewrite (searchsorted_right_before bins x (searchsorted_right bins x - 1) low)
      by (lia || assumption).
    rewrite ltb_negb_leb by eauto.
    rewrite (searchsorted_right_at bins x high Hhigh). reflexivity.
  - intros [Hna Hin]. rewrite Hna. simpl.
    destruct (bins !! i) as [low|] eqn:Hlow; [|discriminate].
    destruct (bins !! S i) as [high|] eqn:Hhigh; [|discriminate].
    apply andb_true_iff in Hin as [Hlo Hhi].
    rewrite ltb_negb_leb in Hhi by eauto. apply negb_true_iff in Hhi.
    pose proof (lookup_lt_Some _ _ _ Hhigh) as Hlt.
    assert (searchsorted_right bins x = S i) as ->.
    { apply Nat.le_antisymm.
      - eapply searchsorted_right_upper; eauto.
      - apply searchsorted_right_lower; [lia|].
        intros k b Hk Hb. apply (leb_trans b low x); [|exact Hlo].
        apply (bins_sorted k i); [lia|assumption..]. }
    destruct (Nat.eqb_spec (S i) (length bins)); [lia|]. simpl.
    f_equal. lia.
Qed.

(** So a value lies in at most one bucket, the one [cut] gives. *)
Lemma in_bucket_left_closed_unique (x : A) (i j : nat) :
  cut_index bins false x = Some i ->
  in_bucket bins false j x = true <-> j = i.
Proof.
  intros Hi. pose proof (proj1 (cut_index_left_closed x i) Hi) as [Hna Hin].
  split.
  - intros Hj.
    assert (cut_index bins false x = Some j) as Hj'
      by (apply cut_index_left_closed; auto).
    congruence.
  - intros ->. exact Hin.
Qed.

End CutFacts.

Lemma StronglySorted_lookup_lt {A : Type} (R : A -> A -> Prop) (l : list A) :
  StronglySorted R l ->
  forall i j a b, (i < j)%nat -> l !! i = Some a -> l !! j = Some b -> R a b.
Proof.
  induction 1 as [|x l Hs IH Hall]; intros i j a b Hij Ha Hb; [discriminate|].
  destruct j as [|j]; [lia|]. simpl in Hb.
  destruct i as [|i]; simpl in Ha.
  - injection Ha as <-. rewrite Forall_forall in Hall.
    apply Hall. eapply list_elem_of_lookup_2; eauto.
  - apply (IH i j); [lia|assumption..].
Qed.

(** ** Magnitude categories *)

Lemma mag_bins_dot_strongly_sorted :
  StronglySorted (fun a b => F64.leb a b = true) mag_bins_dot.
Proof. unfold mag_bins_dot. repeat constructor. Qed.

Lemma mag_bins_dot_not_na (i : nat) (a : F64.t) :
  mag_bins_dot !! i = Some a -> F64.isna a = false.
Proof.
  intros Ha. apply list_elem_of_lookup_2 in Ha.
  unfold mag_bins_dot in Ha.
  repeat (apply elem_of_cons in Ha as [->|Ha]; [reflexivity|]).
  apply elem_of_nil in Ha. contradiction.
Qed.

Lemma mag_bins_dot_sorted (i j : nat) (a b : F64.t) :
  (i <= j)%nat -> mag_bins_dot !! i = Some a -> mag_bins_dot !! j = Some b ->
  F64.leb a b = true.
Proof.
  intros Hij Ha Hb. destruct (decide (i = j)) as [->|Hne].
  - assert (a = b) as <- by congruence.
    pose proof (mag_bins_dot_not_na _ _ Ha) as Hna.
    pose proof (F64Facts.ltb_negb_leb a a Hna Hna) as Hlt.
    destruct (F64.leb a a) eqn:E; [reflexivity|].
    simpl in Hlt. unfold F64.ltb, SFltb in Hlt. unfold F64.leb, SFleb in E.
    destruct (SFcompare a a) as [[]|]; discriminate.
  - apply (StronglySorted_lookup_lt _ _ mag_bins_dot_strongly_sorted i j); [lia|assumption..].
Qed.

Lemma magnitude_bucket_total (m : F64.t) :
  F64.leb mag_5_0 m = true -> F64.is_finite m = true ->
  exists i, (i < 12)%nat /\ magnitude_bucket m = Some i.
Proof.
  intros H5 Hfin.
  assert (F64.isna m = false) as Hna by (destruct m; simpl in *; congruence).
  assert (F64.leb F64.inf m = false) as Hinf
    by (destruct m as [?|?| |[] ? ?]; try discriminate; reflexivity).
  assert (1 <= searchsorted_right mag_bins_dot m)%nat as Hlo.
  { apply searchsorted_right_lower; [simpl; lia|].
    intros k b Hk Hb. destruct k; [|lia]. injection Hb as <-. exact H5. }
  assert (searchsorted_right mag_bins_dot m <= 12)%nat as Hhi.
  { apply (searchsorted_right_upper mag_bins_dot m 12 F64.inf); [reflexivity|exact Hinf]. }
  exists (searchsorted_right mag_bins_dot m - 1)%nat. split; [lia|].
  unfold magnitude_bucket, cut_index, searchsorted. cbv zeta.
  change (key_isna m) with (F64.isna m). rewrite Hna.
  change (length mag_bins_dot) with 13%nat.
  rewrite (proj2 (Nat.eqb_neq _ 13)) by lia.
  rewrite (proj2 (Nat.eqb_neq _ 0)) by lia.
  reflexivity.
Qed.

(** C1: every magnitude of the interval [[5.0, inf)], that is every
    finite [m >= 5.0], gets exactly one of the twelve labels of the map,
    namely the label of the only bucket [[low, high)] that contains it,
    and the bucket index does not decrease when the magnitude grows. *)
Theorem magnitude_category_finite :
  (forall m, F64.leb mag_5_0 m = true -> F64.is_finite m = true ->
     exists i label,
       (i < 12)%nat /\
       magnitude_bucket m = Some i /\
       mag_labels_dot !! i = Some label /\
       magnitude_category m = Some label /\
       forall j, in_bucket mag_bins_dot false j m = true <-> j = i)
  /\ NoDup mag_labels_dot
  /\ (forall m1 m2 i1 i2,
        F64.leb m1 m2 = true ->
        magnitude_bucket m1 = Some i1 -> magnitude_bucket m2 = Some i2 ->
        (i1 <= i2)%nat).
Proof.
  split; [|split].
  - intros m H5 Hfin.
    destruct (magnitude_bucket_total m H5 Hfin) as (i & Hi & Hb).
    destruct (lookup_lt_is_Some_2 mag_labels_dot i) as [label Hl]; [simpl; lia|].
    exists i, label. split; [exact Hi|]. split; [exact Hb|]. split; [exact Hl|]. split.
    + unfold magnitude_category, cut. unfold magnitude_bucket in Hb. rewrite Hb. exact Hl.
    + intros j.
      apply (@in_bucket_left_closed_unique F64.t F64_CutKey
               F64Facts.leb_trans F64Facts.ltb_negb_leb
               mag_bins_dot mag_bins_dot_sorted mag_bins_dot_not_na m i j Hb).
  - apply (bool_decide_unpack (NoDup mag_labels_dot)). vm_compute. exact I.
  - intros m1 m2 i1 i2 Hle H1 H2.
    exact (@cut_index_left_closed_mono F64.t F64_CutKey F64Facts.leb_trans
             mag_bins_dot m1 m2 i1 i2 Hle H1 H2).
Qed.

(** The magnitude 6.2 of the scenario falls into the seventh bucket. *)
Lemma magnitude_category_finite_witness :
  exists i label,
    (i < 12)%nat /\
    magnitude_bucket (F64.lit 6980579422424269) = Some i /\
    mag_labels_dot !! i = Some label /\
    magnitude_category (F64.lit 6980579422424269) = Some label /\
    forall j, in_bucket mag_bins_dot false j (F64.lit 6980579422424269) = true <-> j = i.
Proof.
  apply (proj1 magnitude_category_finite (F64.lit 6980579422424269)); reflexivity.
Defined.

(** The float [+inf] is no point of [[5.0, inf)]: it lies in no bucket,
    the last one being [[7.5, inf)], and gets no label. *)
Lemma magnitude_category_infinity :
  F64.leb mag_5_0 F64.inf = true /\
  magnitude_bucket F64.inf = None /\
  magnitude_category F64.inf = None.
Proof. repeat split. Qed.

(** ** Count bins *)

(** The label of a count, written out. *)
Lemma count_bucket_cases (c : Z) :
  0 <= c ->
  count_bucket c = Some (count_range c).
Proof.
  intros Hc. unfold count_range, count_bucket, cut_index, searchsorted, count_bins_chor.
  cbn [searchsorted_left key_ltb key_isna edge_CutKey edge_ltb length orb].
  repeat match goal with
         | |- context [?a <? c] => destruct (Z.ltb_spec a c); try lia
         | |- context [c <=? ?a] => destruct (Z.leb_spec c a); try lia
         end; reflexivity.
Qed.

(** C2: every count [c >= 0] gets exactly one of the six labels, the
    label of the only bucket [(low, high]] among (-1,1], (1,3], (3,6],
    (6,10], (10,20], (20,inf) that contains it. *)
Theorem count_bin_partition (c : Z) :
  0 <= c ->
  exists i label,
    (i < 6)%nat /\
    count_bucket c = Some i /\
    i = count_range c /\
    count_labels_chor !! i = Some label /\
    count_bin c = Some label /\
    NoDup count_labels_chor /\
    forall j, in_bucket count_bins_chor true j (Fin c) = true <-> j = i.
Proof.
  intros Hc. pose proof (count_bucket_cases c Hc) as Hb.
  set (i := count_range c) in *.
  assert (i < 6)%nat as Hi by (subst i; unfold count_range; repeat case_match; lia).
  destruct (lookup_lt_is_Some_2 count_labels_chor i) as [label Hl]; [simpl; lia|].
  exists i, label. split; [exact Hi|]. split; [exact Hb|]. split; [reflexivity|].
  split; [exact Hl|]. split.
  { unfold count_bin, cut. unfold count_bucket in Hb. rewrite Hb. exact Hl. }
  split.
  { apply (bool_decide_unpack (NoDup count_labels_chor)). vm_compute. exact I. }
  intros j. unfold in_bucket, count_bins_chor.
  do 7 (destruct j as [|j];
        [cbn [lookup list_lookup key_ltb key_leb edge_CutKey edge_ltb edge_leb];
         subst i; unfold count_range;
         repeat match goal with
                | |- context [?a <? c] => destruct (Z.ltb_spec a c); try lia
                | |- context [c <=? ?a] => destruct (Z.leb_spec c a); try lia
                end; simpl; split; (discriminate || lia || reflexivity || idtac)|]).
  cbn [lookup list_lookup]. split; [discriminate|].
  intros Hj. lia.
Qed.

(** Seven events fall into the bucket (6, 10], labelled 7–10. *)
Lemma count_bin_partition_witness :
  exists i label,
    (i < 6)%nat /\
    count_bucket 7 = Some i /\
    i = count_range 7 /\
    count_labels_chor !! i = Some label /\
    count_bin 7 = Some label /\
    NoDup count_labels_chor /\
    forall j, in_bucket count_bins_chor true j (Fin 7) = true <-> j = i.
Proof. apply (count_bin_partition 7). lia. Defined.

(** ** The per-year summary *)

(** C3: on the table with three rows (2015, 6.2, "Greece") and one row
    (2016, 5.1, "Italy"), in any order and whatever the other columns
    hold, the per-year summary is 2015 with amount 3, top region Greece
    and m1 = m2 = m3 = 6.2, then 2016 with amount 1, top region Italy,
    m1 = 5.1 and m2, m3 missing. *)
Theorem per_year_df_scenario (df : DataFrame) :
  map summary_columns df ≡ₚ scenario ->
  per_year_df df = Some scenario_summary.
Proof.
  intros Hperm. symmetry in Hperm. apply permutations_Permutation in Hperm.
  set (ps := permutations scenario) in Hperm. vm_compute in ps. subst ps.
  repeat (apply elem_of_cons in Hperm as [Hperm|Hperm]);
    try (apply elem_of_nil in Hperm; contradiction);
    destruct df as [|[y1 g1 a1 o1 d1 s1 r1] [|[y2 g2 a2 o2 d2 s2 r2]
      [|[y3 g3 a3 o3 d3 s3 r3] [|[y4 g4 a4 o4 d4 s4 r4] [|]]]]];
    try discriminate Hperm;
    unfold summary_columns in Hperm; simpl in Hperm;
    injection Hperm as -> -> -> -> -> -> -> -> -> -> -> ->;
    vm_compute; reflexivity.
Qed.

Lemma per_year_df_scenario_witness :
  per_year_df
    [ mkRow 2015 mag_6_2 F64.nan F64.nan F64.nan 0 (Some (py "Greece"))
    ; mkRow 2015 mag_6_2 F64.nan F64.nan F64.nan 0 (Some (py "Greece"))
    ; mkRow 2015 mag_6_2 F64.nan F64.nan F64.nan 0 (Some (py "Greece"))
    ; mkRow 2016 mag_5_1 F64.nan F64.nan F64.nan 0 (Some (py "Italy")) ]
  = Some scenario_summary.
Proof. apply per_year_df_scenario. reflexivity. Defined.

(** *** Group keys are strictly ascending *)

Lemma insert_key_elem (k x : Z) (ks : list Z) :
  x ∈ insert_key Z.compare k ks <-> x = k \/ x ∈ ks.
Proof.
  induction ks as [|k' r IH]; simpl.
  - rewrite list_elem_of_singleton, elem_of_nil. tauto.
  - destruct (Z.compare_spec k k') as [->| |]; rewrite ?elem_of_cons, ?IH;
      intuition congruence.
Qed.

Lemma insert_key_sorted (k : Z) (ks : list Z) :
  StronglySorted Z.lt ks -> StronglySorted Z.lt (insert_key Z.compare k ks).
Proof.
  induction 1 as [|k' r Hs IH Hall]; simpl.
  - repeat constructor.
  - destruct (Z.compare_spec k k') as [->|Hlt|Hgt].
    + constructor; assumption.
    + constructor; [constructor; assumption|].
      constructor; [exact Hlt|].
      eapply Forall_impl; [exact Hall|]. simpl. intros; lia.
    + constructor; [exact IH|].
      apply Forall_forall. intros x Hx. apply insert_key_elem in Hx as [->|Hx]; [lia|].
      rewrite Forall_forall in Hall. auto.
Qed.

Lemma group_keys_sorted (ks : list Z) : StronglySorted Z.lt (group_keys Z.compare ks).
Proof.
  induction ks as [|k r IH]; simpl.
  - constructor.
  - apply insert_key_sorted, IH.
Qed.

Lemma group_keys_elem (ks : list Z) (x : Z) : x ∈ group_keys Z.compare ks <-> x ∈ ks.
Proof.
  induction ks as [|k r IH]; simpl; [reflexivity|].
  rewrite insert_key_elem, elem_of_cons, IH. reflexivity.
Qed.

Lemma StronglySorted_lt_NoDup (l : list Z) : StronglySorted Z.lt l -> NoDup l.
Proof.
  induction 1 as [|x l Hs IH Hall]; constructor; [|exact IH].
  intros Hx. rewrite Forall_forall in Hall. specialize (Hall x Hx). lia.
Qed.

(** *** Sorting a sorted frame, dropping duplicates, merging *)

Lemma stable_sort_sorted {A : Type} (le : A -> A -> bool) (l : list A) :
  StronglySorted (fun a b => le a b = true) l -> stable_sort le l = l.
Proof.
  induction 1 as [|x l Hs IH Hall]; [reflexivity|].
  change (stable_sort le (x :: l)) with (insert_sorted le x (stable_sort le l)).
  rewrite IH.
  destruct l as [|y r]; simpl; [reflexivity|].
  apply Forall_cons in Hall as [-> _]. reflexivity.
Qed.

Lemma drop_duplicates_keys {A K : Type} `{EqDecision K} (key : A -> K)
    (l : list A) (seen : list K) :
  NoDup (map key (drop_duplicates key seen l)) /\
  forall x, x ∈ drop_duplicates key seen l -> key x ∉ seen.
Proof.
  revert seen. induction l as [|a l IH]; intros seen; simpl.
  - split; [constructor|]. intros x Hx. apply elem_of_nil in Hx. contradiction.
  - destruct (bool_decide (key a ∈ seen)) eqn:E.
    + apply IH.
    + apply bool_decide_eq_false in E.
      destruct (IH (key a :: seen)) as [Hnd Hseen]. split.
      * simpl. constructor; [|exact Hnd].
        intros Hin. apply list_elem_of_In, in_map_iff in Hin as (x & Hk & Hx).
        apply list_elem_of_In in Hx. apply Hseen in Hx. apply Hx.
        rewrite Hk. left.
      * intros x Hx. apply elem_of_cons in Hx as [->|Hx]; [exact E|].
        apply Hseen in Hx. intros Hin. apply Hx. right. exact Hin.
Qed.

Lemma filter_absent_key {R : Type} (rkey : R -> Z) (r : list R) (k : Z) :
  k ∉ map rkey r -> List.filter (fun y => Z.eqb (rkey y) k) r = [].
Proof.
  induction r as [|y r IH]; simpl; intros Hk; [reflexivity|].
  apply not_elem_of_cons in Hk as [Hne Hk].
  destruct (Z.eqb_spec (rkey y) k); [congruence|auto].
Qed.

Lemma filter_unique_key {R : Type} (rkey : R -> Z) (r : list R) (k : Z) :
  NoDup (map rkey r) ->
  (length (List.filter (fun y => Z.eqb (rkey y) k) r) <= 1)%nat.
Proof.
  induction r as [|y r IH]; simpl; intros Hnd; [lia|].
  apply NoDup_cons in Hnd as [Hy Hnd].
  destruct (Z.eqb_spec (rkey y) k) as [<-|]; [|auto].
  simpl. rewrite (filter_absent_key rkey r (rkey y) Hy). simpl. lia.
Qed.

(** A left merge with a frame of distinct keys keeps the left rows. *)
Lemma merge_left_unique {L R : Type} (lkey : L -> Z) (rkey : R -> Z)
    (l : list L) (r : list R) :
  NoDup (map rkey r) -> map fst (merge_left lkey rkey l r) = l.
Proof.
  intros Hnd. unfold merge_left. induction l as [|x l IH]; [reflexivity|].
  cbn [flat_map]. rewrite map_app, IH. change (x :: l) with ([x] ++ l). f_equal.
  pose proof (filter_unique_key rkey r (lkey x) Hnd) as Hlen.
  destruct (List.filter _ r) as [|m [|m' ms]]; simpl in *; [reflexivity..|lia].
Qed.

Lemma StronglySorted_map {A B : Type} (R : A -> A -> Prop) (R' : B -> B -> Prop)
    (f : A -> B) (l : list A) :
  (forall a b, R a b -> R' (f a) (f b)) ->
  StronglySorted R l -> StronglySorted R' (map f l).
Proof.
  intros Hf. induction 1 as [|x l Hs IH Hall]; simpl; constructor; [exact IH|].
  rewrite Forall_forall in Hall. apply Forall_forall. intros y Hy.
  apply list_elem_of_In, in_map_iff in Hy as (a & <- & Ha).
  apply Hf, Hall, list_elem_of_In, Ha.
Qed.

Lemma year_sizes_years (df : DataFrame) : map fst (year_sizes df) = years df.
Proof.
  unfold year_sizes. rewrite map_map. simpl. apply map_id.
Qed.

Lemma year_sizes_sorted (df : DataFrame) :
  stable_sort (fun a b : Z * nat => a.1 <=? b.1) (year_sizes df) = year_sizes df.
Proof.
  apply stable_sort_sorted. unfold year_sizes.
  apply (StronglySorted_map Z.lt); [|apply group_keys_sorted].
  intros a b Hab. simpl. apply Z.leb_le. lia.
Qed.

Lemma top_region_years_NoDup (df : DataFrame) : NoDup (map fst (top_region df)).
Proof.
  unfold top_region. rewrite map_map. simpl.
  apply (drop_duplicates_keys rc_year).
Qed.

Lemma top_mags_years (df : DataFrame) (tm : list TopMags) :
  top_mags df = Some tm -> map tm_year tm = years df.
Proof.
  unfold top_mags. destruct df as [|r df]; [discriminate|].
  intros [= <-]. rewrite map_map. simpl. apply map_id.
Qed.

Lemma ys_year_summary_row (x : (Z * nat) * option (Z * pystr) * option TopMags) :
  ys_year (summary_row x) = x.1.1.1.
Proof. destruct x as [[[y n] tr] tm]. reflexivity. Qed.

(** The years of the summary are the group keys of the table. *)
Lemma per_year_df_years (df : DataFrame) (s : list YearSummary) :
  per_year_df df = Some s -> years_barchart s = years df.
Proof.
  unfold per_year_df, years_barchart.
  destruct (top_mags df) as [tm|] eqn:Htm; [|discriminate]. simpl.
  intros [= <-]. rewrite map_map.
  rewrite (map_ext _ (fun x => fst (fst (fst x)))) by apply ys_year_summary_row.
  rewrite <- (map_map fst (fun x => fst (fst x))).
  rewrite merge_left_unique.
  2:{ rewrite (top_mags_years df tm Htm). apply StronglySorted_lt_NoDup, group_keys_sorted. }
  rewrite <- (map_map fst fst).
  rewrite merge_left_unique by apply top_region_years_NoDup.
  rewrite year_sizes_sorted. apply year_sizes_years.
Qed.

(** C4: a table with at least one row has a per-year summary, and the
    years of a summary are strictly ascending, without duplicates, and
    are the years of the table. *)
Theorem per_year_df_sorted (df : DataFrame) :
  (df <> [] -> is_Some (per_year_df df)) /\
  forall s, per_year_df df = Some s ->
    StronglySorted Z.lt (years_barchart s) /\
    NoDup (years_barchart s) /\
    forall y, y ∈ years_barchart s <-> exists r, r ∈ df /\ year r = y.
Proof.
  split.
  - intros Hne. unfold per_year_df, top_mags.
    destruct df; [congruence|]. simpl. eexists. reflexivity.
  - intros s Hs. rewrite (per_year_df_years df s Hs).
    split; [apply group_keys_sorted|].
    split; [apply StronglySorted_lt_NoDup, group_keys_sorted|].
    intros y. unfold years. rewrite group_keys_elem.
    rewrite list_elem_of_In, in_map_iff. setoid_rewrite <- list_elem_of_In.
    split; intros (r & H1 & H2); exists r; auto.
Qed.

Lemma per_year_df_sorted_witness :
  StronglySorted Z.lt (years_barchart scenario_summary) /\
  NoDup (years_barchart scenario_summary) /\
  forall y, y ∈ years_barchart scenario_summary <->
            exists r, r ∈ [ mkRow 2016 mag_5_1 F64.nan F64.nan F64.nan 0 (Some (py "Italy"))
                          ; mkRow 2015 mag_6_2 F64.nan F64.nan F64.nan 0 (Some (py "Greece"))
                          ; mkRow 2015 mag_6_2 F64.nan F64.nan F64.nan 0 (Some (py "Greece"))
                          ; mkRow 2015 mag_6_2 F64.nan F64.nan F64.nan 0 (Some (py "Greece")) ]
                      /\ year r = y.
Proof.
  apply (proj2 (per_year_df_sorted
    [ mkRow 2016 mag_5_1 F64.nan F64.nan F64.nan 0 (Some (py "Italy"))
    ; mkRow 2015 mag_6_2 F64.nan F64.nan F64.nan 0 (Some (py "Greece"))
    ; mkRow 2015 mag_6_2 F64.nan F64.nan F64.nan 0 (Some (py "Greece"))
    ; mkRow 2015 mag_6_2 F64.nan F64.nan F64.nan 0 (Some (py "Greece")) ])).
  vm_compute. reflexivity.
Defined.

(** ** Selection state *)

Lemma selection_key_inj (v w : nat) : selection_key v = selection_key w -> v = w.
Proof.
  unfold selection_key. intros Heq.
  apply (inj (String.app _)) in Heq. apply (inj pretty) in Heq. exact Heq.
Qed.

Lemma init_version_set (s : Session) :
  is_Some (session_state s !! "barchart_version"%string) -> init_version s = s.
Proof. unfold init_version. intros [v ->]. reflexivity. Qed.

Lemma run_head_false_ok (s : Session) : session_ok s -> run_head false s = s.
Proof. intros [Hv _]. unfold run_head. apply init_version_set, Hv. Qed.

Lemma run_head_true_version (s : Session) :
  session_ok s ->
  barchart_version (run_head true s) = S (barchart_version s) /\
  components (run_head true s) = components s /\
  session_ok (run_head true s).
Proof.
  intros [Hv Hc]. unfold run_head. rewrite (init_version_set s Hv).
  rewrite init_version_set by (simpl; rewrite lookup_insert_eq; eauto).
  set (s' := mkSession _ _).
  assert (barchart_version s' = S (barchart_version s)) as Hs'.
  { unfold barchart_version at 1. simpl. rewrite lookup_insert_eq. reflexivity. }
  split; [exact Hs'|]. split; [reflexivity|]. split.
  - simpl. rewrite lookup_insert_eq. eauto.
  - rewrite Hs'. simpl. intros k sel Hk.
    destruct (Hc k sel Hk) as (v & Hle & ->). exists v. split; [lia|reflexivity].
Qed.

Lemma new_session_ok : session_ok (run_head false new_session).
Proof.
  unfold run_head, init_version, new_session. cbn [session_state components].
  rewrite lookup_empty. split.
  - cbn [session_state]. rewrite lookup_insert_eq. eauto.
  - cbn [components]. intros k sel Hk. rewrite lookup_empty in Hk. discriminate.
Qed.

Lemma click_ok (s : Session) (y : Z) :
  session_ok s ->
  session_ok (interact s (ClickBar y)) /\
  barchart_version (interact s (ClickBar y)) = barchart_version s /\
  selected (interact s (ClickBar y)) = [y].
Proof.
  intros [Hv Hc].
  assert (session_ok (mkSession (session_state s)
            (<[selection_key (barchart_version s) := [y]]> (components s)))) as Hok.
  { split; [exact Hv|]. unfold barchart_version at 2. simpl.
    fold (barchart_version s). intros k sel Hk.
    destruct (decide (selection_key (barchart_version s) = k)) as [<-|Hne].
    - exists (barchart_version s). split; [lia|reflexivity].
    - rewrite lookup_insert_ne in Hk by exact Hne. eauto. }
  cbn [interact]. rewrite (run_head_false_ok _ Hok). split; [exact Hok|].
  split; [reflexivity|].
  unfold selected, barchart_version. simpl. fold (barchart_version s).
  rewrite lookup_insert_eq. reflexivity.
Qed.

Lemma interact_ok (s : Session) (e : Event) : session_ok s -> session_ok (interact s e).
Proof.
  intros Hok. destruct e as [y| |].
  - apply click_ok, Hok.
  - cbn [interact]. apply run_head_true_version, Hok.
  - cbn [interact]. rewrite run_head_false_ok; assumption.
Qed.

Lemma session_after_ok (evs : list Event) : session_ok (session_after evs).
Proof.
  unfold session_after. generalize (run_head false new_session) new_session_ok.
  induction evs as [|e evs IH]; intros s Hs; simpl; [exact Hs|].
  apply IH, interact_ok, Hs.
Qed.

(** A chart shown under a new version has no selection. *)
Lemma show_all_clears (s : Session) :
  session_ok s -> selected (interact s ShowAllYears) = [].
Proof.
  intros Hok. destruct (run_head_true_version s Hok) as (Hv & Hc & _).
  cbn [interact]. unfold selected. rewrite Hv, Hc.
  destruct (components s !! selection_key (S (barchart_version s))) as [sel|] eqn:E;
    [|reflexivity].
  destruct Hok as [_ Hkeys]. destruct (Hkeys _ _ E) as (v & Hle & Hkey).
  apply selection_key_inj in Hkey. lia.
Qed.

(** C5: after any history of clicks, selecting the year Y filters the
    table to the rows of Y, and pressing "Show all years" next raises the
    version by one, leaves the chart without selection and gives back the
    whole table, as in a session where no year was ever selected. *)
Theorem show_all_restores (df : DataFrame) (evs : list Event) (Y : Z) :
  let s1 := interact (session_after evs) (ClickBar Y) in
  let s2 := interact s1 ShowAllYears in
  selected_year s1 = Some Y /\
  df_filtered df (selected_year s1) = List.filter (fun r => Z.eqb (year r) Y) df /\
  barchart_version s2 = S (barchart_version s1) /\
  selected s2 = [] /\
  df_filtered df (selected_year s2) = df /\
  df_filtered df (selected_year s2) = df_filtered df (selected_year (session_after [])).
Proof.
  intros s1 s2.
  pose proof (session_after_ok evs) as Hok.
  destruct (click_ok (session_after evs) Y Hok) as (Hok1 & Hv1 & Hsel1).
  fold s1 in Hok1, Hv1, Hsel1.
  pose proof (show_all_clears s1 Hok1) as Hsel2. fold s2 in Hsel2.
  destruct (run_head_true_version s1 Hok1) as (Hv2 & _ & _).
  change (run_head true s1) with s2 in Hv2.
  assert (selected_year s1 = Some Y) as HY by (unfold selected_year; rewrite Hsel1; reflexivity).
  assert (selected_year s2 = None) as HN by (unfold selected_year; rewrite Hsel2; reflexivity).
  split; [exact HY|]. split; [rewrite HY; reflexivity|].
  split; [exact Hv2|]. split; [exact Hsel2|].
  rewrite HN. split; reflexivity.
Qed.

(** ** The region selector and the pie chart *)

Lemma insert_sorted_elem {A : Type} (le : A -> A -> bool) (x y : A) (l : list A) :
  y ∈ insert_sorted le x l <-> y = x \/ y ∈ l.
Proof.
  induction l as [|z l IH]; simpl.
  - rewrite list_elem_of_singleton, elem_of_nil. tauto.
  - destruct (le x z); rewrite !elem_of_cons; [tauto|]. rewrite IH. tauto.
Qed.

Lemma stable_sort_elem {A : Type} (le : A -> A -> bool) (y : A) (l : list A) :
  y ∈ stable_sort le l <-> y ∈ l.
Proof.
  induction l as [|x l IH]; [reflexivity|].
  change (stable_sort le (x :: l)) with (insert_sorted le x (stable_sort le l)).
  rewrite insert_sorted_elem, elem_of_cons, IH. reflexivity.
Qed.

Lemma drop_duplicates_id_elem {A : Type} `{EqDecision A} (l seen : list A) (x : A) :
  x ∈ drop_duplicates id seen l <-> x ∈ l /\ x ∉ seen.
Proof.
  revert seen. induction l as [|a l IH]; intros seen; simpl.
  - rewrite elem_of_nil. tauto.
  - unfold id at 1 2. destruct (bool_decide (a ∈ seen)) eqn:E.
    + apply bool_decide_eq_true in E. rewrite IH, elem_of_cons.
      split; [tauto|]. intros [[->|Hx] Hs]; tauto.
    + apply bool_decide_eq_false in E. rewrite !elem_of_cons, IH, not_elem_of_cons.
      destruct (decide (x = a)) as [->|Hne]; tauto.
Qed.

(** The options of the selector are "All" and the region strings of the
    filtered table as they stand in it. *)
Lemma regions_elem (dff : DataFrame) (g : pystr) :
  g ∈ regions dff <-> g = py "All" \/ exists r, r ∈ dff /\ region r = Some g.
Proof.
  unfold regions. rewrite elem_of_cons, stable_sort_elem, drop_duplicates_id_elem.
  rewrite list_elem_of_omap, elem_of_nil. split.
  - intros [->|[(r & Hr & Hg) _]]; [left; reflexivity|right; eauto].
  - intros [->|(r & Hr & Hg)]; [left; reflexivity|right]. split; [eauto|tauto].
Qed.

Lemma df_pie_filtered_elem (dff : DataFrame) (region_selected : pystr) (r : Row) :
  r ∈ df_pie_filtered dff region_selected <->
  r ∈ dff /\ (region_selected = py "All" \/ region r = Some region_selected).
Proof.
  unfold df_pie_filtered. case_bool_decide as Hall.
  - tauto.
  - rewrite list_elem_of_In, filter_In, <- list_elem_of_In, bool_decide_eq_true. tauto.
Qed.

Lemma df_filtered_elem (df : DataFrame) (sel : option Z) (r : Row) :
  r ∈ df_filtered df sel <-> r ∈ df /\ (sel = None \/ sel = Some (year r)).
Proof.
  destruct sel as [y|]; simpl.
  - rewrite list_elem_of_In, filter_In, <- list_elem_of_In, Z.eqb_eq.
    split; [intros [? <-]; auto|intros [? [|[= ->]]]; [discriminate|auto]].
  - tauto.
Qed.

(** C6: when the rows left by the year filter and the region filter are
    none, the pie section shows the "no data" warning and no chart; when
    there are some, it shows the pie chart of their magnitude clusters. *)
Theorem pie_section_no_data (observed : bool) (df : DataFrame) (sel : option Z)
    (region_selected : pystr) :
  let subset := df_pie_filtered (df_filtered df sel) region_selected in
  (forall r, r ∈ subset <->
             r ∈ df /\ (sel = None \/ sel = Some (year r)) /\
             (region_selected = py "All" \/ region r = Some region_selected)) /\
  (subset = [] ->
   pie_section observed (df_filtered df sel) region_selected
   = NoData "No data for the selected year(s) and region.") /\
  (subset <> [] ->
   pie_section observed (df_filtered df sel) region_selected
   = PieChart (df_pie observed subset)).
Proof.
  intros subset. split; [|split].
  - intros r. subst subset. rewrite df_pie_filtered_elem, df_filtered_elem. tauto.
  - intros Hempty. unfold pie_section. fold subset. rewrite Hempty. reflexivity.
  - intros Hne. unfold pie_section. fold subset. destruct subset; [congruence|reflexivity].
Qed.

(** In the scenario, the year 2016 has no row of Greece and one of Italy. *)
Lemma pie_section_no_data_witness :
  let df := [ mkRow 2015 mag_6_2 F64.nan F64.nan F64.nan 0 (Some (py "Greece"))
            ; mkRow 2016 mag_5_1 F64.nan F64.nan F64.nan 0 (Some (py "Italy")) ] in
  pie_section false (df_filtered df (Some 2016)) (py "Greece")
  = NoData "No data for the selected year(s) and region." /\
  pie_section false (df_filtered df (Some 2016)) (py "Italy")
  = PieChart (df_pie false (df_pie_filtered (df_filtered df (Some 2016)) (py "Italy"))).
Proof.
  intros df. split.
  - apply (proj1 (proj2 (pie_section_no_data false df (Some 2016) (py "Greece")))).
    reflexivity.
  - apply (proj2 (proj2 (pie_section_no_data false df (Some 2016) (py "Italy")))).
    discriminate.
Defined.

(** C10: the options of the selector are "All" and the region strings
    of the filtered table as they stand there, the pie filter compares
    the same strings, and so an option other than "All" always leaves
    rows for the pie chart: the "no data" branch is not taken. *)
Theorem region_option_has_rows (observed : bool) (dff : DataFrame) :
  (forall g, g ∈ regions dff <-> g = py "All" \/ exists r, r ∈ dff /\ region r = Some g) /\
  (forall region_selected r,
     r ∈ df_pie_filtered dff region_selected <->
     r ∈ dff /\ (region_selected = py "All" \/ region r = Some region_selected)) /\
  (forall region_selected,
     region_selected ∈ regions dff -> region_selected <> py "All" ->
     df_pie_filtered dff region_selected <> [] /\
     pie_section observed dff region_selected
     = PieChart (df_pie observed (df_pie_filtered dff region_selected))).
Proof.
  split; [apply regions_elem|]. split; [apply df_pie_filtered_elem|].
  intros region_selected Hin Hne.
  apply regions_elem in Hin as [->|(r & Hr & Hg)]; [congruence|].
  assert (r ∈ df_pie_filtered dff region_selected) as Hsub
    by (apply df_pie_filtered_elem; auto).
  assert (df_pie_filtered dff region_selected <> []) as Hnonempty.
  { intros Hnil. rewrite Hnil in Hsub. apply elem_of_nil in Hsub. exact Hsub. }
  split; [exact Hnonempty|].
  unfold pie_section. destruct (df_pie_filtered dff region_selected); [congruence|reflexivity].
Qed.

(** The option " italy" is offered as written and has its row, although
    the choropleth counts it under "Italy". *)
Lemma region_option_has_rows_witness :
  let dff := [ mkRow 2016 mag_5_1 F64.nan F64.nan F64.nan 0 (Some (py " italy")) ] in
  df_pie_filtered dff (py " italy") <> [] /\
  pie_section false dff (py " italy")
  = PieChart (df_pie false (df_pie_filtered dff (py " italy"))).
Proof.
  intros dff.
  apply (proj2 (proj2 (region_option_has_rows false dff)) (py " italy")).
  - unfold regions, dff. simpl. right. left.
  - discriminate.
Defined.

(** ** The tectonic overlay *)

Lemma appends_lift {A : Type} (r : exn + A) : appends (py_lift r).
Proof. intros p. exists []. simpl. rewrite app_nil_r. auto. Qed.

Lemma appends_ret {A : Type} (a : A) : appends (py_ret a).
Proof. intros p. exists []. simpl. rewrite app_nil_r. auto. Qed.

Lemma appends_add_trace (t : Trace) : appends (add_trace t).
Proof. intros p. exists [t]. simpl. auto. Qed.

Lemma appends_bind {A B : Type} (m : Py A) (k : A -> Py B) :
  appends m -> (forall a, appends (k a)) -> appends (py_bind m k).
Proof.
  intros Hm Hk p. unfold py_bind. destruct (Hm p) as (e1 & Ht1 & Hw1).
  destruct (m p) as [p' [e|a]] eqn:E; simpl in *.
  - exists e1. auto.
  - destruct (Hk a p') as (e2 & Ht2 & Hw2). exists (e1 ++ e2).
    rewrite Ht2, Ht1, Hw2, Hw1, app_assoc. auto.
Qed.

Lemma appends_for {A : Type} (l : list A) (body : A -> Py unit) :
  (forall x, appends (body x)) -> appends (py_for l body).
Proof.
  intros Hbody. induction l as [|x l IH]; simpl.
  - apply appends_ret.
  - apply appends_bind; [apply Hbody|]. intros _. exact IH.
Qed.

Lemma appends_overlay_feature (feature : json) : appends (overlay_feature feature).
Proof.
  unfold overlay_feature.
  repeat (apply appends_bind; [apply appends_lift|intros ?]).
  destruct (is_LineString _); [|apply appends_ret].
  repeat (apply appends_bind; [apply appends_lift|intros ?]).
  apply appends_add_trace.
Qed.

(** The overlay code never raises, never removes a trace, and warns at
    most once. *)
Lemma overlay_total (show_tectonics : bool) (net : Reply) (p : Page) :
  exists extra ws,
    overlay show_tectonics net p
    = (mkPage (dot_traces p ++ extra) (warnings p ++ ws), inr tt)
    /\ (length ws <= 1)%nat.
Proof.
  unfold overlay. destruct show_tectonics.
  - unfold try_except.
    set (body := py_bind _ _).
    assert (appends body) as Hbody.
    { subst body. repeat (apply appends_bind; [apply appends_lift|intros ?]).
      apply appends_for, appends_overlay_feature. }
    destruct (Hbody p) as (extra & Ht & Hw).
    destruct (body p) as [[traces ws] [e|[]]]; simpl in *; subst.
    + exists extra, [e]. split; [reflexivity|simpl; lia].
    + exists extra, []. rewrite app_nil_r. split; [reflexivity|simpl; lia].
  - exists [], []. unfold py_ret. rewrite !app_nil_r. destruct p. split; [reflexivity|simpl; lia].
Qed.

(** When the fetch fails nothing is drawn and the failure is the warning. *)
Lemma overlay_fetch_failure (net : Reply) (e : exn) (p : Page) :
  load_tectonics net = inl e ->
  overlay true net p = (mkPage (dot_traces p) (warnings p ++ [e]), inr tt).
Proof.
  intros Hfail. unfold overlay, try_except, py_bind, py_lift. rewrite Hfail. reflexivity.
Qed.

Lemma load_tectonics_failures (net : Reply) :
  (exists e, load_tectonics net = inl e) <->
  net = TimedOut \/ net = Unreachable \/
  exists status body, net = Response status body /\
                      (400 <= status < 600 \/ body = None).
Proof.
  split.
  - intros [e He]. destruct net as [| |status body]; [auto..|].
    right. right. exists status, body. split; [reflexivity|].
    simpl in He. destruct (Z.leb_spec 400 status), (Z.ltb_spec status 600);
      simpl in He; try (left; lia); destruct body; (discriminate || auto).
  - intros [->|[->|(status & body & -> & Hbad)]]; simpl; [eauto..|].
    destruct (Z.leb_spec 400 status), (Z.ltb_spec status 600); simpl; eauto;
      destruct Hbad as [Hst|Hbody]; try lia; subst; eauto.
Qed.

(** C7: a time-out, an unreachable host, a status from 400 to 599 and a
    body that is not JSON are the failures of the fetch; each is caught,
    becomes the one warning, and the map goes to the page with the
    earthquake markers and no overlay.  Whatever the reply, the section
    ends without an exception and the markers are on the map. *)
Theorem fetch_failure_is_caught (dff : DataFrame) :
  (forall net, (exists e, load_tectonics net = inl e) <->
               net = TimedOut \/ net = Unreachable \/
               exists status body, net = Response status body /\
                                   (400 <= status < 600 \/ body = None)) /\
  (forall net e, load_tectonics net = inl e ->
                 dot_map_section true net dff = inr (mkPage (scatter_map dff) [e])) /\
  (forall show_tectonics net, exists extra ws,
     dot_map_section show_tectonics net dff = inr (mkPage (scatter_map dff ++ extra) ws)
     /\ (length ws <= 1)%nat).
Proof.
  split; [exact load_tectonics_failures|]. split.
  - intros net e Hfail. unfold dot_map_section.
    rewrite (overlay_fetch_failure net e _ Hfail). reflexivity.
  - intros show_tectonics net. unfold dot_map_section.
    destruct (overlay_total show_tectonics net (mkPage (scatter_map dff) []))
      as (extra & ws & -> & Hws).
    exists extra, ws. split; [reflexivity|exact Hws].
Qed.

(** The boundary server answers 500 while the scenario table is shown. *)
Lemma fetch_failure_is_caught_witness :
  let dff := [ mkRow 2016 mag_5_1 mag_5_1 mag_5_1 F64.nan 0 (Some (py "Italy")) ] in
  dot_map_section true (Response 500 None) dff
  = inr (mkPage (scatter_map dff) [HTTPError 500]).
Proof.
  intros dff.
  apply (proj1 (proj2 (fetch_failure_is_caught dff)) (Response 500 None) (HTTPError 500)).
  reflexivity.
Defined.

(** ** Which table every view reads *)

Lemma per_year_df_defined (df : DataFrame) : df <> [] -> is_Some (per_year_df df).
Proof.
  intros Hne. unfold per_year_df, top_mags.
  destruct df; [congruence|]. simpl. eexists. reflexivity.
Qed.

Lemma dot_map_section_total (show_tectonics : bool) (net : Reply) (dff : DataFrame) :
  exists extra ws,
    dot_map_section show_tectonics net dff = inr (mkPage (scatter_map dff ++ extra) ws).
Proof.
  unfold dot_map_section.
  destruct (overlay_total show_tectonics net (mkPage (scatter_map dff) []))
    as (extra & ws & -> & _).
  exists extra, ws. reflexivity.
Qed.

(** ** Region names *)

Module UnicodeFacts.
Import Unicode.
Local Open Scope N_scope.

(** A decidable property of the 128 ASCII code points is checked on each. *)
Lemma ascii_all (P : N -> Prop) `{forall c, Decision (P c)} :
  Forall P (map N.of_nat (seq 0 128)) -> forall c, is_ascii c = true -> P c.
Proof.
  intros Hall c Hc. unfold is_ascii in Hc. apply N.ltb_lt in Hc.
  rewrite Forall_forall in Hall. apply Hall.
  apply list_elem_of_In, in_map_iff. exists (N.to_nat c). split; [lia|].
  apply in_seq. lia.
Qed.

Ltac by_ascii_table :=
  match goal with
  | |- forall c, is_ascii c = true -> @?P c =>
      apply (ascii_all P); apply (bool_decide_unpack _); vm_compute; exact I
  end.

Lemma ascii_case_ascii (b : bool) :
  forall c, is_ascii c = true -> is_ascii (ascii_case b c) = true.
Proof. destruct b; by_ascii_table. Qed.

Lemma ascii_case_cased (b : bool) :
  forall c, is_ascii c = true -> ascii_cased (ascii_case b c) = ascii_cased c.
Proof. destruct b; by_ascii_table. Qed.

Lemma ascii_case_space (b : bool) :
  forall c, is_ascii c = true -> is_space (ascii_case b c) = is_space c.
Proof. destruct b; by_ascii_table. Qed.

Lemma ascii_case_idem (b : bool) :
  forall c, is_ascii c = true -> ascii_case b (ascii_case b c) = ascii_case b c.
Proof. destruct b; by_ascii_table. Qed.

Lemma space_uncased :
  forall c, is_ascii c = true -> is_space c = true -> ascii_cased c = false.
Proof. by_ascii_table. Qed.

Lemma ascii_case_of_space (b : bool) :
  forall c, is_ascii c = true -> is_space c = true -> ascii_case b c = c.
Proof. destruct b; by_ascii_table. Qed.

(** CPython's tables on ASCII. *)
Lemma cpython_ascii_table :
  forall c, is_ascii c = true ->
    is_cased c = ascii_cased c /\ to_title_full c = [ascii_case false c] /\
    (c =? 0x3A3) = false /\ to_lower_full c = [ascii_case true c].
Proof. by_ascii_table. Qed.

Lemma cpython_ascii_rules : ascii_rules cpython.
Proof.
  intros c Hc. destruct (cpython_ascii_table c Hc) as (Hcased & Htitle & Hsigma & Hlower).
  split; [exact Hcased|]. split; [exact Htitle|].
  intros before after. cbn [cpython db_to_lower]. unfold lower_ucs4.
  rewrite Hsigma. exact Hlower.
Qed.

End UnicodeFacts.

(** Stripping from the left and from the right, for all strings. *)
Lemma lstrip_app (s t : pystr) :
  lstrip (s ++ t) = match lstrip s with [] => lstrip t | u => u ++ t end.
Proof.
  induction s as [|c s IH]; simpl; [destruct (lstrip t); reflexivity|].
  destruct (Unicode.is_space c); [exact IH|reflexivity].
Qed.

(** [rstrip] from the left: a character stays unless it and all that
    follows is white space. *)
Lemma rstrip_cons (c : N) (s : pystr) :
  rstrip (c :: s) =
  match rstrip s with
  | [] => if Unicode.is_space c then [] else [c]
  | u => c :: u
  end.
Proof.
  unfold rstrip. rewrite reverse_cons, lstrip_app.
  destruct (lstrip (reverse s)) as [|x u] eqn:E.
  - simpl. destruct (Unicode.is_space c); reflexivity.
  - rewrite reverse_app. simpl.
    destruct (reverse (x :: u)) as [|y v] eqn:E'; [|reflexivity].
    apply (f_equal length) in E'. rewrite length_reverse in E'. discriminate.
Qed.

Lemma rstrip_app (s t : pystr) :
  rstrip (s ++ t) = match rstrip t with [] => rstrip s | u => s ++ u end.
Proof.
  induction s as [|c s IH]; [simpl; destruct (rstrip t); reflexivity|].
  change ((c :: s) ++ t) with (c :: (s ++ t)). rewrite !rstrip_cons, IH.
  destruct (rstrip t) as [|x u]; [reflexivity|].
  destruct (s ++ x :: u) as [|y v] eqn:E; [destruct s; discriminate|].
  rewrite <- E. reflexivity.
Qed.

Lemma lstrip_idem (s : pystr) : lstrip (lstrip s) = lstrip s.
Proof.
  induction s as [|c s IH]; [reflexivity|]. simpl.
  destruct (Unicode.is_space c) eqn:E; [exact IH|]. simpl. rewrite E. reflexivity.
Qed.

Lemma rstrip_idem (s : pystr) : rstrip (rstrip s) = rstrip s.
Proof. unfold rstrip. rewrite reverse_involutive, lstrip_idem. reflexivity. Qed.

Lemma lstrip_rstrip_lstrip (s : pystr) : lstrip (rstrip (lstrip s)) = rstrip (lstrip s).
Proof.
  induction s as [|c s IH]; [reflexivity|]. cbn [lstrip].
  destruct (Unicode.is_space c) eqn:E; [exact IH|].
  rewrite rstrip_cons. destruct (rstrip s); rewrite ?E; simpl; rewrite E; reflexivity.
Qed.

Lemma strip_idem (s : pystr) : strip (strip s) = strip s.
Proof. unfold strip. rewrite lstrip_rstrip_lstrip. apply rstrip_idem. Qed.

Lemma lstrip_not_space (x : N) (s : pystr) :
  Unicode.is_space x = false -> lstrip (x :: s) = x :: s.
Proof. intros E. simpl. rewrite E. reflexivity. Qed.

Lemma rstrip_not_space (s : pystr) (y : N) :
  last s = Some y -> Unicode.is_space y = false -> rstrip s = s.
Proof.
  intros Hlast E. unfold rstrip.
  rewrite <- head_reverse in Hlast.
  destruct (reverse s) as [|x u] eqn:Hrev; [discriminate|].
  injection Hlast as ->. rewrite (lstrip_not_space y u E), <- Hrev.
  apply reverse_involutive.
Qed.

Lemma edges_not_space_inv (xs : pystr) :
  edges_not_space xs = true ->
  exists x xs' y, xs = x :: xs' /\ Unicode.is_space x = false /\
                  last xs = Some y /\ Unicode.is_space y = false.
Proof.
  unfold edges_not_space. destruct xs as [|x xs']; [discriminate|].
  cbn [head]. destruct (last (x :: xs')) as [y|]; [|discriminate].
  intros H. apply andb_true_iff in H as [Hx Hy].
  apply negb_true_iff in Hx, Hy. exists x, xs', y. auto.
Qed.

(** *** Characters that title-casing leaves stable *)

Section TitleStable.
Variable db : CaseTables.

Lemma reproduced_nil (b : bool) : reproduced db b [] b.
Proof. intros before rest. reflexivity. Qed.

Lemma reproduced_app (b b' b'' : bool) (xs ys : pystr) :
  reproduced db b xs b' -> reproduced db b' ys b'' -> reproduced db b (xs ++ ys) b''.
Proof.
  intros Hx Hy before rest.
  rewrite <- !app_assoc, Hx, Hy, reverse_app, <- app_assoc. reflexivity.
Qed.

Lemma reproduced_fixed (b b' : bool) (xs before : pystr) :
  reproduced db b xs b' -> do_title db before b xs = xs.
Proof.
  intros H. specialize (H before []). rewrite !app_nil_r in H. exact H.
Qed.

(** What the first pass writes is written again by a second pass. *)
Lemma do_title_reproduced (s : pystr) :
  Forall (title_stable db) s ->
  forall before b, exists b', reproduced db b (do_title db before b s) b'.
Proof.
  induction 1 as [|c s Hc Hs IH]; intros before b.
  - exists b. apply reproduced_nil.
  - cbn [do_title].
    destruct (IH (c :: before) (db_is_cased db c)) as [b' Hb'].
    exists b'. eapply reproduced_app; [|exact Hb'].
    apply (Hc before b s).
Qed.

(** Leading white space is written as it is and leaves the title-casing
    where it started. *)
Lemma lstrip_do_title_stable (s : pystr) :
  Forall (title_stable db) s ->
  forall before, exists before',
    lstrip (do_title db before false s) = do_title db before' false (lstrip s).
Proof.
  induction 1 as [|c s Hc Hs IH]; intros before.
  - exists before. reflexivity.
  - cbn [do_title lstrip]. destruct (Hc before false s) as [_ Hedges].
    destruct (Unicode.is_space c) eqn:Hsp.
    + destruct Hedges as [-> ->]. simpl. rewrite Hsp. apply IH.
    + exists before. apply edges_not_space_inv in Hedges as (x & xs' & y & Hxs & Hx & _).
      cbn [do_title]. rewrite Hxs. apply (lstrip_not_space x _ Hx).
Qed.

(** What is left of the first pass when trailing white space is removed
    is still written again by a second pass. *)
Lemma rstrip_do_title_reproduced (s : pystr) :
  Forall (title_stable db) s ->
  forall before b, exists b', reproduced db b (rstrip (do_title db before b s)) b'.
Proof.
  induction 1 as [|c s Hc Hs IH]; intros before b.
  - exists b. apply reproduced_nil.
  - cbn [do_title]. rewrite rstrip_app.
    destruct (IH (c :: before) (db_is_cased db c)) as [b' Hb'].
    destruct (Hc before b s) as [Hrep Hedges].
    destruct (rstrip (do_title db (c :: before) (db_is_cased db c) s)) as [|x u].
    + destruct (Unicode.is_space c) eqn:Hsp.
      * destruct Hedges as [-> _]. rewrite rstrip_cons. cbn. rewrite Hsp.
        exists b. apply reproduced_nil.
      * apply edges_not_space_inv in Hedges as (_ & _ & y & _ & _ & Hlast & Hy).
        rewrite (rstrip_not_space _ y Hlast Hy). eexists. exact Hrep.
    + exists b'. eapply reproduced_app; [exact Hrep|exact Hb'].
Qed.

Lemma lstrip_stable (s : pystr) :
  Forall (title_stable db) s -> Forall (title_stable db) (lstrip s).
Proof.
  induction 1 as [|c s Hc Hs IH]; simpl; [constructor|].
  destruct (Unicode.is_space c); [exact IH|constructor; assumption].
Qed.

Lemma normalize_fixed_by_title (r : pystr) :
  Forall (title_stable db) r -> title db (normalize db r) = normalize db r.
Proof.
  intros Hr. unfold normalize, strip, title.
  destruct (lstrip_do_title_stable r Hr []) as [before' ->].
  destruct (rstrip_do_title_reproduced (lstrip r) (lstrip_stable r Hr) before' false)
    as [b' Hb'].
  apply (reproduced_fixed false b' _ [] Hb').
Qed.

End TitleStable.

(** C8 (amended): title-casing and trimming a second time changes
    nothing in a region name whose characters are stable under
    title-casing, whatever the case tables. *)
Theorem normalize_idempotent_stable (db : CaseTables) (r : pystr) :
  Forall (title_stable db) r ->
  normalize db (normalize db r) = normalize db r.
Proof.
  intros Hr. unfold normalize at 1.
  rewrite (normalize_fixed_by_title db r Hr).
  unfold normalize. apply strip_idem.
Qed.

(** *** ASCII names *)

Section AsciiTitle.
Import Unicode UnicodeFacts.
Variable db : CaseTables.
Hypothesis Hdb : ascii_rules db.

Lemma title_step_ascii (before : pystr) (b : bool) (c : N) (after : pystr) :
  is_ascii c = true -> title_step db before b c after = [ascii_case b c].
Proof.
  intros Hc. destruct (Hdb c Hc) as (_ & Htitle & Hlower).
  unfold title_step. destruct b; [apply Hlower|exact Htitle].
Qed.

Lemma cased_ascii (c : N) : is_ascii c = true -> db_is_cased db c = ascii_cased c.
Proof. intros Hc. apply (Hdb c Hc). Qed.

(** On ASCII strings [str.title] changes every character on its own. *)
Lemma do_title_ascii_cons (before : pystr) (b : bool) (c : N) (s : pystr) :
  is_ascii c = true ->
  do_title db before b (c :: s) = ascii_case b c :: do_title db (c :: before) (ascii_cased c) s.
Proof.
  intros Hc. cbn [do_title].
  rewrite (title_step_ascii before b c s Hc), (cased_ascii c Hc). reflexivity.
Qed.

Lemma do_title_ascii_context (before before' : pystr) (b : bool) (s : pystr) :
  is_ascii_str s -> do_title db before b s = do_title db before' b s.
Proof.
  intros Hs. revert before before' b.
  induction Hs as [|c s Hc Hs IH]; intros before before' b; [reflexivity|].
  rewrite !(do_title_ascii_cons _ b c s Hc). f_equal. apply IH.
Qed.

Lemma do_title_ascii (before : pystr) (b : bool) (s : pystr) :
  is_ascii_str s -> is_ascii_str (do_title db before b s).
Proof.
  intros Hs. revert before b. induction Hs as [|c s Hc Hs IH]; intros before b.
  - constructor.
  - rewrite (do_title_ascii_cons before b c s Hc). constructor; [|apply IH].
    apply ascii_case_ascii, Hc.
Qed.

Lemma do_title_nil_iff (before : pystr) (b : bool) (s : pystr) :
  is_ascii_str s -> (do_title db before b s = [] <-> s = []).
Proof.
  intros Hs. destruct Hs as [|c s Hc Hs]; [tauto|].
  rewrite (do_title_ascii_cons before b c s Hc). split; discriminate.
Qed.

Lemma lstrip_ascii (s : pystr) : is_ascii_str s -> is_ascii_str (lstrip s).
Proof.
  induction 1 as [|c s Hc Hs IH]; simpl; [constructor|].
  destruct (is_space c); [exact IH|constructor; assumption].
Qed.

Lemma rstrip_ascii (s : pystr) : is_ascii_str s -> is_ascii_str (rstrip s).
Proof.
  induction 1 as [|c s Hc Hs IH]; [constructor|].
  rewrite rstrip_cons. destruct (rstrip s) as [|x u].
  - destruct (is_space c); constructor; [assumption|constructor].
  - constructor; assumption.
Qed.

(** Leading white space is uncased and unchanged, so it can be removed
    before or after. *)
Lemma lstrip_do_title (before : pystr) (s : pystr) :
  is_ascii_str s ->
  lstrip (do_title db before false s) = do_title db before false (lstrip s).
Proof.
  intros Hs. revert before. induction Hs as [|c s Hc Hs IH]; intros before; [reflexivity|].
  rewrite (do_title_ascii_cons before false c s Hc). cbn [lstrip].
  rewrite (ascii_case_space false c Hc).
  destruct (is_space c) eqn:Hsp.
  - rewrite (space_uncased c Hc Hsp), IH.
    apply do_title_ascii_context, lstrip_ascii, Hs.
  - rewrite (do_title_ascii_cons before false c s Hc). reflexivity.
Qed.

Lemma rstrip_do_title (before : pystr) (b : bool) (s : pystr) :
  is_ascii_str s -> rstrip (do_title db before b s) = do_title db before b (rstrip s).
Proof.
  intros Hs. revert before b. induction Hs as [|c s Hc Hs IH]; intros before b; [reflexivity|].
  rewrite (do_title_ascii_cons before b c s Hc), !rstrip_cons, IH.
  rewrite (ascii_case_space b c Hc).
  pose proof (do_title_nil_iff (c :: before) (ascii_cased c) (rstrip s) (rstrip_ascii s Hs))
    as Hnil.
  destruct (rstrip s) as [|x u] eqn:E.
  - simpl. destruct (is_space c); [reflexivity|].
    rewrite (do_title_ascii_cons before b c [] Hc). reflexivity.
  - destruct (do_title db (c :: before) (ascii_cased c) (x :: u)) as [|y v] eqn:E'.
    + destruct Hnil as [Hnil _]. specialize (Hnil eq_refl). discriminate.
    + rewrite (do_title_ascii_cons before b c (x :: u) Hc), E'. reflexivity.
Qed.

Lemma strip_title (s : pystr) :
  is_ascii_str s -> strip (title db s) = title db (strip s).
Proof.
  intros Hs. unfold strip, title.
  rewrite (lstrip_do_title [] s Hs). apply rstrip_do_title, lstrip_ascii, Hs.
Qed.

(** Every ASCII character is stable. *)
Lemma ascii_title_stable (c : N) : is_ascii c = true -> title_stable db c.
Proof.
  intros Hc before b after. rewrite (title_step_ascii before b c after Hc). split.
  - intros before' rest. change ([ascii_case b c] ++ rest) with (ascii_case b c :: rest).
    rewrite do_title_ascii_cons by (apply ascii_case_ascii, Hc).
    rewrite (ascii_case_idem b c Hc), (ascii_case_cased b c Hc), (cased_ascii c Hc).
    reflexivity.
  - destruct (is_space c) eqn:Hsp.
    + rewrite (ascii_case_of_space b c Hc Hsp), (cased_ascii c Hc), (space_uncased c Hc Hsp).
      split; reflexivity.
    + unfold edges_not_space. cbn [head last].
      rewrite (ascii_case_space b c Hc), Hsp. reflexivity.
Qed.

End AsciiTitle.

(** *** CPython's tables *)

Module CPythonFacts.
Import Unicode.
Local Open Scope N_scope.

Lemma in_ranges_app (l1 l2 : list (N * N)) (c : N) :
  in_ranges (l1 ++ l2) c = in_ranges l1 c || in_ranges l2 c.
Proof. apply existsb_app. Qed.

(** A code point outside the runs and the special cases is mapped to
    itself. *)
Lemma lookup_runs_outside (l : list (N * N * N * N)) (c : N) :
  in_ranges (map (fun r => (r.1.1.1, r.1.1.2)) l) c = false -> lookup_runs l c = None.
Proof.
  induction l as [|[[[first last] step] image] l IH]; [reflexivity|].
  cbn [map in_ranges existsb lookup_runs run_image fst snd]. intros H.
  apply orb_false_iff in H as [H1 H2]. rewrite H1. apply IH, H2.
Qed.

Lemma find_special_outside (l : list (N * list N)) (c : N) :
  in_ranges (map (fun p => (p.1, p.1)) l) c = false ->
  List.find (fun p => p.1 =? c) l = None.
Proof.
  induction l as [|[k v] l IH]; [reflexivity|].
  cbn [map in_ranges existsb List.find fst snd]. intros H.
  apply orb_false_iff in H as [H1 H2].
  destruct (N.eqb_spec k c) as [->|_].
  - rewrite N.leb_refl in H1. discriminate.
  - apply IH, H2.
Qed.

Lemma full_mapping_outside (runs : list (N * N * N * N)) (special : list (N * list N))
    (c : N) :
  in_ranges (map (fun r => (r.1.1.1, r.1.1.2)) runs) c = false ->
  in_ranges (map (fun p => (p.1, p.1)) special) c = false ->
  full_mapping runs special c = [c].
Proof.
  intros Hr Hs. unfold full_mapping.
  rewrite (find_special_outside special c Hs), (lookup_runs_outside runs c Hr). reflexivity.
Qed.

(** The code points of a list of ranges. *)
Lemma in_ranges_points (l : list (N * N)) (c : N) :
  in_ranges l c = true -> c ∈ flat_map range_points l.
Proof.
  unfold in_ranges. rewrite existsb_exists. intros ([first last] & Hin & Hc).
  apply list_elem_of_In, in_flat_map. exists (first, last). split; [exact Hin|].
  cbn [fst snd] in Hc. apply andb_true_iff in Hc as [H1 H2].
  apply N.leb_le in H1, H2. unfold range_points. cbn [fst snd].
  apply in_map_iff. exists (N.to_nat (c - first)). split; [lia|].
  apply in_seq. lia.
Qed.

(** A string without a capital sigma to lower is written again if every
    character is mapped to itself. *)
Lemma rewrite_check_sound (xs : pystr) :
  forall b b', rewrite_check b xs = Some b' -> reproduced cpython b xs b'.
Proof.
  induction xs as [|x xs IH]; intros b b'.
  - intros [= <-]. intros before rest. reflexivity.
  - cbn [rewrite_check].
    destruct ((negb b || negb (x =? 0x3A3)) && bool_decide (plain_step b x = [x])) eqn:E;
      [|discriminate].
    apply andb_true_iff in E as [Hsigma Hfix]. apply bool_decide_eq_true in Hfix.
    intros Hrest before rest.
    change ((x :: xs) ++ rest) with (x :: (xs ++ rest)). cbn [do_title].
    assert (title_step cpython before b x (xs ++ rest) = [x]) as ->.
    { unfold title_step. cbn [cpython db_to_lower db_to_title]. unfold lower_ucs4.
      unfold plain_step in Hfix. destruct b; [|exact Hfix].
      cbn in Hsigma. apply negb_true_iff in Hsigma. rewrite Hsigma. exact Hfix. }
    cbn [cpython db_is_cased].
    rewrite (IH _ _ Hrest (x :: before) rest), reverse_cons, <- app_assoc. reflexivity.
Qed.

Lemma stable_check_sound (c : N) : stable_check c = true -> title_stable cpython c.
Proof.
  unfold stable_check. intros H.
  apply andb_true_iff in H as [Hsigma H]. apply negb_true_iff in Hsigma.
  intros before b after.
  assert (title_step cpython before b c after = plain_step b c) as ->.
  { unfold title_step, plain_step. cbn [cpython db_to_lower db_to_title].
    unfold lower_ucs4. rewrite Hsigma. reflexivity. }
  assert (stable_check_in b c = true) as Hb.
  { cbn [forallb] in H. apply andb_true_iff in H as [Hf Ht].
    apply andb_true_iff in Ht as [Ht _]. destruct b; assumption. }
  unfold stable_check_in in Hb. cbv zeta in Hb.
  apply andb_true_iff in Hb as [Hrep Hedges].
  apply bool_decide_eq_true in Hrep. split.
  - apply rewrite_check_sound, Hrep.
  - destruct (is_space c); [|exact Hedges].
    apply andb_true_iff in Hedges as [Hxs Hc]. apply bool_decide_eq_true in Hxs.
    apply negb_true_iff in Hc. split; assumption.
Qed.

(** The capital sigma is lowered to one of the two small sigmas, which
    are both written again. *)
Lemma sigma_stable : title_stable cpython 0x3A3.
Proof.
  intros before b after. destruct b.
  - change (title_step cpython before true 0x3A3 after)
      with [handle_capital_sigma before after].
    unfold handle_capital_sigma. destruct (final_sigma before after).
    + split; [apply rewrite_check_sound|]; vm_compute; reflexivity.
    + split; [apply rewrite_check_sound|]; vm_compute; reflexivity.
  - change (title_step cpython before false 0x3A3 after) with (to_title_full 0x3A3).
    split; [apply rewrite_check_sound|]; vm_compute; reflexivity.
Qed.

(** Outside the tables a code point is uncased and mapped to itself. *)
Lemma outside_tables_stable (c : N) : in_ranges table_ranges c = false -> title_stable cpython c.
Proof.
  unfold table_ranges. rewrite !in_ranges_app. intros H.
  apply orb_false_iff in H as [Hcased H]. apply orb_false_iff in H as [Htr H].
  apply orb_false_iff in H as [Hts H]. apply orb_false_iff in H as [Hlr Hls].
  assert ((c =? 0x3A3) = false) as Hsigma.
  { destruct (N.eqb_spec c 0x3A3) as [->|]; [|reflexivity].
    vm_compute in Hcased. discriminate. }
  assert (forall before b after, title_step cpython before b c after = [c]) as Hstep.
  { intros before b after. unfold title_step. cbn [cpython db_to_lower db_to_title].
    unfold lower_ucs4, to_lower_full, to_title_full. rewrite Hsigma.
    destruct b; apply full_mapping_outside; assumption. }
  intros before b after. rewrite Hstep. cbn [cpython db_is_cased].
  unfold is_cased. rewrite Hcased. split.
  - intros before' rest. change ([c] ++ rest) with (c :: rest). cbn [do_title].
    rewrite Hstep. cbn [cpython db_is_cased]. unfold is_cased. rewrite Hcased.
    reflexivity.
  - destruct (is_space c) eqn:Hsp; [split; reflexivity|].
    unfold edges_not_space. cbn [head last]. rewrite Hsp. reflexivity.
Qed.

(** Every code point of the tables but the 28 of [cpython_unstable]
    passes the check. *)
Lemma table_points_checked :
  forallb (fun c => bool_decide (c ∈ cpython_unstable) || (c =? 0x3A3) || stable_check c)
          (flat_map range_points table_ranges) = true.
Proof. vm_compute. reflexivity. Qed.

Lemma cpython_title_stable (c : N) : c ∉ cpython_unstable -> title_stable cpython c.
Proof.
  intros Hc. destruct (in_ranges table_ranges c) eqn:E.
  - apply in_ranges_points in E.
    pose proof table_points_checked as Hall. rewrite forallb_forall in Hall.
    specialize (Hall c (proj1 (list_elem_of_In _ _) E)).
    apply orb_true_iff in Hall as [Hall|Hall]; [|apply stable_check_sound, Hall].
    apply orb_true_iff in Hall as [Hall|Hall].
    + apply bool_decide_eq_true in Hall. contradiction.
    + apply N.eqb_eq in Hall. subst c. apply sigma_stable.
  - apply outside_tables_stable, E.
Qed.

End CPythonFacts.

(** " öSTERREICH-ungarn ", with U+00F6. *)
Lemma normalize_idempotent_stable_witness :
  normalize cpython (normalize cpython OESTERREICH) = normalize cpython OESTERREICH.
Proof.
  apply (normalize_idempotent_stable cpython OESTERREICH).
  apply Forall_forall. intros c Hc. apply CPythonFacts.cpython_title_stable.
  revert c Hc. apply Forall_forall. apply (bool_decide_unpack _). vm_compute. exact I.
Defined.

(** C8 as stated fails with CPython's tables on "TÜRKİYE": the first
    pass lowers U+0130 to [i] and a combining dot, which is uncased, so
    the second pass takes the following [y] for the start of a word:
    "Türki̇ye" becomes "Türki̇Ye". *)
Lemma normalize_not_idempotent :
  normalize cpython TURKIYE = [84; 0xFC; 114; 107; 105; 0x307; 121; 101]%N /\
  normalize cpython (normalize cpython TURKIYE)
  = [84; 0xFC; 114; 107; 105; 0x307; 89; 101]%N /\
  normalize cpython (normalize cpython TURKIYE) <> normalize cpython TURKIYE.
Proof. vm_compute. repeat split. discriminate. Qed.

(** ** Worked examples *)

(** An edge belongs to the bucket above it: 5.15 is labelled 5.2–5.3. *)
Example magnitude_on_edge :
  magnitude_category (F64.lit 5798384520239514) = Some "5.2–5.3"%string.
Proof. reflexivity. Qed.

(** Values outside the edges and missing values get no label. *)
Example magnitude_without_label :
  magnitude_category (F64.lit 5629499534213119) = None /\
  magnitude_category F64.nan = None.
Proof. split; reflexivity. Qed.

Example count_bin_values :
  map count_bin [0; 1; 2; 3; 4; 6; 7; 10; 11; 20; 21] =
  map Some [ "1"; "1"; "2–3"; "2–3"; "4–6"; "4–6"; "7–10"; "7–10"
           ; "11–20"; "11–20"; "21+" ]%string.
Proof. reflexivity. Qed.

(** With as many rows, the region that sorts first is the top region;
    a year whose rows have no region has none. *)
Example top_region_tie :
  per_year_df
    [ mkRow 2015 mag_5_1 F64.nan F64.nan F64.nan 0 (Some (py "Italy"))
    ; mkRow 2015 mag_6_2 F64.nan F64.nan F64.nan 0 (Some (py "Greece"))
    ; mkRow 2014 F64.nan F64.nan F64.nan F64.nan 0 None ]
  = Some [ mkYS 2014 1 None F64.nan F64.nan F64.nan
         ; mkYS 2015 2 (Some (py "Greece")) mag_6_2 mag_5_1 F64.nan ].
Proof. vm_compute. reflexivity. Qed.

Example per_year_df_no_rows : per_year_df [] = None.
Proof. reflexivity. Qed.

Example selection_key_3 : selection_key 3 = "year_bar_selection_3"%string.
Proof. reflexivity. Qed.

(** A payload that fails in the middle of the loop leaves the lines drawn
    before on the map, with the warning. *)
Example overlay_stops_at_gap :
  dot_map_section true (Response 200 (Some payload_with_gap)) []
  = inr (mkPage [Lines [JInt 1; JInt 3] [JInt 2; JInt 4]] [KeyError]).
Proof. reflexivity. Qed.

(** Title-casing with CPython's tables: a letter after a letter is
    lowered, the capital sigma at the end of a word to the final sigma. *)
Example title_with_final_sigma :
  title cpython [0x39F; 0x394; 0x39F; 0x3A3; 0x20; 0xED; 0x53]%N
  = [0x39F; 0x3B4; 0x3BF; 0x3C2; 0x20; 0xCD; 0x73]%N.
Proof. vm_compute. reflexivity. Qed.

(** "ísland " becomes "Ísland". *)
Example normalize_island :
  normalize cpython [0xED; 115; 108; 97; 110; 100; 32]%N = [0xCD; 115; 108; 97; 110; 100]%N.
Proof. vm_compute. reflexivity. Qed.

(** A character of a JSON string is one item, however many bytes it
    takes. *)
Example chars_of_text : chars "aé" = [JStr "a"; JStr "é"].
Proof. reflexivity. Qed.

(** Rows without a magnitude category are all drawn in one trace. *)
Example scatter_map_without_category :
  let dff := [ mkRow 2016 F64.nan mag_5_1 mag_5_1 F64.nan 0 None
             ; mkRow 2017 F64.nan mag_5_1 mag_5_1 F64.nan 0 None ] in
  scatter_map dff = [Markers "nan" dff].
Proof. reflexivity. Qed.

(** A file in which no row has a region ends the run at line 173. *)
Example app_without_regions :
  app cpython false [mkRow 2016 mag_5_1 mag_5_1 mag_5_1 F64.nan 0 None]
      (session_after []) false TimedOut (py "All")
  = None.
Proof. reflexivity. Qed.

(** The selector offers a region as written, the choropleth counts it
    under its normalised name. *)
Example raw_and_normalised_regions :
  let dff := [ mkRow 2016 mag_5_1 F64.nan F64.nan F64.nan 0 (Some (py " italy"))
             ; mkRow 2016 mag_5_1 F64.nan F64.nan F64.nan 0 (Some (py "ITALY")) ] in
  regions dff = [py "All"; py " italy"; py "ITALY"] /\
  by_region cpython dff = [mkRB (py "Italy") 2 (Some "2–3"%string)].
Proof. split; vm_compute; reflexivity. Qed.

(** * Further properties *)

(** ** Stable sorting *)

Section StableSort.
Context {A : Type} (le : A -> A -> bool).

Lemma insert_sorted_perm (x : A) (l : list A) : insert_sorted le x l ≡ₚ x :: l.
Proof.
  induction l as [|y l IH]; simpl; [reflexivity|].
  destruct (le x y); [reflexivity|].
  rewrite IH. apply Permutation_swap.
Qed.

Lemma stable_sort_perm (l : list A) : stable_sort le l ≡ₚ l.
Proof.
  induction l as [|x l IH]; [reflexivity|].
  change (stable_sort le (x :: l)) with (insert_sorted le x (stable_sort le l)).
  rewrite insert_sorted_perm, IH. reflexivity.
Qed.

Lemma stable_sort_length (l : list A) : length (stable_sort le l) = length l.
Proof. apply Permutation_length, stable_sort_perm. Qed.

(** The order is only asked to be total and transitive on the elements
    that satisfy [P]. *)
Variable P : A -> Prop.
Hypothesis le_total : forall a b, P a -> P b -> le a b = false -> le b a = true.
Hypothesis le_trans :
  forall a b c, P a -> P b -> P c -> le a b = true -> le b c = true -> le a c = true.

Variable R : A -> A -> Prop.

Lemma insert_sorted_keeping (x : A) (l : list A) :
  P x -> Forall P l -> Forall (R x) l ->
  StronglySorted (sorted_keeping le R) l ->
  StronglySorted (sorted_keeping le R) (insert_sorted le x l).
Proof.
  intros Hx HP HR Hs. induction Hs as [|y l Hs IH Hall]; simpl.
  - repeat constructor.
  - apply Forall_cons in HP as [Hy HP]. apply Forall_cons in HR as [HRy HR].
    destruct (le x y) eqn:E.
    + constructor; [constructor; assumption|].
      constructor; [split; auto|].
      rewrite Forall_forall in Hall, HP, HR. apply Forall_forall. intros z Hz.
      destruct (Hall z Hz) as [Hyz _]. split; [|auto].
      apply (le_trans x y z); auto.
    + constructor; [apply IH; assumption|].
      apply Forall_forall. intros z Hz.
      apply insert_sorted_elem in Hz as [->|Hz].
      * split; [apply le_total; assumption|]. intros Hxy. congruence.
      * rewrite Forall_forall in Hall. auto.
Qed.

Lemma stable_sort_keeping (l : list A) :
  Forall P l -> StronglySorted R l ->
  StronglySorted (sorted_keeping le R) (stable_sort le l).
Proof.
  intros HP Hs. induction Hs as [|x l Hs IH Hall]; [constructor|].
  apply Forall_cons in HP as [Hx HP].
  change (stable_sort le (x :: l)) with (insert_sorted le x (stable_sort le l)).
  apply insert_sorted_keeping; [assumption| | |auto].
  - rewrite stable_sort_perm. exact HP.
  - rewrite stable_sort_perm. exact Hall.
Qed.

End StableSort.

Lemma StronglySorted_any {A : Type} (l : list A) :
  StronglySorted (fun _ _ => True) l.
Proof. induction l; constructor; [assumption|]. apply Forall_forall. auto. Qed.

Lemma StronglySorted_weaken {A : Type} (R R' : A -> A -> Prop) (l : list A) :
  (forall a b, a ∈ l -> b ∈ l -> R a b -> R' a b) ->
  StronglySorted R l -> StronglySorted R' l.
Proof.
  intros HRR Hs. induction Hs as [|x l Hs IH Hall]; constructor.
  - apply IH. intros a b Ha Hb. apply HRR; right; assumption.
  - rewrite Forall_forall in Hall. apply Forall_forall. intros y Hy.
    apply HRR; [left|right; assumption|auto].
Qed.

(** A stable sort by a total, transitive order gives a sorted list. *)
Lemma stable_sort_StronglySorted {A : Type} (le : A -> A -> bool) (P : A -> Prop)
    (l : list A) :
  (forall a b, P a -> P b -> le a b = false -> le b a = true) ->
  (forall a b c, P a -> P b -> P c -> le a b = true -> le b c = true -> le a c = true) ->
  Forall P l ->
  StronglySorted (fun a b => le a b = true) (stable_sort le l).
Proof.
  intros Htot Htrans HP.
  apply (StronglySorted_weaken (sorted_keeping le (fun _ _ => True))).
  - intros a b _ _ [Hab _]. exact Hab.
  - apply (stable_sort_keeping le P Htot Htrans); [exact HP|apply StronglySorted_any].
Qed.

(** ** The selection across a history of events *)

Lemma new_session_selected : selected (run_head false new_session) = [].
Proof.
  unfold selected, run_head, init_version, new_session. cbn [session_state components].
  rewrite lookup_empty. cbn [components]. rewrite lookup_empty. reflexivity.
Qed.

Lemma new_session_version : barchart_version (run_head false new_session) = 0%nat.
Proof.
  unfold barchart_version, run_head, init_version, new_session. cbn [session_state].
  rewrite lookup_empty. cbn [session_state]. rewrite lookup_insert_eq. reflexivity.
Qed.

Lemma history_fold (evs : list Event) (s : Session) (acc : option Z) :
  session_ok s ->
  selected s = option_list acc ->
  selected (foldl interact s evs)
  = option_list (foldl (fun acc e =>
                          match e with
                          | ClickBar y => Some y
                          | ShowAllYears => None
                          | OtherWidget => acc
                          end) acc evs)
  /\ barchart_version (foldl interact s evs)
     = (barchart_version s + resets evs)%nat.
Proof.
  revert s acc. induction evs as [|e evs IH]; intros s acc Hok Hsel.
  - simpl. split; [exact Hsel|unfold resets; simpl; lia].
  - cbn [foldl]. destruct e as [y| |].
    + destruct (click_ok s y Hok) as (Hok' & Hv & Hsel').
      destruct (IH (interact s (ClickBar y)) (Some y) Hok' Hsel') as [H1 H2].
      split; [exact H1|]. rewrite H2, Hv. unfold resets. simpl. reflexivity.
    + pose proof (show_all_clears s Hok) as Hsel'.
      destruct (run_head_true_version s Hok) as (Hv & _ & Hok').
      change (run_head true s) with (interact s ShowAllYears) in Hv, Hok'.
      destruct (IH (interact s ShowAllYears) None Hok' Hsel') as [H1 H2].
      split; [exact H1|]. rewrite H2, Hv. unfold resets. simpl. lia.
    + cbn [interact]. rewrite (run_head_false_ok s Hok).
      destruct (IH s acc Hok Hsel) as [H1 H2].
      split; [exact H1|]. rewrite H2. unfold resets. simpl. reflexivity.
Qed.

Lemma session_after_last_click (evs : list Event) :
  selected_year (session_after evs) = last_click evs.
Proof.
  unfold selected_year, session_after, last_click.
  destruct (history_fold evs (run_head false new_session) None
              new_session_ok new_session_selected) as [-> _].
  destruct (foldl _ None evs); reflexivity.
Qed.

(** X1: after any history of events, the selected year is the year of
    the last bar clicked since "Show all years" was last pressed (none if
    there was no such click), and the version counter is the number of
    times the button was pressed. *)
Theorem selection_follows_history (evs : list Event) :
  selected_year (session_after evs) = last_click evs /\
  barchart_version (session_after evs) = resets evs.
Proof.
  split; [apply session_after_last_click|].
  unfold session_after.
  destruct (history_fold evs (run_head false new_session) None
              new_session_ok new_session_selected) as [_ ->].
  rewrite new_session_version. reflexivity.
Qed.

(** ** The rows of the per-year summary *)

Lemma find_filter_head {A : Type} (f : A -> bool) (l : list A) :
  List.find f l = head (List.filter f l).
Proof.
  induction l as [|x l IH]; simpl; [reflexivity|].
  destruct (f x); [reflexivity|exact IH].
Qed.

(** A left merge with a frame of distinct keys looks every key up. *)
Lemma merge_left_find {L R : Type} (lkey : L -> Z) (rkey : R -> Z)
    (l : list L) (r : list R) :
  NoDup (map rkey r) ->
  merge_left lkey rkey l r
  = map (fun x => (x, List.find (fun y => Z.eqb (rkey y) (lkey x)) r)) l.
Proof.
  intros Hnd. unfold merge_left. induction l as [|x l IH]; [reflexivity|].
  assert (match List.filter (fun y => Z.eqb (rkey y) (lkey x)) r with
          | [] => [(x, None)]
          | ms => map (fun y => (x, Some y)) ms
          end = [(x, List.find (fun y => Z.eqb (rkey y) (lkey x)) r)]) as Hx.
  { rewrite find_filter_head.
    pose proof (filter_unique_key rkey r (lkey x) Hnd) as Hlen.
    destruct (List.filter _ r) as [|m [|m' ms]]; simpl in *; [reflexivity..|lia]. }
  cbn [flat_map]. rewrite IH, Hx. reflexivity.
Qed.

Lemma find_top_mags (df : DataFrame) (ks : list Z) (y : Z) :
  y ∈ ks ->
  List.find (fun t => Z.eqb (tm_year t) y) (map (fun k => top_mags_of k df) ks)
  = Some (top_mags_of y df).
Proof.
  induction ks as [|k ks IH]; intros Hy; [apply elem_of_nil in Hy; contradiction|].
  simpl. destruct (Z.eqb_spec k y) as [->|Hne]; [reflexivity|].
  apply IH. apply elem_of_cons in Hy as [->|Hy]; [congruence|exact Hy].
Qed.

Lemma per_year_df_rows (df : DataFrame) :
  df <> [] -> per_year_df df = Some (map (year_summary df) (years df)).
Proof.
  intros Hne. unfold per_year_df.
  assert (top_mags df = Some (map (fun k => top_mags_of k df) (years df))) as ->
    by (destruct df; [congruence|reflexivity]).
  cbn [mbind option_bind]. f_equal.
  rewrite year_sizes_sorted.
  rewrite (merge_left_find fst fst) by apply top_region_years_NoDup.
  rewrite merge_left_find.
  2:{ rewrite map_map. simpl. rewrite map_id.
      apply StronglySorted_lt_NoDup, group_keys_sorted. }
  unfold year_sizes. rewrite !map_map. apply map_ext_in. intros y Hy.
  cbn [fst snd summary_row]. apply list_elem_of_In in Hy.
  rewrite (find_top_mags df (years df) y Hy). reflexivity.
Qed.

Lemma years_elem (df : DataFrame) (y : Z) :
  y ∈ years df <-> exists r, r ∈ df /\ year r = y.
Proof.
  unfold years. rewrite group_keys_elem, list_elem_of_In, in_map_iff.
  setoid_rewrite <- list_elem_of_In.
  split; intros (r & H1 & H2); exists r; auto.
Qed.

Lemma per_year_df_elem (df : DataFrame) (s : list YearSummary) (ys : YearSummary) :
  per_year_df df = Some s -> ys ∈ s ->
  ys = year_summary df (ys_year ys) /\ ys_year ys ∈ years df.
Proof.
  intros Hs Hys.
  assert (df <> []) as Hne by (intros ->; discriminate).
  rewrite (per_year_df_rows df Hne) in Hs. injection Hs as <-.
  apply list_elem_of_In, in_map_iff in Hys as (y & <- & Hy).
  split; [reflexivity|]. apply list_elem_of_In. exact Hy.
Qed.

(** ** Counting rows by key *)

Lemma sum_list_add {A : Type} (f g : A -> nat) (l : list A) :
  sum_list (map (fun k => (f k + g k)%nat) l)
  = (sum_list (map f l) + sum_list (map g l))%nat.
Proof. induction l as [|k l IH]; simpl; [reflexivity|]. rewrite IH. lia. Qed.

Lemma sum_list_indicator {K : Type} `{EqDecision K} (a : K) (keys : list K) :
  NoDup keys ->
  sum_list (map (fun k => if bool_decide (a = k) then 1 else 0)%nat keys)
  = if bool_decide (a ∈ keys) then 1%nat else 0%nat.
Proof.
  induction 1 as [|k keys Hk Hnd IH]; simpl; [reflexivity|].
  rewrite IH. repeat case_bool_decide; subst; try reflexivity;
    rewrite elem_of_cons in *; tauto.
Qed.

(** The group sizes of distinct keys add up to the rows whose key is
    one of them. *)
Lemma sum_group_sizes {A K : Type} `{EqDecision K} (f : A -> K) (keys : list K)
    (l : list A) :
  NoDup keys ->
  sum_list (map (fun k => length (List.filter (fun r => bool_decide (f r = k)) l)) keys)
  = length (List.filter (fun r => bool_decide (f r ∈ keys)) l).
Proof.
  intros Hnd. induction l as [|a l IH].
  - simpl. induction keys; simpl; [reflexivity|]. apply IHkeys.
    apply NoDup_cons in Hnd. tauto.
  - cbn [List.filter].
    rewrite (map_ext _ (fun k => ((if bool_decide (f a = k) then 1 else 0)
                + length (List.filter (fun r => bool_decide (f r = k)) l))%nat)).
    2:{ intros k. case_bool_decide; reflexivity. }
    rewrite sum_list_add, IH, (sum_list_indicator (f a) keys Hnd).
    case_bool_decide; reflexivity.
Qed.

Lemma filter_all {A : Type} (f : A -> bool) (l : list A) :
  (forall x, x ∈ l -> f x = true) -> List.filter f l = l.
Proof.
  induction l as [|x l IH]; intros Hall; simpl; [reflexivity|].
  rewrite (Hall x) by left. f_equal. apply IH. intros y Hy. apply Hall. right. exact Hy.
Qed.

Lemma filter_nonempty {A : Type} (f : A -> bool) (l : list A) (x : A) :
  x ∈ l -> f x = true -> (1 <= length (List.filter f l))%nat.
Proof.
  intros Hx Hf.
  assert (x ∈ List.filter f l) as Hin
    by (apply list_elem_of_In, filter_In; split; [apply list_elem_of_In|]; assumption).
  destruct (List.filter f l); [apply elem_of_nil in Hin; contradiction|simpl; lia].
Qed.

Lemma year_sizes_sum (df : DataFrame) :
  sum_list (map (fun y => length (rows_of_year y df)) (years df)) = length df.
Proof.
  unfold rows_of_year.
  rewrite (map_ext _ (fun y => length (List.filter (fun r => bool_decide (year r = y)) df))).
  2:{ intros y. f_equal. apply filter_ext. intros r.
      destruct (Z.eqb_spec (year r) y); case_bool_decide; congruence. }
  rewrite sum_group_sizes by apply StronglySorted_lt_NoDup, group_keys_sorted.
  f_equal. apply filter_all. intros r Hr. apply bool_decide_eq_true.
  apply years_elem. eauto.
Qed.

(** X2: the height of a bar is the number of rows the table is filtered
    to when that bar is clicked, it is at least one, and the heights of
    all bars add up to the number of rows of the table. *)
Theorem bar_heights (df : DataFrame) (s : list YearSummary) :
  per_year_df df = Some s ->
  (forall ys, ys ∈ s ->
     amount ys = length (df_filtered df (Some (ys_year ys))) /\ (1 <= amount ys)%nat) /\
  sum_list (amount_barchart s) = length df.
Proof.
  intros Hs. split.
  - intros ys Hys. destruct (per_year_df_elem df s ys Hs Hys) as [Heq Hy].
    assert (amount ys = length (rows_of_year (ys_year ys) df)) as ->
      by (rewrite Heq at 1; reflexivity).
    split; [reflexivity|].
    apply years_elem in Hy as (r & Hr & Hyr).
    apply (filter_nonempty _ df r Hr). apply Z.eqb_eq. exact Hyr.
  - assert (df <> []) as Hne by (intros ->; discriminate).
    rewrite (per_year_df_rows df Hne) in Hs. injection Hs as <-.
    unfold amount_barchart. rewrite map_map. cbn [amount year_summary].
    apply year_sizes_sum.
Qed.

Lemma bar_heights_witness :
  (forall ys, ys ∈ scenario_summary ->
     amount ys
     = length (df_filtered
                 [ mkRow 2015 mag_6_2 F64.nan F64.nan F64.nan 0 (Some (py "Greece"))
                 ; mkRow 2015 mag_6_2 F64.nan F64.nan F64.nan 0 (Some (py "Greece"))
                 ; mkRow 2015 mag_6_2 F64.nan F64.nan F64.nan 0 (Some (py "Greece"))
                 ; mkRow 2016 mag_5_1 F64.nan F64.nan F64.nan 0 (Some (py "Italy")) ]
                 (Some (ys_year ys)))
     /\ (1 <= amount ys)%nat) /\
  sum_list (amount_barchart scenario_summary) = 4%nat.
Proof.
  apply (bar_heights
    [ mkRow 2015 mag_6_2 F64.nan F64.nan F64.nan 0 (Some (py "Greece"))
    ; mkRow 2015 mag_6_2 F64.nan F64.nan F64.nan 0 (Some (py "Greece"))
    ; mkRow 2015 mag_6_2 F64.nan F64.nan F64.nan 0 (Some (py "Greece"))
    ; mkRow 2016 mag_5_1 F64.nan F64.nan F64.nan 0 (Some (py "Italy")) ]
    scenario_summary).
  vm_compute. reflexivity.
Defined.

(** ** The three largest magnitudes of a year *)

Lemma F64_leb_total (a b : F64.t) :
  F64.isna a = false -> F64.isna b = false ->
  F64.leb a b = false -> F64.leb b a = true.
Proof.
  unfold F64.leb, SFleb, SFcompare, F64.isna.
  destruct a as [sa|sa| |sa ma ea], b as [sb|sb| |sb mb eb];
    try destruct sa; try destruct sb;
    simpl; intros Ha Hb Hab; try discriminate; try reflexivity;
    F64Facts.compare_cases; subst; try reflexivity; try lia.
Qed.

Lemma F64_leb_refl (a : F64.t) : F64.isna a = false -> F64.leb a a = true.
Proof.
  intros Ha. destruct (F64.leb a a) eqn:E; [reflexivity|].
  pose proof (F64_leb_total a a Ha Ha E). congruence.
Qed.

Lemma map_lookup {A B : Type} (f : A -> B) (l : list A) (i : nat) :
  map f l !! i = f <$> (l !! i).
Proof.
  revert i. induction l as [|x l IH]; intros [|i]; simpl; try reflexivity. apply IH.
Qed.

Lemma isna_nan (v : F64.t) : F64.isna v = true -> v = F64.nan.
Proof. destruct v; simpl; intros; try discriminate; reflexivity. Qed.

(** After the padding and the cut to three, entry [k] is the [k]-th
    largest magnitude that is not missing, or NaN when there are fewer. *)
Lemma top3_list_lookup (s : list F64.t) (k : nat) :
  (k < 3)%nat ->
  or_nan (mjoin (top3_list s !! k))
  = default F64.nan
      (stable_sort (fun a b => F64.leb b a)
         (List.filter (fun x => negb (F64.isna x)) s) !! k).
Proof.
  intros Hk. unfold top3_list, nlargest. rewrite lookup_take_lt by exact Hk.
  set (S := stable_sort _ _). set (Nn := List.filter F64.isna s).
  destruct (take 3 (S ++ Nn) !! k) as [v|] eqn:E.
  - rewrite (lookup_app_l_Some _ _ k (Some v)) by (rewrite map_lookup, E; reflexivity).
    simpl. rewrite lookup_take_lt in E by exact Hk.
    apply lookup_app_Some in E as [->|[Hlen E]]; [reflexivity|].
    rewrite (lookup_ge_None_2 S k Hlen). simpl.
    apply list_elem_of_lookup_2, list_elem_of_In, filter_In in E as [_ E].
    apply isna_nan, E.
  - apply lookup_ge_None in E.
    rewrite lookup_app_r by (rewrite length_map; exact E).
    rewrite length_map.
    rewrite length_take, length_app in E.
    rewrite (lookup_ge_None_2 S k) by lia. simpl.
    destruct (k - length (take 3 (S ++ Nn)))%nat as [|[|[|n]]]; reflexivity.
Qed.

Lemma year_mags_perm (df : DataFrame) (y : Z) :
  year_mags df y
  ≡ₚ List.filter (fun x => negb (F64.isna x)) (map magnitude (rows_of_year y df)).
Proof. apply stable_sort_perm. Qed.

Lemma year_mags_not_na (df : DataFrame) (y : Z) (v : F64.t) :
  v ∈ year_mags df y -> F64.isna v = false.
Proof.
  rewrite year_mags_perm. intros Hv.
  apply list_elem_of_In, filter_In in Hv as [_ Hv]. apply negb_true_iff, Hv.
Qed.

Lemma year_mags_sorted (df : DataFrame) (y : Z) :
  StronglySorted (fun a b => F64.leb b a = true) (year_mags df y).
Proof.
  apply (stable_sort_StronglySorted (fun a b => F64.leb b a)
           (fun v => F64.isna v = false)).
  - intros a b Ha Hb. apply F64_leb_total; assumption.
  - intros a b c _ _ _ Hab Hbc. apply (F64Facts.leb_trans c b a); assumption.
  - apply Forall_forall. intros v Hv.
    apply list_elem_of_In, filter_In in Hv as [_ Hv]. apply negb_true_iff, Hv.
Qed.

Lemma summary_mags (df : DataFrame) (y : Z) :
  m1 (year_summary df y) = default F64.nan (year_mags df y !! 0%nat) /\
  m2 (year_summary df y) = default F64.nan (year_mags df y !! 1%nat) /\
  m3 (year_summary df y) = default F64.nan (year_mags df y !! 2%nat).
Proof.
  unfold year_summary, top_mags_of, year_mags. cbn [m1 m2 m3 tm_m1 tm_m2 tm_m3].
  rewrite !top3_list_lookup by lia. auto.
Qed.

(** An entry that is not missing is in the list, at its place. *)
Lemma default_nan_lookup (l : list F64.t) (k : nat) :
  F64.isna (default F64.nan (l !! k)) = false ->
  exists v, l !! k = Some v /\ default F64.nan (l !! k) = v.
Proof. destruct (l !! k) as [v|]; simpl; [eauto|discriminate]. Qed.

Lemma year_mags_descending (df : DataFrame) (y : Z) (i j : nat) (a b : F64.t) :
  (i <= j)%nat -> year_mags df y !! i = Some a -> year_mags df y !! j = Some b ->
  F64.leb b a = true.
Proof.
  intros Hij Ha Hb. destruct (decide (i = j)) as [->|Hne].
  - assert (a = b) as <- by congruence.
    apply F64_leb_refl, (year_mags_not_na df y). eapply list_elem_of_lookup_2, Ha.
  - apply (StronglySorted_lookup_lt _ _ (year_mags_sorted df y) i j); [lia|assumption..].
Qed.

(** X3: in a row of the summary, m1 is at least every magnitude of the
    year that is not missing, m2 (when present) is at most m1 and m3
    (when present) at most m2, each one present is the magnitude of a
    row of the year, and m1, m2, m3 are present exactly when the year
    has at least one, two, three magnitudes that are not missing. *)
Theorem top_magnitudes (df : DataFrame) (s : list YearSummary) (ys : YearSummary) :
  per_year_df df = Some s -> ys ∈ s ->
  let present := List.filter (fun x => negb (F64.isna x))
                   (map magnitude (rows_of_year (ys_year ys) df)) in
  (forall v, v ∈ present -> F64.isna (m1 ys) = false /\ F64.leb v (m1 ys) = true) /\
  (F64.isna (m2 ys) = false -> F64.leb (m2 ys) (m1 ys) = true) /\
  (F64.isna (m3 ys) = false -> F64.leb (m3 ys) (m2 ys) = true) /\
  (forall m, m ∈ [m1 ys; m2 ys; m3 ys] -> F64.isna m = false -> m ∈ present) /\
  (F64.isna (m1 ys) = false <-> (1 <= length present)%nat) /\
  (F64.isna (m2 ys) = false <-> (2 <= length present)%nat) /\
  (F64.isna (m3 ys) = false <-> (3 <= length present)%nat).
Proof.
  intros Hs Hys present.
  destruct (per_year_df_elem df s ys Hs Hys) as [Heq _].
  set (y := ys_year ys) in *. set (M := year_mags df y).
  destruct (summary_mags df y) as (H1 & H2 & H3). rewrite <- Heq in H1, H2, H3.
  fold M in H1, H2, H3.
  assert (M ≡ₚ present) as Hperm by apply year_mags_perm.
  assert (length M = length present) as Hlen by (apply Permutation_length, Hperm).
  assert (forall k, F64.isna (default F64.nan (M !! k)) = false <-> (k < length M)%nat)
    as Hpresent.
  { intros k. split.
    - intros Hk. apply default_nan_lookup in Hk as (v & Hv & _).
      eapply lookup_lt_Some, Hv.
    - intros Hk. destruct (lookup_lt_is_Some_2 M k Hk) as [v Hv]. rewrite Hv. simpl.
      apply (year_mags_not_na df y). eapply list_elem_of_lookup_2, Hv. }
  rewrite H1, H2, H3. repeat split.
  - apply Hpresent. rewrite <- Hperm in H. apply list_elem_of_lookup_1 in H as [i Hi].
    apply lookup_lt_Some in Hi. lia.
  - rewrite <- Hperm in H. apply list_elem_of_lookup_1 in H as [i Hi].
    destruct (lookup_lt_is_Some_2 M 0) as [h Hh]; [apply lookup_lt_Some in Hi; lia|].
    rewrite Hh. simpl. apply (year_mags_descending df y 0 i h v); [lia|assumption..].
  - intros Hk. apply default_nan_lookup in Hk as (w & Hw & ->).
    destruct (lookup_lt_is_Some_2 M 0) as [h Hh]; [apply lookup_lt_Some in Hw; lia|].
    rewrite Hh. simpl. apply (year_mags_descending df y 0 1 h w); [lia|assumption..].
  - intros Hk. apply default_nan_lookup in Hk as (w & Hw & ->).
    destruct (lookup_lt_is_Some_2 M 1) as [h Hh]; [apply lookup_lt_Some in Hw; lia|].
    rewrite Hh. simpl. apply (year_mags_descending df y 1 2 h w); [lia|assumption..].
  - intros m Hm Hna. rewrite <- Hperm.
    repeat (apply elem_of_cons in Hm as [->|Hm];
            [apply default_nan_lookup in Hna as (w & Hw & ->);
             eapply list_elem_of_lookup_2, Hw|]).
    apply elem_of_nil in Hm. contradiction.
  - intros Hk. apply Hpresent in Hk. lia.
  - intros Hk. apply Hpresent. lia.
  - intros Hk. apply Hpresent in Hk. lia.
  - intros Hk. apply Hpresent. lia.
  - intros Hk. apply Hpresent in Hk. lia.
  - intros Hk. apply Hpresent. lia.
Qed.

(** ** Group keys under any strict order *)

Section GroupKeys.
Context {K : Type} (cmp : K -> K -> comparison).
Hypothesis cmp_eq : forall a b, cmp a b = Eq <-> a = b.
Hypothesis cmp_lt_trans : forall a b c, cmp a b = Lt -> cmp b c = Lt -> cmp a c = Lt.
Hypothesis cmp_gt_lt : forall a b, cmp a b = Gt -> cmp b a = Lt.

Lemma insert_key_elem_of (k x : K) (ks : list K) :
  x ∈ insert_key cmp k ks <-> x = k \/ x ∈ ks.
Proof.
  induction ks as [|k' r IH]; simpl.
  - rewrite list_elem_of_singleton, elem_of_nil. tauto.
  - destruct (cmp k k') eqn:E; rewrite ?elem_of_cons, ?IH; try tauto.
    apply cmp_eq in E as ->. tauto.
Qed.

Lemma insert_key_strictly_sorted (k : K) (ks : list K) :
  StronglySorted (fun a b => cmp a b = Lt) ks ->
  StronglySorted (fun a b => cmp a b = Lt) (insert_key cmp k ks).
Proof.
  induction 1 as [|k' r Hs IH Hall]; simpl.
  - repeat constructor.
  - destruct (cmp k k') eqn:E.
    + constructor; assumption.
    + constructor; [constructor; assumption|].
      constructor; [exact E|].
      eapply Forall_impl; [exact Hall|]. simpl. intros x Hx. eapply cmp_lt_trans; eauto.
    + constructor; [exact IH|].
      apply Forall_forall. intros x Hx. apply insert_key_elem_of in Hx as [->|Hx]; [auto|].
      rewrite Forall_forall in Hall. auto.
Qed.

Lemma group_keys_strictly_sorted (ks : list K) :
  StronglySorted (fun a b => cmp a b = Lt) (group_keys cmp ks).
Proof.
  induction ks as [|k r IH]; simpl; [constructor|].
  apply insert_key_strictly_sorted, IH.
Qed.

Lemma group_keys_elem_of (ks : list K) (x : K) : x ∈ group_keys cmp ks <-> x ∈ ks.
Proof.
  induction ks as [|k r IH]; simpl; [reflexivity|].
  rewrite insert_key_elem_of, elem_of_cons, IH. reflexivity.
Qed.

Lemma strictly_sorted_NoDup (l : list K) :
  StronglySorted (fun a b => cmp a b = Lt) l -> NoDup l.
Proof.
  induction 1 as [|x l Hs IH Hall]; constructor; [|exact IH].
  intros Hx. rewrite Forall_forall in Hall. specialize (Hall x Hx).
  assert (cmp x x = Eq) by (apply cmp_eq; reflexivity). congruence.
Qed.

End GroupKeys.

(** ** The order of Python strings *)

Lemma pystr_compare_eq (a b : pystr) : pystr_compare a b = Eq <-> a = b.
Proof.
  revert b. induction a as [|x a IH]; intros [|y b]; simpl; try (split; congruence).
  destruct (N.compare_spec x y) as [->| |]; [|split; [discriminate|intros [= -> _]; lia]..].
  rewrite IH. split; congruence.
Qed.

Lemma pystr_compare_lt_trans (a b c : pystr) :
  pystr_compare a b = Lt -> pystr_compare b c = Lt -> pystr_compare a c = Lt.
Proof.
  revert b c. induction a as [|x a IH]; intros [|y b] [|z c]; simpl; try congruence.
  destruct (N.compare_spec x y), (N.compare_spec y z), (N.compare_spec x z);
    subst; try congruence; try lia.
  apply IH.
Qed.

Lemma pystr_compare_gt_lt (a b : pystr) :
  pystr_compare a b = Gt -> pystr_compare b a = Lt.
Proof.
  revert b. induction a as [|x a IH]; intros [|y b]; simpl; try congruence.
  destruct (N.compare_spec x y), (N.compare_spec y x); subst; try congruence; try lia.
  apply IH.
Qed.

Lemma year_region_compare_eq (a b : Z * pystr) :
  year_region_compare a b = Eq <-> a = b.
Proof.
  destruct a as [y g], b as [y' g']. unfold year_region_compare. simpl.
  destruct (Z.compare_spec y y') as [->| |].
  - rewrite pystr_compare_eq. split; congruence.
  - split; [discriminate|intros [= -> _]; lia].
  - split; [discriminate|intros [= -> _]; lia].
Qed.

Lemma year_region_compare_lt_trans (a b c : Z * pystr) :
  year_region_compare a b = Lt -> year_region_compare b c = Lt ->
  year_region_compare a c = Lt.
Proof.
  destruct a as [y g], b as [y' g'], c as [y'' g'']. unfold year_region_compare. simpl.
  destruct (Z.compare_spec y y'), (Z.compare_spec y' y''), (Z.compare_spec y y'');
    subst; try congruence; try lia.
  apply pystr_compare_lt_trans.
Qed.

Lemma year_region_compare_gt_lt (a b : Z * pystr) :
  year_region_compare a b = Gt -> year_region_compare b a = Lt.
Proof.
  destruct a as [y g], b as [y' g']. unfold year_region_compare. simpl.
  destruct (Z.compare_spec y y'), (Z.compare_spec y' y); subst; try congruence; try lia.
  apply pystr_compare_gt_lt.
Qed.

(** ** The first row of every key *)

Lemma drop_duplicates_subset {A K : Type} `{EqDecision K} (key : A -> K)
    (l : list A) (seen : list K) (x : A) :
  x ∈ drop_duplicates key seen l -> x ∈ l.
Proof.
  revert seen. induction l as [|a l IH]; intros seen; simpl; [auto|].
  case_bool_decide; rewrite ?elem_of_cons; [eauto|]. intros [->|Hx]; eauto.
Qed.

(** Every key that is not barred keeps a row. *)
Lemma drop_duplicates_covers {A K : Type} `{EqDecision K} (key : A -> K)
    (l : list A) (seen : list K) (y : A) :
  y ∈ l -> key y ∉ seen ->
  exists x, x ∈ drop_duplicates key seen l /\ key x = key y.
Proof.
  revert seen. induction l as [|a l IH]; intros seen Hy Hseen.
  - apply elem_of_nil in Hy. contradiction.
  - simpl. apply elem_of_cons in Hy as [->|Hy].
    + rewrite bool_decide_eq_false_2 by exact Hseen. exists a. split; [left|reflexivity].
    + case_bool_decide as Ha; [apply IH; assumption|].
      destruct (decide (key y = key a)) as [Heq|Hne].
      * exists a. split; [left|congruence].
      * destruct (IH (key a :: seen) Hy) as (x & Hx & Hk).
        { rewrite not_elem_of_cons. tauto. }
        exists x. split; [right; exact Hx|exact Hk].
Qed.

(** The row kept for a key stands in front of the other rows of the key. *)
Lemma drop_duplicates_first {A K : Type} `{EqDecision K} (key : A -> K)
    (R : A -> A -> Prop) (l : list A) (seen : list K) (x y : A) :
  StronglySorted R l ->
  x ∈ drop_duplicates key seen l -> y ∈ l -> key y = key x ->
  y = x \/ R x y.
Proof.
  intros Hs. revert seen. induction Hs as [|a l Hs IH Hall]; intros seen Hx Hy Hk.
  - apply elem_of_nil in Hy. contradiction.
  - simpl in Hx. case_bool_decide as Ha.
    + apply elem_of_cons in Hy as [->|Hy]; [|eauto].
      destruct (drop_duplicates_keys key l seen) as [_ Hnot].
      exfalso. apply (Hnot x Hx). rewrite <- Hk. exact Ha.
    + apply elem_of_cons in Hx as [->|Hx].
      * apply elem_of_cons in Hy as [->|Hy]; [left; reflexivity|right].
        rewrite Forall_forall in Hall. auto.
      * destruct (drop_duplicates_keys key l (key a :: seen)) as [_ Hnot].
        pose proof (Hnot x Hx) as Hxa. rewrite not_elem_of_cons in Hxa.
        apply elem_of_cons in Hy as [->|Hy]; [destruct Hxa; congruence|eauto].
Qed.

(** ** The region with the most events of a year *)

Lemma with_region_elem (df : DataFrame) (y : Z) (g : pystr) :
  (y, g) ∈ with_region df <-> exists r, r ∈ df /\ year r = y /\ region r = Some g.
Proof.
  unfold with_region. rewrite list_elem_of_omap. split.
  - intros (r & Hr & Hk). exists r. destruct (region r); [|discriminate].
    injection Hk as <- <-. auto.
  - intros (r & Hr & <- & Hg). exists r. rewrite Hg. auto.
Qed.

Lemma with_region_count (df : DataFrame) (y : Z) (g : pystr) :
  length (List.filter (fun k' => bool_decide (k' = (y, g))) (with_region df))
  = region_count df y g.
Proof.
  unfold with_region, region_count. induction df as [|r df IH]; [reflexivity|].
  set (f := fun r : Row => match region r with
                           | Some g => Some (year r, g)
                           | None => None
                           end) in *.
  change (omap f (r :: df))
    with (match f r with Some x => x :: omap f df | None => omap f df end).
  cbn [List.filter]. subst f. cbv beta.
  destruct (region r) as [g'|] eqn:Hg.
  - cbn [List.filter].
    destruct (Z.eqb_spec (year r) y) as [Hy|Hy]; repeat case_bool_decide;
      cbn [andb length]; try congruence; rewrite IH; reflexivity.
  - rewrite andb_false_r. exact IH.
Qed.

Lemma region_count_positive (df : DataFrame) (y : Z) (g : pystr) :
  (1 <= region_count df y g)%nat <-> exists r, r ∈ df /\ year r = y /\ region r = Some g.
Proof.
  unfold region_count. split.
  - intros Hlen. destruct (List.filter _ df) as [|r l] eqn:E; [simpl in Hlen; lia|].
    assert (In r (List.filter
              (fun r => Z.eqb (year r) y && bool_decide (region r = Some g)) df)) as Hr
      by (rewrite E; left; reflexivity).
    apply filter_In in Hr as [Hr Hp]. apply andb_true_iff in Hp as [Hy Hg].
    exists r. rewrite <- list_elem_of_In in Hr. apply Z.eqb_eq in Hy.
    apply bool_decide_eq_true in Hg. auto.
  - intros (r & Hr & Hy & Hg). apply (filter_nonempty _ df r Hr).
    apply andb_true_iff. split; [apply Z.eqb_eq, Hy|apply bool_decide_eq_true, Hg].
Qed.

Lemma region_sizes_elem (df : DataFrame) (c : RegionCount) :
  c ∈ region_sizes df <->
  c = mkRC (rc_year c) (rc_region c) (region_count df (rc_year c) (rc_region c))
  /\ (1 <= region_count df (rc_year c) (rc_region c))%nat.
Proof.
  unfold region_sizes. cbv zeta. rewrite list_elem_of_In, in_map_iff.
  setoid_rewrite <- list_elem_of_In.
  setoid_rewrite (group_keys_elem_of year_region_compare year_region_compare_eq).
  split.
  - intros ([y g] & <- & Hk). cbn [fst snd rc_year rc_region].
    rewrite with_region_count. split; [reflexivity|].
    apply region_count_positive, with_region_elem, Hk.
  - intros [Hc Hpos]. exists (rc_year c, rc_region c). cbn [fst snd].
    rewrite with_region_count. split; [symmetry; exact Hc|].
    apply with_region_elem, region_count_positive, Hpos.
Qed.

Lemma region_sizes_sorted (df : DataFrame) :
  StronglySorted
    (fun a b => year_region_compare (rc_year a, rc_region a) (rc_year b, rc_region b) = Lt)
    (region_sizes df).
Proof.
  unfold region_sizes. cbv zeta.
  apply (StronglySorted_map (fun a b => year_region_compare a b = Lt)).
  - intros [y g] [y' g'] Hlt. exact Hlt.
  - apply (group_keys_strictly_sorted year_region_compare year_region_compare_eq
             year_region_compare_lt_trans year_region_compare_gt_lt).
Qed.

Lemma year_asc_n_desc_total (a b : RegionCount) :
  year_asc_n_desc a b = false -> year_asc_n_desc b a = true.
Proof.
  unfold year_asc_n_desc. intros H.
  apply orb_false_iff in H as [H1 H2]. apply Z.ltb_ge in H1.
  destruct (Z.ltb_spec (rc_year b) (rc_year a)); [reflexivity|]. simpl.
  assert (rc_year a = rc_year b) as Heq by lia.
  rewrite Heq, Z.eqb_refl in *. simpl in *. apply Nat.leb_gt in H2. apply Nat.leb_le. lia.
Qed.

Lemma year_asc_n_desc_trans (a b c : RegionCount) :
  year_asc_n_desc a b = true -> year_asc_n_desc b c = true ->
  year_asc_n_desc a c = true.
Proof.
  unfold year_asc_n_desc. intros H1 H2.
  apply orb_true_iff in H1, H2. apply orb_true_iff.
  rewrite !andb_true_iff, !Z.ltb_lt, !Z.eqb_eq, !Nat.leb_le in *. lia.
Qed.

(** The frame [top_region] keeps rows of: sorted by year, then by falling
    count, rows of equal year and count by region name. *)
Lemma sorted_region_sizes (df : DataFrame) :
  StronglySorted
    (sorted_keeping year_asc_n_desc
       (fun a b => year_region_compare (rc_year a, rc_region a)
                                       (rc_year b, rc_region b) = Lt))
    (stable_sort year_asc_n_desc (region_sizes df)).
Proof.
  apply (stable_sort_keeping year_asc_n_desc (fun _ => True)).
  - intros a b _ _. apply year_asc_n_desc_total.
  - intros a b c _ _ _. apply year_asc_n_desc_trans.
  - apply Forall_forall. auto.
  - apply region_sizes_sorted.
Qed.

Lemma top_region_elem (df : DataFrame) (y : Z) (g : pystr) :
  (y, g) ∈ top_region df ->
  (1 <= region_count df y g)%nat /\
  forall g', (region_count df y g' <= region_count df y g)%nat /\
             (region_count df y g' = region_count df y g -> g' <> g ->
              pystr_compare g g' = Lt).
Proof.
  unfold top_region. intros Hin.
  apply list_elem_of_In, in_map_iff in Hin as (c & Hc & Hin).
  injection Hc as <- <-. apply list_elem_of_In in Hin.
  pose proof (drop_duplicates_subset _ _ _ _ Hin) as HcL.
  rewrite stable_sort_perm in HcL. apply region_sizes_elem in HcL as [Hceq Hcpos].
  split; [exact Hcpos|]. intros g'.
  destruct (Nat.eq_dec (region_count df (rc_year c) g') 0%nat) as [Hz|Hnz].
  { rewrite Hz. split; [lia|]. intros Heq. lia. }
  set (c' := mkRC (rc_year c) g' (region_count df (rc_year c) g')).
  assert (c' ∈ stable_sort year_asc_n_desc (region_sizes df)) as Hc'.
  { rewrite stable_sort_perm. apply region_sizes_elem. split; [reflexivity|].
    cbn [rc_year rc_region c']. lia. }
  destruct (drop_duplicates_first rc_year _ _ [] c c' (sorted_region_sizes df) Hin Hc'
              eq_refl) as [Heq|[Hle Hkeep]].
  - assert (g' = rc_region c) as -> by (rewrite <- Heq; reflexivity).
    split; [lia|]. intros _ Hne. congruence.
  - rewrite Hceq in Hle, Hkeep. unfold year_asc_n_desc in Hle, Hkeep.
    cbn [rc_year rc_n rc_region c'] in Hle, Hkeep.
    rewrite Z.ltb_irrefl, Z.eqb_refl in Hle, Hkeep. simpl in Hle, Hkeep.
    apply Nat.leb_le in Hle. split; [exact Hle|].
    intros Heq Hne. rewrite Heq, Nat.leb_refl in Hkeep.
    specialize (Hkeep eq_refl). unfold year_region_compare in Hkeep. simpl in Hkeep.
    rewrite Z.compare_refl in Hkeep. exact Hkeep.
Qed.

Lemma top_region_covers (df : DataFrame) (y : Z) :
  (exists g, (y, g) ∈ top_region df) <->
  exists r, r ∈ df /\ year r = y /\ region r <> None.
Proof.
  split.
  - intros [g Hg]. apply top_region_elem in Hg as [Hpos _].
    apply region_count_positive in Hpos as (r & Hr & Hy & Hreg).
    exists r. rewrite Hreg. auto.
  - intros (r & Hr & Hy & Hreg). destruct (region r) as [g|] eqn:Hg; [|congruence].
    set (c := mkRC y g (region_count df y g)).
    assert (c ∈ stable_sort year_asc_n_desc (region_sizes df)) as Hc.
    { rewrite stable_sort_perm. apply region_sizes_elem. split; [reflexivity|].
      apply region_count_positive. exists r. auto. }
    destruct (drop_duplicates_covers rc_year _ [] c Hc) as (x & Hx & Hk).
    { apply not_elem_of_nil. }
    exists (rc_region x). unfold top_region.
    apply list_elem_of_In, in_map_iff. exists x. split; [|apply list_elem_of_In, Hx].
    rewrite Hk. reflexivity.
Qed.

Lemma find_key_Some {B : Type} (l : list (Z * B)) (y : Z) (p : Z * B) :
  List.find (fun p : Z * B => Z.eqb p.1 y) l = Some p -> p ∈ l /\ p.1 = y.
Proof.
  intros H. apply find_some in H as [Hin Hy].
  split; [apply list_elem_of_In, Hin|apply Z.eqb_eq, Hy].
Qed.

Lemma find_key_None {B : Type} (l : list (Z * B)) (y : Z) :
  List.find (fun p : Z * B => Z.eqb p.1 y) l = None -> forall b, (y, b) ∉ l.
Proof.
  intros H b Hin. apply list_elem_of_In in Hin.
  pose proof (find_none _ _ H _ Hin) as Hy. simpl in Hy.
  rewrite Z.eqb_refl in Hy. discriminate.
Qed.

(** X4: the top region of a summary row is a region of that year with
    the most rows, and among the regions with as many rows the one whose
    name sorts first; it is missing exactly when no row of the year has
    a region. *)
Theorem top_region_is_largest (df : DataFrame) (s : list YearSummary) (ys : YearSummary) :
  per_year_df df = Some s -> ys ∈ s ->
  (ys_top_region ys = None <->
   forall r, r ∈ df -> year r = ys_year ys -> region r = None) /\
  forall g, ys_top_region ys = Some g ->
    (1 <= region_count df (ys_year ys) g)%nat /\
    forall g', (region_count df (ys_year ys) g' <= region_count df (ys_year ys) g)%nat /\
               (region_count df (ys_year ys) g' = region_count df (ys_year ys) g ->
                g' <> g -> pystr_compare g g' = Lt).
Proof.
  intros Hs Hys. destruct (per_year_df_elem df s ys Hs Hys) as [Heq _].
  set (y := ys_year ys) in *.
  assert (ys_top_region ys
          = snd <$> List.find (fun p : Z * pystr => Z.eqb p.1 y) (top_region df)) as Htr
    by (rewrite Heq at 1; reflexivity).
  rewrite Htr. split.
  - destruct (List.find _ (top_region df)) as [[y' g]|] eqn:E; simpl.
    + split; [discriminate|]. intros Hnone. exfalso.
      apply find_key_Some in E as [Hin Hy]. simpl in Hy. subst y'.
      apply top_region_elem in Hin as [Hpos _].
      apply region_count_positive in Hpos as (r & Hr & Hyr & Hreg).
      rewrite (Hnone r Hr Hyr) in Hreg. discriminate.
    + split; [|reflexivity]. intros _ r Hr Hyr.
      destruct (region r) as [g|] eqn:Hg; [|reflexivity]. exfalso.
      destruct (proj2 (top_region_covers df y)) as [g' Hg'].
      { exists r. rewrite Hg. auto. }
      exact (find_key_None _ _ E g' Hg').
  - intros g Hg. destruct (List.find _ (top_region df)) as [[y' g0]|] eqn:E; [|discriminate].
    injection Hg as ->. apply find_key_Some in E as [Hin Hy]. simpl in Hy. subst y'.
    apply top_region_elem, Hin.
Qed.

(** ** The bins of the pie chart against the bins of the map *)

Lemma searchsorted_right_app {A : Type} `{CutKey A} (p q : list A) (x : A) :
  searchsorted_right (p ++ q) x
  = if Nat.eqb (searchsorted_right p x) (length p)
    then (length p + searchsorted_right q x)%nat
    else searchsorted_right p x.
Proof.
  induction p as [|b p IH]; [reflexivity|]. simpl.
  destruct (key_leb b x); [|reflexivity]. rewrite IH. simpl.
  destruct (Nat.eqb _ _); reflexivity.
Qed.

Lemma leb_inf_above (b m : F64.t) :
  F64.isna b = false -> F64.leb F64.inf m = true -> F64.leb b m = true.
Proof.
  intros Hb Hm. apply (F64Facts.leb_trans b F64.inf m); [|exact Hm].
  destruct b as [?|[]| |[] ? ?]; try discriminate; reflexivity.
Qed.

Lemma pie_bucket_of_map_bucket (m : F64.t) :
  cut_index mag_bins_pie false m = Nat.min 8 <$> magnitude_bucket m.
Proof.
  unfold magnitude_bucket, cut_index, searchsorted. cbv zeta.
  change (key_isna m) with (F64.isna m).
  destruct (F64.isna m); [reflexivity|]. cbn [orb].
  change (length mag_bins_pie) with 10%nat. change (length mag_bins_dot) with 13%nat.
  change mag_bins_pie with (take 9 mag_bins_dot ++ [F64.inf]).
  replace (searchsorted_right mag_bins_dot m)
    with (searchsorted_right (take 9 mag_bins_dot ++ drop 9 mag_bins_dot) m)
    by (rewrite take_drop; reflexivity).
  rewrite !searchsorted_right_app.
  pose proof (searchsorted_right_le_length (take 9 mag_bins_dot) m) as Hle.
  change (length (take 9 mag_bins_dot)) with 9%nat in *.
  set (a := searchsorted_right (take 9 mag_bins_dot) m) in *. clearbody a.
  destruct (Nat.eqb_spec a 9) as [Ha|Ha].
  - change (drop 9 mag_bins_dot)
      with [F64.lit 7599824371187712; F64.lit 7881299347898368;
            F64.lit 8444249301319680; F64.inf].
    cbn [searchsorted_right key_leb F64_CutKey].
    destruct (F64.leb F64.inf m) eqn:Einf.
    + rewrite !(leb_inf_above _ m) by (reflexivity || exact Einf). reflexivity.
    + destruct (F64.leb (F64.lit 7599824371187712) m); [|reflexivity].
      destruct (F64.leb (F64.lit 7881299347898368) m); [|reflexivity].
      destruct (F64.leb (F64.lit 8444249301319680) m); reflexivity.
  - destruct (Nat.eqb_spec a 10); [exfalso; lia|].
    destruct (Nat.eqb_spec a 13); [exfalso; lia|].
    destruct (Nat.eqb_spec a 0); [reflexivity|].
    cbn [orb fmap option_fmap option_map]. rewrite Nat.min_r by lia. reflexivity.
Qed.

(** X5: the pie chart puts a magnitude in the same class as the map
    does up to 6.4-6.5, joins all map classes from 6.6 on into the class
    6.6+, and leaves out exactly the magnitudes the map leaves out. *)
Theorem mag_cluster_coarsens (m : F64.t) :
  mag_cluster m =
  match magnitude_bucket m with
  | None => None
  | Some i => if (i <? 8)%nat then magnitude_category m else Some "6.6+"%string
  end.
Proof.
  unfold mag_cluster, cut. rewrite pie_bucket_of_map_bucket.
  unfold magnitude_category, cut. fold (magnitude_bucket m).
  destruct (magnitude_bucket m) as [i|]; [|reflexivity]. simpl.
  do 8 (destruct i as [|i]; [reflexivity|]). reflexivity.
Qed.

(** ** The slices of the pie chart *)

Lemma ltb_inf_finite (m : F64.t) :
  F64.leb mag_5_0 m = true -> F64.ltb m F64.inf = true -> F64.is_finite m = true.
Proof. destruct m as [?|[]| |[] ? ?]; intros; try discriminate; reflexivity. Qed.

Lemma magnitude_bucket_is_Some (m : F64.t) :
  is_Some (magnitude_bucket m) <-> F64.leb mag_5_0 m && F64.ltb m F64.inf = true.
Proof.
  rewrite andb_true_iff. split.
  - intros [i Hi].
    apply (@cut_index_left_closed F64.t F64_CutKey F64Facts.leb_trans F64Facts.ltb_negb_leb
             mag_bins_dot mag_bins_dot_sorted mag_bins_dot_not_na) in Hi as [Hna Hin].
    unfold in_bucket in Hin.
    destruct (mag_bins_dot !! i) as [low|] eqn:Hlow; [|discriminate].
    destruct (mag_bins_dot !! S i) as [high|] eqn:Hhigh; [|discriminate].
    apply andb_true_iff in Hin as [Hlo Hhi]. cbn [key_leb key_ltb F64_CutKey] in Hlo, Hhi.
    split.
    + apply (F64Facts.leb_trans mag_5_0 low m); [|exact Hlo].
      apply (mag_bins_dot_sorted 0 i); [lia|reflexivity|exact Hlow].
    + rewrite F64Facts.ltb_negb_leb by (reflexivity || exact Hna).
      apply negb_true_iff. destruct (F64.leb F64.inf m) eqn:E; [|reflexivity].
      rewrite F64Facts.ltb_negb_leb in Hhi
        by (exact Hna || exact (mag_bins_dot_not_na _ _ Hhigh)).
      apply negb_true_iff in Hhi. rewrite <- Hhi. symmetry.
      apply leb_inf_above; [exact (mag_bins_dot_not_na _ _ Hhigh)|exact E].
  - intros [H5 Hinf].
    destruct (magnitude_bucket_total m H5 (ltb_inf_finite m H5 Hinf)) as (i & _ & Hi).
    rewrite Hi. eauto.
Qed.

Lemma mag_cluster_is_Some (m : F64.t) :
  is_Some (mag_cluster m) <-> F64.leb mag_5_0 m && F64.ltb m F64.inf = true.
Proof.
  rewrite <- magnitude_bucket_is_Some. unfold mag_cluster, cut.
  rewrite pie_bucket_of_map_bucket.
  destruct (magnitude_bucket m) as [i|]; cbn [fmap option_fmap option_map].
  - split; [eauto|]. intros _. apply lookup_lt_is_Some_2.
    change (length mag_labels_pie) with 9%nat. lia.
  - split; intros [? ?]; discriminate.
Qed.

Lemma mag_cluster_label (m : F64.t) (label : string) :
  mag_cluster m = Some label -> label ∈ mag_labels_pie.
Proof.
  unfold mag_cluster, cut. destruct (cut_index _ _ _); [|discriminate].
  apply list_elem_of_lookup_2.
Qed.

Lemma sum_observed (observed : bool) (l : list (string * nat)) :
  sum_list (map snd (List.filter (fun x => negb observed || negb (Nat.eqb x.2 0)) l))
  = sum_list (map snd l).
Proof.
  induction l as [|[label n] l IH]; [reflexivity|]. cbn [List.filter snd].
  destruct observed, n; simpl in *; rewrite ?IH; reflexivity.
Qed.

(** X6: the slices of the pie chart add up to the number of rows of the
    subset whose magnitude is at least 5.0 and below infinity, with
    either groupby default. *)
Theorem pie_slices_sum (observed : bool) (rows : DataFrame) :
  sum_list (map snd (df_pie observed rows))
  = length (List.filter
              (fun r => F64.leb mag_5_0 (magnitude r) && F64.ltb (magnitude r) F64.inf)
              rows).
Proof.
  unfold df_pie. rewrite sum_observed, map_map. cbn [snd].
  rewrite <- (map_map Some
    (fun k => length (List.filter
                        (fun r => bool_decide (mag_cluster (magnitude r) = k)) rows))).
  rewrite sum_group_sizes.
  2:{ apply (bool_decide_unpack _). vm_compute. exact I. }
  f_equal. apply filter_ext. intros r.
  destruct (F64.leb mag_5_0 (magnitude r) && F64.ltb (magnitude r) F64.inf) eqn:E.
  - apply bool_decide_eq_true. apply mag_cluster_is_Some in E as [label Hl].
    rewrite Hl. apply list_elem_of_In, in_map, list_elem_of_In.
    eapply mag_cluster_label, Hl.
  - apply bool_decide_eq_false. intros Hin.
    apply list_elem_of_In, in_map_iff in Hin as (label & Hl & _).
    assert (is_Some (mag_cluster (magnitude r))) as Hs by (rewrite <- Hl; eauto).
    apply mag_cluster_is_Some in Hs. congruence.
Qed.

(** ** The regions of the choropleth *)

Lemma count_bin_label (c : Z) :
  0 <= c ->
  count_bin c = count_labels_chor !! count_range c /\ is_Some (count_bin c).
Proof.
  intros Hc. unfold count_bin, cut. fold (count_bucket c).
  rewrite (count_bucket_cases c Hc). split; [reflexivity|].
  apply lookup_lt_is_Some_2. unfold count_range. repeat case_match; simpl; lia.
Qed.

Lemma by_region_elem (db : CaseTables) (dff : DataFrame) (b : RegionBin) :
  b ∈ by_region db dff <->
  rb_region b ∈ df_regions db dff /\
  b = mkRB (rb_region b)
        (length (List.filter (fun g' => bool_decide (g' = rb_region b)) (df_regions db dff)))
        (count_bin (Z.of_nat
           (length (List.filter (fun g' => bool_decide (g' = rb_region b))
                      (df_regions db dff))))).
Proof.
  unfold by_region. cbv zeta. rewrite list_elem_of_In, in_map_iff.
  setoid_rewrite <- list_elem_of_In.
  setoid_rewrite (group_keys_elem_of pystr_compare pystr_compare_eq).
  split.
  - intros (g & <- & Hg). split; [exact Hg|reflexivity].
  - intros [Hg Hb]. exists (rb_region b). split; [symmetry; exact Hb|exact Hg].
Qed.

(** Every row with a region is counted once. *)
Lemma by_region_sum (db : CaseTables) (dff : DataFrame) :
  sum_list (map rb_count (by_region db dff)) = length (omap region dff).
Proof.
  unfold by_region. cbv zeta. rewrite map_map. cbn [rb_count].
  rewrite (sum_group_sizes (fun g : pystr => g)).
  2:{ apply (strictly_sorted_NoDup pystr_compare pystr_compare_eq).
      apply (group_keys_strictly_sorted pystr_compare pystr_compare_eq
               pystr_compare_lt_trans pystr_compare_gt_lt). }
  rewrite filter_all.
  2:{ intros g Hg. apply bool_decide_eq_true.
      apply (group_keys_elem_of pystr_compare pystr_compare_eq). exact Hg. }
  unfold df_regions. apply length_map.
Qed.

(** X7: the choropleth lists the normalised region names in ascending
    order without repetition, each with at least one row and with a
    count label (never the missing one); the counts add up to the rows
    that have a region, and the normalised name of every such row is
    listed. *)
Theorem by_region_counts (db : CaseTables) (dff : DataFrame) :
  StronglySorted (fun a b => pystr_compare a b = Lt) (map rb_region (by_region db dff)) /\
  (forall b, b ∈ by_region db dff ->
     (1 <= rb_count b)%nat /\
     rb_count_bin b = count_labels_chor !! count_range (Z.of_nat (rb_count b)) /\
     is_Some (rb_count_bin b)) /\
  sum_list (map rb_count (by_region db dff)) = length (omap region dff) /\
  (forall r g, r ∈ dff -> region r = Some g ->
               normalize db g ∈ map rb_region (by_region db dff)).
Proof.
  split; [|split; [|split]].
  - unfold by_region. cbv zeta. rewrite map_map. cbn [rb_region]. rewrite map_id.
    apply (group_keys_strictly_sorted pystr_compare pystr_compare_eq
             pystr_compare_lt_trans pystr_compare_gt_lt).
  - intros b Hb. apply by_region_elem in Hb as [Hg Hb]. rewrite Hb.
    cbn [rb_count rb_count_bin]. split.
    + apply (filter_nonempty _ _ (rb_region b) Hg). apply bool_decide_eq_true. reflexivity.
    + apply count_bin_label. lia.
  - apply by_region_sum.
  - intros r g Hr Hg. unfold by_region. cbv zeta. rewrite map_map. cbn [rb_region].
    rewrite map_id. apply (group_keys_elem_of pystr_compare pystr_compare_eq).
    unfold df_regions. apply list_elem_of_In, in_map, list_elem_of_In.
    apply list_elem_of_omap. exists r. auto.
Qed.

(** ** The three strongest earthquakes *)

Lemma category_leb_total (a b : Row) :
  category_leb a b = false -> category_leb b a = true.
Proof.
  unfold category_leb.
  destruct (magnitude_bucket (magnitude a)), (magnitude_bucket (magnitude b));
    try discriminate; try reflexivity.
  intros H. apply Nat.leb_gt in H. apply Nat.leb_le. lia.
Qed.

Lemma category_leb_trans (a b c : Row) :
  category_leb a b = true -> category_leb b c = true -> category_leb a c = true.
Proof.
  unfold category_leb.
  destruct (magnitude_bucket (magnitude a)), (magnitude_bucket (magnitude b)),
    (magnitude_bucket (magnitude c)); try discriminate; try reflexivity.
  rewrite !Nat.leb_le. lia.
Qed.

Lemma strongest_first (dff : DataFrame) :
  StronglySorted (fun a b => F64.leb (magnitude b) (magnitude a) = true)
    (stable_sort (fun a b => F64.leb (magnitude b) (magnitude a))
       (List.filter has_position dff)).
Proof.
  apply (stable_sort_StronglySorted _ (fun r => F64.isna (magnitude r) = false)).
  - intros a b Ha Hb. apply F64_leb_total; assumption.
  - intros a b c _ _ _ Hab Hbc.
    apply (F64Facts.leb_trans (magnitude c) (magnitude b) (magnitude a)); assumption.
  - apply Forall_forall. intros r Hr.
    apply list_elem_of_In, filter_In in Hr as [_ Hr]. unfold has_position in Hr.
    apply andb_true_iff in Hr as [_ Hr]. apply negb_true_iff, Hr.
Qed.

(** X8: the mini map shows three rows, or all rows with position and
    magnitude when these are fewer; no row left out is stronger than a
    row shown; and the rows shown are in the order of their magnitude
    categories. *)
Theorem top3_strongest (dff : DataFrame) :
  length (top3 dff) = Nat.min 3 (length (List.filter has_position dff)) /\
  (exists rest,
     top3 dff ++ rest ≡ₚ List.filter has_position dff /\
     forall a b, a ∈ top3 dff -> b ∈ rest ->
                 F64.leb (magnitude b) (magnitude a) = true) /\
  StronglySorted (fun a b => category_leb a b = true) (top3 dff).
Proof.
  unfold top3.
  set (S := stable_sort (fun a b => F64.leb (magnitude b) (magnitude a))
              (List.filter has_position dff)).
  split; [|split].
  - rewrite stable_sort_length, length_take. unfold S. rewrite stable_sort_length.
    reflexivity.
  - exists (drop 3 S). split.
    + rewrite stable_sort_perm, take_drop. apply stable_sort_perm.
    + intros a b Ha Hb. rewrite stable_sort_perm in Ha.
      apply elem_of_take in Ha as (i & Hi & Hlt).
      apply list_elem_of_lookup_1 in Hb as [j Hj]. rewrite lookup_drop in Hj.
      apply (StronglySorted_lookup_lt _ _ (strongest_first dff) i (3 + j));
        [lia|assumption..].
  - apply (stable_sort_StronglySorted category_leb (fun _ => True)).
    + intros a b _ _. apply category_leb_total.
    + intros a b c _ _ _. apply category_leb_trans.
    + apply Forall_forall. auto.
Qed.

(** ** The overlay on well-formed and on broken payloads *)

Lemma py_map_getindex_0 (pts : list (json * json)) :
  py_map (fun coord => getindex coord 0) (map (fun p => JArr [p.1; p.2]) pts)
  = inr (map fst pts).
Proof. induction pts as [|p pts IH]; simpl; [reflexivity|]. rewrite IH. reflexivity. Qed.

Lemma py_map_getindex_1 (pts : list (json * json)) :
  py_map (fun coord => getindex coord 1) (map (fun p => JArr [p.1; p.2]) pts)
  = inr (map snd pts).
Proof. induction pts as [|p pts IH]; simpl; [reflexivity|]. rewrite IH. reflexivity. Qed.

Lemma overlay_feature_of (f : string * list (json * json)) (p : Page) :
  overlay_feature (feature_of f) p
  = (mkPage (dot_traces p ++ line_traces [f]) (warnings p), inr tt).
Proof.
  destruct f as [ty pts]. unfold overlay_feature, feature_of, line_traces.
  cbn [py_bind py_lift getitem List.find String.eqb Ascii.eqb Bool.eqb fst snd
       is_LineString iterate omap list_omap].
  destruct (String.eqb ty "LineString").
  - cbn [py_bind py_lift]. rewrite py_map_getindex_0, py_map_getindex_1. reflexivity.
  - unfold py_ret. rewrite app_nil_r. destruct p. reflexivity.
Qed.

Lemma line_traces_cons (f : string * list (json * json))
    (fs : list (string * list (json * json))) :
  line_traces (f :: fs) = line_traces [f] ++ line_traces fs.
Proof. unfold line_traces. simpl. destruct (String.eqb f.1 "LineString"); reflexivity. Qed.

Lemma py_for_features (fs : list (string * list (json * json))) (rest : list json)
    (p : Page) :
  py_for (map feature_of fs ++ rest) overlay_feature p
  = py_for rest overlay_feature
      (mkPage (dot_traces p ++ line_traces fs) (warnings p)).
Proof.
  revert p. induction fs as [|f fs IH]; intros p.
  - simpl. rewrite app_nil_r. destruct p. reflexivity.
  - change (py_for (map feature_of (f :: fs) ++ rest) overlay_feature p)
      with (py_bind (overlay_feature (feature_of f))
              (fun _ => py_for (map feature_of fs ++ rest) overlay_feature) p).
    unfold py_bind at 1. rewrite overlay_feature_of, IH.
    cbn [dot_traces warnings]. rewrite (line_traces_cons f fs), app_assoc. reflexivity.
Qed.

Lemma overlay_of_collection (status : Z) (features : list json) (p : Page) :
  status < 400 \/ 600 <= status ->
  overlay true (Response status (Some (feature_collection features))) p
  = try_except (py_for features overlay_feature) st_warning p.
Proof.
  intros Hst. unfold overlay, load_tectonics.
  replace ((400 <=? status) && (status <? 600)) with false
    by (symmetry; apply andb_false_iff; rewrite Z.leb_gt, Z.ltb_ge; lia).
  reflexivity.
Qed.

(** X9: when the fetch succeeds with a feature collection whose features
    have a geometry with a type and a list of points, the map gets one
    line per feature of type LineString, in order, with the first
    coordinates as longitudes and the second as latitudes; features of
    other types add nothing, and there is no warning. *)
Theorem overlay_draws_lines (dff : DataFrame) (status : Z)
    (fs : list (string * list (json * json))) :
  status < 400 \/ 600 <= status ->
  dot_map_section true
    (Response status (Some (feature_collection (map feature_of fs)))) dff
  = inr (mkPage (scatter_map dff ++ line_traces fs) []).
Proof.
  intros Hst. unfold dot_map_section.
  rewrite (overlay_of_collection status _ _ Hst). unfold try_except.
  rewrite <- (app_nil_r (map feature_of fs)), py_for_features. reflexivity.
Qed.

Lemma overlay_draws_lines_witness :
  dot_map_section true
    (Response 200
       (Some (feature_collection
                (map feature_of
                   [ ("LineString"%string, [(JInt 1, JInt 2); (JInt 3, JInt 4)])
                   ; ("Point"%string, []) ])))) []
  = inr (mkPage [Lines [JInt 1; JInt 3] [JInt 2; JInt 4]] []).
Proof. apply (overlay_draws_lines [] 200). lia. Defined.

(** X10: a feature on which the loop body raises ends the loop: the
    lines of the features before it stay on the map, the features after
    it are not looked at, and the exception is the one warning. *)
Theorem overlay_stops_at_bad_feature (dff : DataFrame) (status : Z)
    (fs : list (string * list (json * json))) (bad : json) (rest : list json)
    (e : exn) :
  status < 400 \/ 600 <= status ->
  (forall p, overlay_feature bad p = (p, inl e)) ->
  dot_map_section true
    (Response status (Some (feature_collection (map feature_of fs ++ bad :: rest)))) dff
  = inr (mkPage (scatter_map dff ++ line_traces fs) [e]).
Proof.
  intros Hst Hbad. unfold dot_map_section.
  rewrite (overlay_of_collection status _ _ Hst). unfold try_except.
  rewrite py_for_features. cbn [py_for]. unfold py_bind. rewrite Hbad. reflexivity.
Qed.

(** A geometry collection has no coordinates: the loop body raises
    [KeyError] although the type is not LineString. *)
Lemma overlay_stops_at_bad_feature_witness :
  dot_map_section true
    (Response 200
       (Some (feature_collection
                (map feature_of [("LineString"%string, [(JInt 1, JInt 2)])]
                 ++ JObj [("geometry", JObj [("type", JStr "GeometryCollection")])]%string
                 :: [boundary_line])))) []
  = inr (mkPage [Lines [JInt 1] [JInt 2]] [KeyError]).
Proof.
  apply (overlay_stops_at_bad_feature [] 200
           [("LineString"%string, [(JInt 1, JInt 2)])]).
  - lia.
  - intros p. reflexivity.
Defined.

(** ** The pie chart in a run of the dashboard *)

Lemma last_click_clicked (evs : list Event) (y : Z) :
  last_click evs = Some y -> ClickBar y ∈ evs.
Proof.
  unfold last_click.
  assert (forall acc,
            foldl (fun acc e => match e with
                                | ClickBar y => Some y
                                | ShowAllYears => None
                                | OtherWidget => acc
                                end) acc evs = Some y ->
            acc = Some y \/ ClickBar y ∈ evs) as Hgen.
  { induction evs as [|e evs IH]; intros acc; simpl; [auto|].
    intros H. apply IH in H as [H|H]; [|right; right; exact H].
    destruct e as [y'| |]; try discriminate; [|auto].
    injection H as ->. right. left. }
  intros H. apply Hgen in H as [H|H]; [discriminate|exact H].
Qed.

Lemma app_parts (db : CaseTables) (observed : bool) (df : DataFrame) (s : Session)
    (show_tectonics : bool) (net : Reply) (region_selected : pystr) (d : Dashboard) :
  app db observed df s show_tectonics net region_selected = Some d ->
  per_year_df df = Some (main_barchart d) /\
  region_options d = regions (df_filtered df (selected_year s)) /\
  pie d = pie_section observed (df_filtered df (selected_year s)) region_selected.
Proof.
  unfold app. destruct (per_year_df df) as [per_year|]; [|discriminate]. simpl.
  destruct (dot_map_section _ _ _); [discriminate|].
  destruct (choropleth_section _ _ _); [|discriminate]. intros [= <-]. auto.
Qed.

Lemma pie_section_chart (observed : bool) (dff : DataFrame) (region_selected : pystr) :
  dff <> [] -> region_selected ∈ regions dff ->
  pie_section observed dff region_selected
  = PieChart (df_pie observed (df_pie_filtered dff region_selected))
  /\ df_pie_filtered dff region_selected <> [].
Proof.
  intros Hne Hin.
  assert (df_pie_filtered dff region_selected <> []) as Hsub.
  { apply regions_elem in Hin as [->|(r & Hr & Hg)].
    - unfold df_pie_filtered. rewrite bool_decide_eq_true_2 by reflexivity. exact Hne.
    - intros Hnil.
      assert (r ∈ df_pie_filtered dff region_selected) as Hr'
        by (apply df_pie_filtered_elem; auto).
      rewrite Hnil in Hr'. apply elem_of_nil in Hr'. exact Hr'. }
  split; [|exact Hsub]. unfold pie_section.
  destruct (df_pie_filtered dff region_selected); [congruence|reflexivity].
Qed.

(** X11: in a run after any history in which only bars of the chart were
    clicked, with a region taken from the options of the selector, the
    table filtered by year and the subset of the pie chart have rows, and
    the pie chart is drawn: the "no data" warning does not appear. *)
Theorem no_data_unreachable (db : CaseTables) (observed : bool) (df : DataFrame)
    (evs : list Event) (show_tectonics : bool) (net : Reply) (region_selected : pystr)
    (d : Dashboard) :
  app db observed df (session_after evs) show_tectonics net region_selected = Some d ->
  (forall y, ClickBar y ∈ evs -> y ∈ years_barchart (main_barchart d)) ->
  region_selected ∈ region_options d ->
  let dff := df_filtered df (selected_year (session_after evs)) in
  dff <> [] /\
  df_pie_filtered dff region_selected <> [] /\
  pie d = PieChart (df_pie observed (df_pie_filtered dff region_selected)).
Proof.
  intros Happ Hbars Hregion dff.
  destruct (app_parts _ _ _ _ _ _ _ _ Happ) as (Hpy & Hopts & Hpie).
  fold dff in Hopts, Hpie.
  assert (dff <> []) as Hne.
  { subst dff. rewrite session_after_last_click.
    destruct (last_click evs) as [y|] eqn:E; simpl.
    - apply last_click_clicked, Hbars in E.
      rewrite (per_year_df_years df _ Hpy) in E.
      apply years_elem in E as (r & Hr & Hy).
      pose proof (filter_nonempty (fun r => Z.eqb (year r) y) df r Hr
                    (proj2 (Z.eqb_eq _ _) Hy)) as Hlen.
      intros Hnil. rewrite Hnil in Hlen. simpl in Hlen. lia.
    - intros ->. discriminate. }
  rewrite Hopts in Hregion.
  destruct (pie_section_chart observed dff region_selected Hne Hregion) as [Hchart Hsub].
  rewrite Hpie. auto.
Qed.

Lemma no_data_unreachable_witness :
  let df := [ mkRow 2015 mag_6_2 F64.nan F64.nan F64.nan 0 (Some (py "Greece"))
            ; mkRow 2016 mag_5_1 F64.nan F64.nan F64.nan 0 (Some (py "Italy")) ] in
  let dff := df_filtered df (selected_year (session_after [ClickBar 2015; ClickBar 2016])) in
  exists d,
    app cpython false df (session_after [ClickBar 2015; ClickBar 2016]) false TimedOut
        (py "Italy")
    = Some d /\
    dff <> [] /\
    df_pie_filtered dff (py "Italy") <> [] /\
    pie d = PieChart (df_pie false (df_pie_filtered dff (py "Italy"))).
Proof.
  intros df dff.
  destruct (app cpython false df (session_after [ClickBar 2015; ClickBar 2016]) false
              TimedOut (py "Italy")) as [d|] eqn:Happ; [|vm_compute in Happ; discriminate].
  exists d. split; [reflexivity|].
  apply (no_data_unreachable cpython false df [ClickBar 2015; ClickBar 2016] false TimedOut
           (py "Italy") d Happ).
  - vm_compute in Happ. injection Happ as <-. intros y Hy. cbn [main_barchart].
    apply elem_of_cons in Hy as [[= ->]|Hy]; [left|].
    apply elem_of_cons in Hy as [[= ->]|Hy]; [right; left|].
    apply elem_of_nil in Hy. contradiction.
  - vm_compute in Happ. injection Happ as <-. cbn [region_options]. right. left.
Defined.

(** ** The options of the region selector *)

Lemma pystr_leb_total (a b : pystr) : pystr_leb a b = false -> pystr_leb b a = true.
Proof.
  unfold pystr_leb. destruct (pystr_compare a b) eqn:E; try discriminate.
  intros _. rewrite (pystr_compare_gt_lt a b E). reflexivity.
Qed.

Lemma pystr_leb_trans (a b c : pystr) :
  pystr_leb a b = true -> pystr_leb b c = true -> pystr_leb a c = true.
Proof.
  unfold pystr_leb.
  destruct (pystr_compare a b) eqn:Eab; try discriminate;
    destruct (pystr_compare b c) eqn:Ebc; try discriminate; intros _ _.
  - apply pystr_compare_eq in Eab as ->. rewrite Ebc. reflexivity.
  - apply pystr_compare_eq in Eab as ->. rewrite Ebc. reflexivity.
  - apply pystr_compare_eq in Ebc as <-. rewrite Eab. reflexivity.
  - rewrite (pystr_compare_lt_trans a b c Eab Ebc). reflexivity.
Qed.

Lemma StronglySorted_distinct {A : Type} (R : A -> A -> Prop) (l : list A) :
  StronglySorted R l -> NoDup l -> StronglySorted (fun a b => R a b /\ a <> b) l.
Proof.
  induction 1 as [|x l Hs IH Hall]; intros Hnd; constructor.
  - apply IH. apply NoDup_cons in Hnd. tauto.
  - apply NoDup_cons in Hnd as [Hx _]. rewrite Forall_forall in Hall.
    apply Forall_forall. intros y Hy. split; [auto|]. intros ->. contradiction.
Qed.

(** X12: the selector offers "All" first and then every region string of
    the filtered table once, as written there, in ascending order of code
    points. *)
Theorem region_options_sorted (dff : DataFrame) :
  exists options,
    regions dff = py "All" :: options /\
    StronglySorted (fun a b => pystr_compare a b = Lt) options /\
    forall g, g ∈ options <-> exists r, r ∈ dff /\ region r = Some g.
Proof.
  unfold regions. eexists. split; [reflexivity|]. split.
  - apply (StronglySorted_weaken
             (fun a b => pystr_leb a b = true /\ a <> b)).
    + intros a b _ _ [Hle Hne]. unfold pystr_leb in Hle.
      destruct (pystr_compare a b) eqn:E; [|reflexivity|discriminate].
      apply pystr_compare_eq in E. contradiction.
    + apply StronglySorted_distinct.
      * apply (stable_sort_StronglySorted pystr_leb (fun _ => True)).
        -- intros a b _ _. apply pystr_leb_total.
        -- intros a b c _ _ _. apply pystr_leb_trans.
        -- apply Forall_forall. auto.
      * rewrite stable_sort_perm.
        destruct (drop_duplicates_keys (@id pystr) (omap region dff) []) as [Hnd _].
        rewrite map_id in Hnd. exact Hnd.
  - intros g. rewrite stable_sort_elem, drop_duplicates_id_elem, list_elem_of_omap.
    rewrite elem_of_nil. split; [intros [H _]; exact H|intros H; split; [exact H|tauto]].
Qed.

(** ** What normalised region names look like *)

Lemma lstrip_head (s : pystr) (c : N) :
  head (lstrip s) = Some c -> Unicode.is_space c = false.
Proof.
  induction s as [|x s IH]; simpl; [discriminate|].
  destruct (Unicode.is_space x) eqn:E; [exact IH|]. simpl. intros [= <-]. exact E.
Qed.

(** X13: a normalised region name neither starts nor ends with white
    space, whatever the name was, and stripping it again changes nothing. *)
Theorem normalize_trimmed (db : CaseTables) (r : pystr) :
  (forall c, head (normalize db r) = Some c -> Unicode.is_space c = false) /\
  (forall c, last (normalize db r) = Some c -> Unicode.is_space c = false) /\
  strip (normalize db r) = normalize db r.
Proof.
  unfold normalize. split; [|split].
  - intros c. unfold strip. rewrite <- lstrip_rstrip_lstrip. apply lstrip_head.
  - intros c. unfold strip, rstrip. rewrite last_reverse. apply lstrip_head.
  - apply strip_idem.
Qed.

Section AsciiNames.
Import Unicode UnicodeFacts.
Variable db : CaseTables.
Hypothesis Hdb : ascii_rules db.

Lemma ascii_case_of_lower (b : bool) :
  forall c, is_ascii c = true -> ascii_case b (ascii_case true c) = ascii_case b c.
Proof. destruct b; by_ascii_table. Qed.

Lemma ascii_lower_of_case (b : bool) :
  forall c, is_ascii c = true -> ascii_case true (ascii_case b c) = ascii_case true c.
Proof. destruct b; by_ascii_table. Qed.

(** [str.title] does not look at the case of the letters it is given... *)
Lemma do_title_lower (b : bool) (s : pystr) :
  is_ascii_str s -> do_title db [] b (ascii_lower s) = do_title db [] b s.
Proof.
  intros Hs. generalize (@nil N) at 1 as before. generalize (@nil N) as before'.
  revert b. induction Hs as [|c s Hc Hs IH]; intros b before' before; [reflexivity|].
  unfold ascii_lower in *. cbn [map].
  rewrite (do_title_ascii_cons db Hdb) by (apply ascii_case_ascii, Hc).
  rewrite (do_title_ascii_cons db Hdb before' b c s Hc).
  rewrite ascii_case_of_lower, ascii_case_cased by exact Hc.
  f_equal. apply IH.
Qed.

(** ... and changes nothing but the case. *)
Lemma lower_do_title (b : bool) (s : pystr) :
  is_ascii_str s -> ascii_lower (do_title db [] b s) = ascii_lower s.
Proof.
  intros Hs. generalize (@nil N) as before.
  revert b. induction Hs as [|c s Hc Hs IH]; intros b before; [reflexivity|].
  rewrite (do_title_ascii_cons db Hdb before b c s Hc). unfold ascii_lower in *. cbn [map].
  rewrite ascii_lower_of_case, IH by exact Hc. reflexivity.
Qed.

Lemma strip_ascii (s : pystr) : is_ascii_str s -> is_ascii_str (strip s).
Proof. intros Hs. apply rstrip_ascii, lstrip_ascii, Hs. Qed.

Lemma normalize_title_strip (r : pystr) :
  is_ascii_str r -> normalize db r = title db (strip r).
Proof. intros Hr. unfold normalize. apply (strip_title db Hdb), Hr. Qed.

End AsciiNames.

(** X14: two ASCII region names get the same normalised name, and so
    are counted as one region of the choropleth, exactly when they are
    equal up to the case of their letters and white space around them;
    this holds with all case tables that treat ASCII as usual. *)
Theorem normalize_identifies (db : CaseTables) (r1 r2 : pystr) :
  ascii_rules db ->
  is_ascii_str r1 -> is_ascii_str r2 ->
  (normalize db r1 = normalize db r2 <->
   ascii_lower (strip r1) = ascii_lower (strip r2)).
Proof.
  intros Hdb H1 H2. rewrite !(normalize_title_strip db Hdb) by assumption. unfold title.
  pose proof (strip_ascii r1 H1) as S1. pose proof (strip_ascii r2 H2) as S2. split.
  - intros Heq. rewrite <- (lower_do_title db Hdb false (strip r1) S1), Heq.
    apply (lower_do_title db Hdb), S2.
  - intros Heq. rewrite <- (do_title_lower db Hdb false (strip r1) S1), Heq.
    apply (do_title_lower db Hdb), S2.
Qed.

Lemma normalize_identifies_witness :
  normalize cpython (py "ITALY ") = normalize cpython (py " italy") <->
  ascii_lower (strip (py "ITALY ")) = ascii_lower (strip (py " italy")).
Proof.
  apply (normalize_identifies cpython).
  - exact UnicodeFacts.cpython_ascii_rules.
  - unfold is_ascii_str. apply (bool_decide_unpack _). vm_compute. exact I.
  - unfold is_ascii_str. apply (bool_decide_unpack _). vm_compute. exact I.
Defined.

(** X16: with CPython's tables a second normalisation changes nothing
    in a name without any of the 28 code points of [cpython_unstable];
    and each of these code points, with a letter after it, makes a name
    that the second normalisation changes, at the start of the name or
    after a letter. *)
Theorem normalize_idempotent_cpython :
  (forall r, (forall c, c ∈ r -> c ∉ cpython_unstable) ->
             normalize cpython (normalize cpython r) = normalize cpython r) /\
  (forall u, u ∈ cpython_unstable ->
             exists r, (r = [u; 97] \/ r = [65; u; 97])%N /\
                       normalize cpython (normalize cpython r) <> normalize cpython r).
Proof.
  split.
  - intros r Hr. unfold normalize at 1.
    rewrite (normalize_fixed_by_title cpython r).
    + unfold normalize. apply strip_idem.
    + apply Forall_forall. intros c Hc. apply CPythonFacts.cpython_title_stable, Hr, Hc.
  - assert (Forall (fun u =>
              normalize cpython (normalize cpython [u; 97]%N) <> normalize cpython [u; 97]%N
              \/ normalize cpython (normalize cpython [65; u; 97]%N)
                 <> normalize cpython [65; u; 97]%N) cpython_unstable) as Hall.
    { apply (bool_decide_unpack _). vm_compute. exact I. }
    rewrite Forall_forall in Hall. intros u Hu.
    destruct (Hall u Hu) as [H|H]; eexists; (split; [|exact H]); auto.
Qed.

(** "straße ΟΔΟΣ", with U+00DF and a capital sigma at the end. *)
Lemma normalize_idempotent_cpython_witness :
  normalize cpython (normalize cpython STRASSE_ODOS) = normalize cpython STRASSE_ODOS.
Proof.
  apply (proj1 normalize_idempotent_cpython STRASSE_ODOS).
  apply Forall_forall. apply (bool_decide_unpack _). vm_compute. exact I.
Defined.

(** ** The order of the rows of the table *)

Lemma filter_length_perm {A : Type} (f : A -> bool) (l l' : list A) :
  l ≡ₚ l' -> length (List.filter f l) = length (List.filter f l').
Proof.
  induction 1 as [|x l l' _ IH|x y l|l1 l2 l3 _ IH1 _ IH2]; simpl.
  - reflexivity.
  - destruct (f x); simpl; rewrite IH; reflexivity.
  - destruct (f x), (f y); reflexivity.
  - rewrite IH1. exact IH2.
Qed.

Lemma sorted_lt_unique (l1 l2 : list Z) :
  StronglySorted Z.lt l1 -> StronglySorted Z.lt l2 ->
  (forall x, x ∈ l1 <-> x ∈ l2) -> l1 = l2.
Proof.
  intros H1. revert l2. induction H1 as [|a l1 Hs1 IH Hall1]; intros l2 H2 Hel.
  - destruct l2 as [|b l2]; [reflexivity|].
    exfalso. apply (elem_of_nil b). apply Hel. left.
  - destruct H2 as [|b l2 Hs2 Hall2].
    + exfalso. apply (elem_of_nil a). apply Hel. left.
    + rewrite Forall_forall in Hall1, Hall2.
      assert (a = b) as <-.
      { assert (a ∈ b :: l2) as Ha by (apply Hel; left).
        assert (b ∈ a :: l1) as Hb by (apply Hel; left).
        apply elem_of_cons in Ha as [Ha|Ha]; [exact Ha|].
        apply elem_of_cons in Hb as [Hb|Hb]; [congruence|].
        specialize (Hall1 b Hb). specialize (Hall2 a Ha). lia. }
      f_equal. apply IH; [exact Hs2|]. intros x. split; intros Hx.
      * assert (x ∈ a :: l2) as Hx' by (apply Hel; right; exact Hx).
        apply elem_of_cons in Hx' as [->|Hx']; [|exact Hx'].
        specialize (Hall1 a Hx). lia.
      * assert (x ∈ a :: l1) as Hx' by (apply Hel; right; exact Hx).
        apply elem_of_cons in Hx' as [->|Hx']; [|exact Hx'].
        specialize (Hall2 a Hx). lia.
Qed.

Lemma years_perm (df df' : DataFrame) : df ≡ₚ df' -> years df = years df'.
Proof.
  intros Hp. apply sorted_lt_unique; try apply group_keys_sorted.
  intros y. rewrite !years_elem. split; intros (r & Hr & Hy); exists r; split; auto.
  - rewrite <- Hp. exact Hr.
  - rewrite Hp. exact Hr.
Qed.

Lemma region_count_perm (df df' : DataFrame) (y : Z) (g : pystr) :
  df ≡ₚ df' -> region_count df y g = region_count df' y g.
Proof. intros Hp. unfold region_count. apply filter_length_perm, Hp. Qed.

(** The top region of a year, as [year_summary] looks it up. *)
Lemma summary_top_region (df : DataFrame) (y : Z) :
  match ys_top_region (year_summary df y) with
  | Some g => (y, g) ∈ top_region df
  | None => forall g, region_count df y g = 0%nat
  end.
Proof.
  cbn [ys_top_region year_summary].
  destruct (List.find _ (top_region df)) as [[y' g]|] eqn:E; simpl.
  - apply find_key_Some in E as [Hin Hy]. simpl in Hy. subst y'. exact Hin.
  - intros g. destruct (region_count df y g) eqn:Hn; [reflexivity|]. exfalso.
    assert (1 <= region_count df y g)%nat as Hpos by lia.
    apply region_count_positive in Hpos as (r & Hr & Hy & Hg).
    destruct (proj2 (top_region_covers df y)) as [g' Hg'].
    { exists r. rewrite Hg. auto. }
    exact (find_key_None _ _ E g' Hg').
Qed.

Lemma top_region_perm (df df' : DataFrame) (y : Z) :
  df ≡ₚ df' ->
  ys_top_region (year_summary df y) = ys_top_region (year_summary df' y).
Proof.
  intros Hp.
  pose proof (summary_top_region df y) as H1.
  pose proof (summary_top_region df' y) as H2.
  destruct (ys_top_region (year_summary df y)) as [g|],
           (ys_top_region (year_summary df' y)) as [g'|]; [| | |reflexivity].
  - apply top_region_elem in H1 as [_ H1]. apply top_region_elem in H2 as [_ H2].
    destruct (H1 g') as [Hle1 Htie1]. destruct (H2 g) as [Hle2 Htie2].
    rewrite <- !(region_count_perm df df' y) in Hle2, Htie2 by exact Hp.
    destruct (decide (g = g')) as [->|Hne]; [reflexivity|]. exfalso.
    assert (pystr_compare g g' = Lt) as Hlt by (apply Htie1; [lia|congruence]).
    assert (pystr_compare g' g = Lt) as Hgt by (apply Htie2; [lia|congruence]).
    pose proof (pystr_compare_lt_trans g g' g Hlt Hgt) as Hrefl.
    assert (pystr_compare g g = Eq) by (apply pystr_compare_eq; reflexivity).
    congruence.
  - apply top_region_elem in H1 as [Hpos _].
    rewrite (region_count_perm df df' y g Hp), (H2 g) in Hpos. lia.
  - apply top_region_elem in H2 as [Hpos _].
    rewrite <- (region_count_perm df df' y g' Hp), (H1 g') in Hpos. lia.
Qed.

(** X15: the years, the amounts and the top regions of the bar chart do
    not depend on the order of the rows of the table. *)
Theorem bar_chart_ignores_row_order (df df' : DataFrame) (s : list YearSummary) :
  df ≡ₚ df' -> per_year_df df = Some s ->
  exists s', per_year_df df' = Some s' /\ map bar_columns s' = map bar_columns s.
Proof.
  intros Hp Hs.
  assert (df <> []) as Hne by (intros ->; discriminate).
  assert (df' <> []) as Hne'.
  { intros ->. apply Permutation_nil_r in Hp. contradiction. }
  rewrite (per_year_df_rows df Hne) in Hs. injection Hs as <-.
  exists (map (year_summary df') (years df')). split; [apply per_year_df_rows, Hne'|].
  rewrite <- (years_perm df df' Hp), !map_map. apply map_ext. intros y.
  unfold bar_columns. rewrite (top_region_perm df df' y Hp).
  cbn [ys_year amount year_summary]. unfold rows_of_year.
  rewrite (filter_length_perm _ df df' Hp). reflexivity.
Qed.

Lemma bar_chart_ignores_row_order_witness :
  exists s',
    per_year_df
      [ mkRow 2016 mag_5_1 F64.nan F64.nan F64.nan 0 (Some (py "Italy"))
      ; mkRow 2015 mag_6_2 F64.nan F64.nan F64.nan 0 (Some (py "Greece")) ]
    = Some s' /\
    map bar_columns s'
    = map bar_columns [ mkYS 2015 1 (Some (py "Greece")) mag_6_2 F64.nan F64.nan
                      ; mkYS 2016 1 (Some (py "Italy")) mag_5_1 F64.nan F64.nan ].
Proof.
  apply (bar_chart_ignores_row_order
           [ mkRow 2015 mag_6_2 F64.nan F64.nan F64.nan 0 (Some (py "Greece"))
           ; mkRow 2016 mag_5_1 F64.nan F64.nan F64.nan 0 (Some (py "Italy")) ]).
  - apply Permutation_swap.
  - vm_compute. reflexivity.
Defined.

(** The scenario table, for the statements about a row of its summary. *)
Lemma top_magnitudes_witness :
  let df := [ mkRow 2015 mag_6_2 F64.nan F64.nan F64.nan 0 (Some (py "Greece"))
            ; mkRow 2015 mag_5_1 F64.nan F64.nan F64.nan 0 (Some (py "Italy"))
            ; mkRow 2015 F64.nan F64.nan F64.nan F64.nan 0 None ] in
  let ys := mkYS 2015 3 (Some (py "Greece")) mag_6_2 mag_5_1 F64.nan in
  let present := List.filter (fun x => negb (F64.isna x))
                   (map magnitude (rows_of_year (ys_year ys) df)) in
  (forall v, v ∈ present -> F64.isna (m1 ys) = false /\ F64.leb v (m1 ys) = true) /\
  (F64.isna (m2 ys) = false -> F64.leb (m2 ys) (m1 ys) = true) /\
  (F64.isna (m3 ys) = false -> F64.leb (m3 ys) (m2 ys) = true) /\
  (forall m, m ∈ [m1 ys; m2 ys; m3 ys] -> F64.isna m = false -> m ∈ present) /\
  (F64.isna (m1 ys) = false <-> (1 <= length present)%nat) /\
  (F64.isna (m2 ys) = false <-> (2 <= length present)%nat) /\
  (F64.isna (m3 ys) = false <-> (3 <= length present)%nat).
Proof.
  intros df ys.
  apply (top_magnitudes df [ys] ys).
  - vm_compute. reflexivity.
  - left.
Defined.

Lemma top_region_is_largest_witness :
  let df := [ mkRow 2015 mag_6_2 F64.nan F64.nan F64.nan 0 (Some (py "Italy"))
            ; mkRow 2015 mag_5_1 F64.nan F64.nan F64.nan 0 (Some (py "Greece")) ] in
  let ys := mkYS 2015 2 (Some (py "Greece")) mag_6_2 mag_5_1 F64.nan in
  (ys_top_region ys = None <->
   forall r, r ∈ df -> year r = ys_year ys -> region r = None) /\
  forall g, ys_top_region ys = Some g ->
    (1 <= region_count df (ys_year ys) g)%nat /\
    forall g', (region_count df (ys_year ys) g' <= region_count df (ys_year ys) g)%nat /\
               (region_count df (ys_year ys) g' = region_count df (ys_year ys) g ->
                g' <> g -> pystr_compare g g' = Lt).
Proof.
  intros df ys.
  apply (top_region_is_largest df [ys] ys).
  - vm_compute. reflexivity.
  - left.
Defined.

(** ** One run of the script *)

Section AddsLines.

Lemma adds_lines_lift {A : Type} (r : exn + A) : adds_lines (py_lift r).
Proof. intros p. exists []. simpl. rewrite app_nil_r. auto. Qed.

Lemma adds_lines_ret {A : Type} (a : A) : adds_lines (py_ret a).
Proof. intros p. exists []. simpl. rewrite app_nil_r. auto. Qed.

Lemma adds_lines_add_trace (lon lat : list json) : adds_lines (add_trace (Lines lon lat)).
Proof. intros p. exists [Lines lon lat]. simpl. auto. Qed.

Lemma adds_lines_warning (e : exn) : adds_lines (st_warning e).
Proof. intros p. exists []. simpl. rewrite app_nil_r. auto. Qed.

Lemma adds_lines_bind {A B : Type} (m : Py A) (k : A -> Py B) :
  adds_lines m -> (forall a, adds_lines (k a)) -> adds_lines (py_bind m k).
Proof.
  intros Hm Hk p. unfold py_bind. destruct (Hm p) as (e1 & Ht1 & Hl1).
  destruct (m p) as [p' [e|a]] eqn:E; simpl in *.
  - exists e1. auto.
  - destruct (Hk a p') as (e2 & Ht2 & Hl2). exists (e1 ++ e2).
    rewrite Ht2, Ht1, app_assoc, forallb_app, Hl1, Hl2. auto.
Qed.

Lemma adds_lines_try (body : Py unit) (handler : exn -> Py unit) :
  adds_lines body -> (forall e, adds_lines (handler e)) ->
  adds_lines (try_except body handler).
Proof.
  intros Hbody Hhandler p. unfold try_except. destruct (Hbody p) as (e1 & Ht1 & Hl1).
  destruct (body p) as [p' [e|[]]] eqn:E; simpl in *.
  - destruct (Hhandler e p') as (e2 & Ht2 & Hl2). exists (e1 ++ e2).
    rewrite Ht2, Ht1, app_assoc, forallb_app, Hl1, Hl2. auto.
  - exists e1. auto.
Qed.

Lemma adds_lines_for {A : Type} (l : list A) (body : A -> Py unit) :
  (forall x, adds_lines (body x)) -> adds_lines (py_for l body).
Proof.
  intros Hbody. induction l as [|x l IH]; simpl.
  - apply adds_lines_ret.
  - apply adds_lines_bind; [apply Hbody|]. intros _. exact IH.
Qed.

Lemma adds_lines_overlay_feature (feature : json) : adds_lines (overlay_feature feature).
Proof.
  unfold overlay_feature.
  repeat (apply adds_lines_bind; [apply adds_lines_lift|intros ?]).
  destruct (is_LineString _); [|apply adds_lines_ret].
  repeat (apply adds_lines_bind; [apply adds_lines_lift|intros ?]).
  apply adds_lines_add_trace.
Qed.

Lemma adds_lines_overlay (show_tectonics : bool) (net : Reply) :
  adds_lines (overlay show_tectonics net).
Proof.
  unfold overlay. destruct show_tectonics; [|apply adds_lines_ret].
  apply adds_lines_try; [|apply adds_lines_warning].
  repeat (apply adds_lines_bind; [apply adds_lines_lift|intros ?]).
  apply adds_lines_for, adds_lines_overlay_feature.
Qed.

End AddsLines.

(** The map that goes to the page holds the markers of [scatter_map] and
    after them nothing but lines. *)
Lemma dot_map_section_lines (show_tectonics : bool) (net : Reply) (dff : DataFrame) :
  exists lines ws,
    dot_map_section show_tectonics net dff = inr (mkPage (scatter_map dff ++ lines) ws) /\
    forallb is_line lines = true.
Proof.
  unfold dot_map_section.
  destruct (adds_lines_overlay show_tectonics net (mkPage (scatter_map dff) []))
    as (lines & Ht & Hl).
  destruct (overlay_total show_tectonics net (mkPage (scatter_map dff) []))
    as (extra & ws & Heq & _).
  rewrite Heq in Ht |- *. cbn [fst dot_traces] in Ht. apply app_inv_head in Ht. subst extra.
  exists lines, ws. split; [reflexivity|exact Hl].
Qed.

Lemma marker_rows_lines (lines : list Trace) :
  forallb is_line lines = true -> marker_rows lines = [].
Proof.
  induction lines as [|[label rows|lon lat] lines IH]; simpl; [reflexivity|discriminate|].
  exact IH.
Qed.

Lemma magnitude_category_label (m : F64.t) (label : string) :
  magnitude_category m = Some label -> label ∈ mag_labels_dot.
Proof.
  unfold magnitude_category, cut. destruct (cut_index _ _ _); [|discriminate].
  apply list_elem_of_lookup_2.
Qed.

(** The markers are rows of the table they are drawn from... *)
Lemma scatter_map_rows (dff : DataFrame) (r : Row) :
  r ∈ marker_rows (scatter_map dff) -> r ∈ dff.
Proof.
  unfold scatter_map. destruct dff as [|r0 dff']; [intros H; exact H|].
  set (dff := r0 :: dff'). destruct (forallb no_category dff).
  - unfold marker_rows. cbn [flat_map]. rewrite app_nil_r. auto.
  - unfold marker_rows. rewrite list_elem_of_In, in_flat_map.
    intros (t & Ht & Hr). apply list_elem_of_In, list_elem_of_omap in Ht as (label & _ & Ht).
    destruct (List.filter _ dff) as [|x rows] eqn:E; [discriminate|].
    injection Ht as <-. rewrite <- E in Hr. apply filter_In in Hr as [Hr _].
    apply list_elem_of_In, Hr.
Qed.

(** ... and every row with a category is among them. *)
Lemma scatter_map_covers (dff : DataFrame) (r : Row) :
  r ∈ dff -> is_Some (magnitude_category (magnitude r)) ->
  r ∈ marker_rows (scatter_map dff).
Proof.
  intros Hr [label Hlabel]. unfold scatter_map.
  destruct dff as [|r0 dff']; [apply elem_of_nil in Hr; contradiction|].
  set (dff := r0 :: dff') in *.
  destruct (forallb no_category dff) eqn:Hnone.
  - unfold marker_rows. cbn [flat_map]. rewrite app_nil_r. exact Hr.
  - unfold marker_rows. apply list_elem_of_In, in_flat_map.
    pose (rows := List.filter
                    (fun r' => bool_decide (magnitude_category (magnitude r') = Some label))
                    dff).
    assert (In r rows) as Hin.
    { apply filter_In. split; [apply list_elem_of_In, Hr|].
      apply bool_decide_eq_true, Hlabel. }
    exists (Markers label rows). split; [|exact Hin].
    apply list_elem_of_In, list_elem_of_omap. exists label.
    split; [apply (magnitude_category_label _ _ Hlabel)|].
    fold rows. destruct rows; [contradiction|reflexivity].
Qed.

Lemma top3_length (dff : DataFrame) :
  length (top3 dff) = Nat.min 3 (length (List.filter has_position dff)).
Proof.
  unfold top3. rewrite stable_sort_length, length_take, stable_sort_length. reflexivity.
Qed.

Lemma top3_elem (dff : DataFrame) (r : Row) : r ∈ top3 dff -> r ∈ dff.
Proof.
  unfold top3. rewrite stable_sort_elem. intros Hr.
  apply elem_of_take in Hr as (i & Hi & _). apply list_elem_of_lookup_2 in Hi.
  apply stable_sort_elem, list_elem_of_In, filter_In in Hi as [Hi _].
  apply list_elem_of_In, Hi.
Qed.

(** The bars count every row of the table once. *)
Lemma amount_barchart_sum (df : DataFrame) (per_year : list YearSummary) :
  per_year_df df = Some per_year -> sum_list (amount_barchart per_year) = length df.
Proof.
  intros Hpy. destruct df as [|r0 df']; [discriminate|].
  rewrite per_year_df_rows in Hpy by discriminate. injection Hpy as <-.
  unfold amount_barchart. rewrite map_map. cbn [year_summary amount].
  apply year_sizes_sum.
Qed.

Lemma region_is_text_row (df : DataFrame) :
  region_is_text df = true <-> exists r, r ∈ df /\ is_Some (region r).
Proof.
  unfold region_is_text. rewrite existsb_exists. split.
  - intros (r & Hr & H). apply bool_decide_eq_true in H. exists r.
    split; [apply list_elem_of_In, Hr|exact H].
  - intros (r & Hr & H). exists r. split; [apply list_elem_of_In, Hr|].
    apply bool_decide_eq_true, H.
Qed.

(** C9: a run on a table in which no row has a region ends with an
    exception.  Every other run shows a dashboard in which the filtered
    subset is the whole table when no year is selected and the rows of
    the selected year otherwise.  The bar chart is computed from the whole
    table, whatever is selected, and its bars count every row once.  The
    other views are computed from the subset: the markers of the point
    map are rows of the subset and every row of it with a magnitude
    category is a marker; the counts of the choropleth add up to the rows
    of the subset with a region; the top three are three rows of the
    subset, or all with position and magnitude if these are fewer; the
    regions offered are those of the subset; and the pie chart is missing
    exactly when the subset has no row of the selected region. *)
Theorem df_filtered_feeds_views (db : CaseTables) (observed : bool) (df : DataFrame)
    (s : Session) (show_tectonics : bool) (net : Reply) (region_selected : pystr) :
  (region_is_text df = false ->
   app db observed df s show_tectonics net region_selected = None) /\
  (region_is_text df = true ->
   exists d,
     app db observed df s show_tectonics net region_selected = Some d /\
     let dff := df_filtered df (selected_year s) in
     (selected_year s = None -> dff = df) /\
     (forall y, selected_year s = Some y ->
                dff = List.filter (fun r => Z.eqb (year r) y) df) /\
     (forall r, r ∈ dff <->
                r ∈ df /\ (selected_year s = None \/ selected_year s = Some (year r))) /\
     per_year_df df = Some (main_barchart d) /\
     sum_list (amount_barchart (main_barchart d)) = length df /\
     (forall s' show' net' region' d',
        app db observed df s' show' net' region' = Some d' ->
        main_barchart d' = main_barchart d) /\
     dot_map_section show_tectonics net dff = inr (dot_map d) /\
     (exists lines, dot_traces (dot_map d) = scatter_map dff ++ lines /\
                    forallb is_line lines = true) /\
     (forall r, r ∈ marker_rows (dot_traces (dot_map d)) -> r ∈ dff) /\
     (forall r, r ∈ dff -> is_Some (magnitude_category (magnitude r)) ->
                r ∈ marker_rows (dot_traces (dot_map d))) /\
     choropleth_map d = by_region db dff /\
     sum_list (map rb_count (choropleth_map d)) = length (omap region dff) /\
     mini_map d = top3 dff /\
     length (mini_map d) = Nat.min 3 (length (List.filter has_position dff)) /\
     (forall r, r ∈ mini_map d -> r ∈ dff) /\
     region_options d = regions dff /\
     (forall g, g ∈ region_options d <->
                g = py "All" \/ exists r, r ∈ dff /\ region r = Some g) /\
     pie d = pie_section observed dff region_selected /\
     ((exists message, pie d = NoData message) <->
      df_pie_filtered dff region_selected = [])).
Proof.
  split.
  { intros Htext. unfold app, choropleth_section. rewrite Htext.
    destruct (per_year_df df); [|reflexivity]. simpl.
    destruct (dot_map_section _ _ _); reflexivity. }
  intros Htext.
  assert (df <> []) as Hne by (intros ->; discriminate).
  destruct (per_year_df_defined df Hne) as [per_year Hpy].
  destruct (dot_map_section_lines show_tectonics net (df_filtered df (selected_year s)))
    as (lines & ws & Hdot & Hlines).
  eexists. split.
  { unfold app, choropleth_section. rewrite Hpy, Htext. simpl. rewrite Hdot. reflexivity. }
  cbn [main_barchart dot_map choropleth_map mini_map region_options pie dot_traces].
  cbv zeta. set (dff := df_filtered df (selected_year s)).
  split; [intros Hsel; subst dff; rewrite Hsel; reflexivity|].
  split; [intros y Hsel; subst dff; rewrite Hsel; reflexivity|].
  split; [intros r; apply df_filtered_elem|].
  split; [exact Hpy|].
  split; [apply (amount_barchart_sum df per_year Hpy)|].
  split.
  { intros s' show' net' region' d' Happ.
    destruct (app_parts _ _ _ _ _ _ _ _ Happ) as (Hpy' & _).
    rewrite Hpy in Hpy'. injection Hpy' as ->. reflexivity. }
  split; [exact Hdot|].
  split; [exists lines; split; [reflexivity|exact Hlines]|].
  assert (marker_rows (scatter_map dff ++ lines) = marker_rows (scatter_map dff)) as Hrows.
  { unfold marker_rows. rewrite flat_map_app. fold (marker_rows lines).
    rewrite (marker_rows_lines lines Hlines). apply app_nil_r. }
  rewrite Hrows.
  split; [apply scatter_map_rows|].
  split; [apply scatter_map_covers|].
  split; [reflexivity|].
  split; [apply by_region_sum|].
  split; [reflexivity|].
  split; [apply top3_length|].
  split; [apply top3_elem|].
  split; [reflexivity|].
  split; [apply regions_elem|].
  split; [reflexivity|].
  unfold pie_section. destruct (df_pie_filtered dff region_selected) as [|r rows].
  - split; [reflexivity|]. intros _. eexists. reflexivity.
  - split; [intros [message H]; discriminate|discriminate].
Qed.

(** The scenario table with the year 2016 selected. *)
Lemma df_filtered_feeds_views_witness :
  let df := [ mkRow 2015 mag_6_2 mag_5_1 mag_6_2 F64.nan 0 (Some (py "Greece"))
            ; mkRow 2016 mag_5_1 mag_5_1 mag_6_2 F64.nan 0 (Some (py "Italy")) ] in
  let s := session_after [ClickBar 2016] in
  region_is_text df = true /\
  exists d,
    app cpython false df s false TimedOut (py "All") = Some d /\
    df_filtered df (selected_year s)
    = [mkRow 2016 mag_5_1 mag_5_1 mag_6_2 F64.nan 0 (Some (py "Italy"))] /\
    amount_barchart (main_barchart d) = [1%nat; 1%nat] /\
    marker_rows (dot_traces (dot_map d)) = df_filtered df (selected_year s) /\
    choropleth_map d = [mkRB (py "Italy") 1 (Some "1"%string)] /\
    mini_map d = df_filtered df (selected_year s) /\
    region_options d = [py "All"; py "Italy"].
Proof.
  intros df s. split; [reflexivity|].
  destruct (proj2 (df_filtered_feeds_views cpython false df s false TimedOut (py "All"))
              eq_refl) as (d & Happ & _).
  exists d. split; [exact Happ|].
  vm_compute in Happ. injection Happ as <-. vm_compute. repeat split.
Defined.
